(** * LitecoinZ wallet ledger (src/wallet/wallet.cpp): a shallow embedding

    The development follows the C++ source function by function.  The
    wallet is a record of the containers CWallet keeps (mapWallet, the
    three spend multimaps, wtxOrdered, the order counter) together with a
    log of the records handed to the wallet database.

    Conventions.
    - [uint256] values (transaction ids, block hashes, nullifiers, note
      commitments) are numbers of type [N]; only their equality and the
      order used by the ordered containers matter.
    - C++ [int], [int64_t] and [CAmount] values are [Z]; where the source
      converts between widths the wrap-around is written out.
    - [std::map] is a [gmap]; [std::multimap] is an association list in
      insertion order, which is the order of every [equal_range]
      (elements with equal keys keep their insertion order); [std::set] is
      a [gset], and [*s.begin()] is its least element.
    - A failed [assert] and a call whose behaviour is undefined in C++ are
      results of their own, never silently skipped.
    - Balance caches ([MarkDirty], [MarkInputsDirty]), the nullifier-to-note
      lookup tables those caches are refreshed through, the address book,
      UI notifications, logging, locks and the coin-locking set are outside
      the modelled state. *)

From Stdlib Require Import ZArith List Bool Lia.
From stdpp Require Import base option list gmap fin_maps fin_sets strings sorting.

#[global] Set Warnings "-clear-no-such-hyp".

Open Scope Z_scope.

Abbreviation uint256 := N (only parsing).

(** ** Transactions *)

Module COutPoint.
Record t := mk { hash : uint256; n : N }.
End COutPoint.

#[global] Instance COutPoint_eq_dec : EqDecision COutPoint.t.
Proof. solve_decision. Defined.

Record CTxIn := { prevout : COutPoint.t; scriptSig : list N }.

Record CTxOut := { nValue : Z; scriptPubKey : list N }.

Record JSDescription := { nullifiers : list uint256; commitments : list uint256 }.

(** [vShieldedSpend] keeps the nullifier of each SpendDescription and
    [vShieldedOutput] the note commitment [cm] of each OutputDescription:
    the only members wallet.cpp reads in the functions embedded here. *)
Record CTransaction := {
  txid : uint256;
  vin : list CTxIn;
  vout : list CTxOut;
  vJoinSplit : list JSDescription;
  vShieldedSpend : list uint256;
  vShieldedOutput : list uint256;
  nLockTime : Z
}.

#[global] Instance CTxIn_eq_dec : EqDecision CTxIn.
Proof. solve_decision. Defined.
#[global] Instance CTxOut_eq_dec : EqDecision CTxOut.
Proof. solve_decision. Defined.
#[global] Instance JSDescription_eq_dec : EqDecision JSDescription.
Proof. solve_decision. Defined.
#[global] Instance CTransaction_eq_dec : EqDecision CTransaction.
Proof. solve_decision. Defined.

(** ** Incremental witnesses and note data *)

(** An incremental witness is taken from a commitment tree ([witnessed]:
    the leaves of the tree at that moment, the note's own commitment last)
    and then absorbs the commitments appended to the tree afterwards. *)
Record IncrementalWitness := {
  witnessed : list uint256;
  appended : list uint256
}.

#[global] Instance IncrementalWitness_eq_dec : EqDecision IncrementalWitness.
Proof. solve_decision. Defined.

Definition append (w : IncrementalWitness) (cm : uint256) : IncrementalWitness :=
  {| witnessed := witnessed w; appended := appended w ++ [cm] |}.

(** SproutNoteData and SaplingNoteData have the same members for the code
    embedded here; [address] stands for the Sprout payment address or the
    Sapling incoming viewing key.  [witnesses] is the std::list, front
    first. *)
Record NoteData := {
  address : N;
  nullifier : option uint256;
  witnesses : list IncrementalWitness;
  witnessHeight : Z;
  witnessRootValidated : bool
}.

Abbreviation SproutOutPoint := (N * N * N)%type (only parsing).
Abbreviation SaplingOutPoint := (N * N)%type (only parsing).

(** ** Wallet transactions *)

(** Modelled from the spec: the class CWalletTx is declared in wallet.h,
    which is not among the sources; wallet.cpp reads and writes the
    members below.  The confirmation status is one of Unconfirmed,
    Confirmed (with block hash and index), Conflicted (with block hash) and
    Abandoned, and [isAbandoned], [isConflicted] and [isUnconfirmed] test
    it. *)
Inductive Status := UNCONFIRMED | CONFIRMED | CONFLICTED | ABANDONED.

#[global] Instance Status_eq_dec : EqDecision Status.
Proof. solve_decision. Defined.

Record Confirmation := { status : Status; hashBlock : uint256; nIndex : Z }.

Record CWalletTx := {
  tx : CTransaction;
  m_confirm : Confirmation;
  mapSproutNoteData : gmap SproutOutPoint NoteData;
  mapSaplingNoteData : gmap SaplingOutPoint NoteData;
  mapValue : list (string * string);
  vOrderForm : list (string * string);
  fFromMe : bool;
  fInMempool : bool;
  nTimeReceived : Z;
  nTimeSmart : Z;
  nOrderPos : Z
}.

Definition GetHash (wtx : CWalletTx) : uint256 := txid (tx wtx).

Definition isAbandoned (wtx : CWalletTx) : bool :=
  bool_decide (status (m_confirm wtx) = ABANDONED).
Definition isConflicted (wtx : CWalletTx) : bool :=
  bool_decide (status (m_confirm wtx) = CONFLICTED).
Definition isUnconfirmed (wtx : CWalletTx) : bool :=
  bool_decide (status (m_confirm wtx) = UNCONFIRMED).

Definition InMempool (wtx : CWalletTx) : bool := fInMempool wtx.

Definition with_confirm (c : Confirmation) (wtx : CWalletTx) : CWalletTx :=
  {| tx := tx wtx; m_confirm := c;
     mapSproutNoteData := mapSproutNoteData wtx;
     mapSaplingNoteData := mapSaplingNoteData wtx;
     mapValue := mapValue wtx; vOrderForm := vOrderForm wtx;
     fFromMe := fFromMe wtx; fInMempool := fInMempool wtx;
     nTimeReceived := nTimeReceived wtx; nTimeSmart := nTimeSmart wtx;
     nOrderPos := nOrderPos wtx |}.

Definition with_notes (sprout : gmap SproutOutPoint NoteData)
    (sapling : gmap SaplingOutPoint NoteData) (wtx : CWalletTx) : CWalletTx :=
  {| tx := tx wtx; m_confirm := m_confirm wtx;
     mapSproutNoteData := sprout;
     mapSaplingNoteData := sapling;
     mapValue := mapValue wtx; vOrderForm := vOrderForm wtx;
     fFromMe := fFromMe wtx; fInMempool := fInMempool wtx;
     nTimeReceived := nTimeReceived wtx; nTimeSmart := nTimeSmart wtx;
     nOrderPos := nOrderPos wtx |}.

(** ** The chain, as the wallet sees it through interfaces::Chain *)

(** interfaces/chain.h is not among the sources: what wallet.cpp asks of
    the chain is a record that every function takes as an argument.
    [getBlockDepth h] is the depth of block [h] in the active chain, not
    positive when the block is unknown or not on the active chain;
    [findBlock] gives a known block's time. *)
Record Chain := {
  getBlockDepth : uint256 -> Z;
  findBlock : uint256 -> option Z;
  getAdjustedTime : Z
}.

Definition GetDepthInMainChainINTERNAL (c : Chain) (wtx : CWalletTx) : Z :=
  getBlockDepth c (hashBlock (m_confirm wtx)) * (if isConflicted wtx then -1 else 1).

Definition GetDepthInMainChain (c : Chain) (wtx : CWalletTx) : Z :=
  if isUnconfirmed wtx || isAbandoned wtx then 0
  else GetDepthInMainChainINTERNAL c wtx.

(** ** The wallet *)

Inductive DbRecord :=
  | DbWriteTx (wtx : CWalletTx)
  | DbWriteOrderPosNext (pos : Z).

Record CWallet := {
  mapWallet : gmap uint256 CWalletTx;
  mapTxSpends : list (COutPoint.t * uint256);
  mapTxSproutNullifiers : list (uint256 * uint256);
  mapTxSaplingNullifiers : list (uint256 * uint256);
  wtxOrdered : list (Z * uint256);
  nOrderPosNext : Z;
  database : list DbRecord
}.

Definition with_mapWallet (m : gmap uint256 CWalletTx) (w : CWallet) : CWallet :=
  {| mapWallet := m; mapTxSpends := mapTxSpends w;
     mapTxSproutNullifiers := mapTxSproutNullifiers w;
     mapTxSaplingNullifiers := mapTxSaplingNullifiers w;
     wtxOrdered := wtxOrdered w; nOrderPosNext := nOrderPosNext w;
     database := database w |}.

Definition db_write (r : DbRecord) (w : CWallet) : CWallet :=
  {| mapWallet := mapWallet w; mapTxSpends := mapTxSpends w;
     mapTxSproutNullifiers := mapTxSproutNullifiers w;
     mapTxSaplingNullifiers := mapTxSaplingNullifiers w;
     wtxOrdered := wtxOrdered w; nOrderPosNext := nOrderPosNext w;
     database := database w ++ [r] |}.

(** [m.equal_range(k)]: the values stored under [k], in insertion order. *)
Definition equal_range {K V} `{EqDecision K} (k : K) (m : list (K * V)) : list V :=
  snd <$> filter (fun kv => fst kv = k) m.

(** [m.insert(std::make_pair(k, v))] on a multimap. *)
Definition multimap_insert {K V} (k : K) (v : V) (m : list (K * V)) : list (K * V) :=
  m ++ [(k, v)].

(** A traversal of a map by a function that may be undefined on a value:
    the whole traversal is undefined as soon as one value is. *)
Definition map_traverse {K A} `{Countable K} (f : A -> option A)
    (m : gmap K A) : option (gmap K A) :=
  if decide (map_Forall (fun _ a => is_Some (f a)) m) then Some (omap f m) else None.

(** ** Spend depth of a nullifier
    (CWallet::GetSproutSpendDepth, CWallet::GetSaplingSpendDepth) *)

Fixpoint spend_depth_in (c : Chain) (m : gmap uint256 CWalletTx)
    (range : list uint256) : Z :=
  match range with
  | [] => 0
  | wtxid :: rest =>
      match m !! wtxid with
      | Some wtx =>
          if 0 <=? GetDepthInMainChain c wtx then GetDepthInMainChain c wtx
          else spend_depth_in c m rest
      | None => spend_depth_in c m rest
      end
  end.

Definition GetSproutSpendDepth (c : Chain) (w : CWallet) (nf : uint256) : Z :=
  spend_depth_in c (mapWallet w) (equal_range nf (mapTxSproutNullifiers w)).

Definition GetSaplingSpendDepth (c : Chain) (w : CWallet) (nf : uint256) : Z :=
  spend_depth_in c (mapWallet w) (equal_range nf (mapTxSaplingNullifiers w)).

(** The usual arithmetic conversion of an [int] compared with an
    [unsigned int]. *)
Definition to_unsigned_int (z : Z) : Z := z mod 2 ^ 32.

(** ** The witness cache *)

(** What the wallet reads of a block: its height (CBlockIndex::nHeight)
    and the transactions ReadBlockFromDisk returns for it. *)
Record CBlockIndex := { nHeight : Z; vtx : list CTransaction }.

Definition sprout_commitments (block : list CTransaction) : list uint256 :=
  concat (map (fun ptx => concat (map commitments (vJoinSplit ptx))) block).

Definition sapling_commitments (block : list CTransaction) : list uint256 :=
  concat (map vShieldedOutput block).

Definition with_witnesses (ws : list IncrementalWitness) (h : Z) (nd : NoteData) : NoteData :=
  {| address := address nd; nullifier := nullifier nd; witnesses := ws;
     witnessHeight := h; witnessRootValidated := witnessRootValidated nd |}.

Section WitnessCache.

(** wallet.h declares [WITNESS_CACHE_SIZE], an [unsigned int] constant;
    the file is not part of the sources at hand, so the constant is a
    parameter. *)
Variable WITNESS_CACHE_SIZE : nat.

Definition within_cache (spendDepth : Z) : bool :=
  to_unsigned_int spendDepth <=? Z.of_nat WITNESS_CACHE_SIZE.

(** *** CWallet::DecrementNoteWitnesses *)

(** The body run for one note; [spendDepth] is GetSproutSpendDepth or
    GetSaplingSpendDepth on the wallet. [pop_front] is [tail]. *)
Definition DecrementNoteWitness (spendDepth : uint256 -> Z) (pindex_nHeight : Z)
    (nd : NoteData) : NoteData :=
  match nullifier nd with
  | Some nf =>
      if within_cache (spendDepth nf) then
        if witnessHeight nd <=? pindex_nHeight then
          if (1 <? length (witnesses nd))%nat then
            with_witnesses (tail (witnesses nd)) (pindex_nHeight - 1) nd
          else nd
        else nd
      else nd
  | None => nd
  end.

(** The loops over mapWallet and over both note maps.  The spend depth
    of a nullifier reads only confirmation data, which the loops leave
    alone, so it is taken on the wallet as it is on entry. *)
Definition DecrementNoteWitnesses (c : Chain) (pindex_nHeight : Z) (w : CWallet) : CWallet :=
  with_mapWallet
    ((fun wtx =>
        with_notes
          (DecrementNoteWitness (GetSproutSpendDepth c w) pindex_nHeight
             <$> mapSproutNoteData wtx)
          (DecrementNoteWitness (GetSaplingSpendDepth c w) pindex_nHeight
             <$> mapSaplingNoteData wtx)
          wtx) <$> mapWallet w) w.

(** *** CWallet::BuildWitnessCache, the body of its loop over blocks *)

(** [while (witnesses.size() > WITNESS_CACHE_SIZE) witnesses.pop_back();]
    the loop runs at most [length ws] times. *)
Fixpoint pop_back_while (fuel : nat) (ws : list IncrementalWitness) : list IncrementalWitness :=
  match fuel with
  | O => ws
  | S fuel' =>
      if (WITNESS_CACHE_SIZE <? length ws)%nat
      then pop_back_while fuel' (removelast ws)
      else ws
  end.

(** [witnesses.front().append(cm)] for each commitment of the block in
    turn; [front()] of an empty list is undefined. *)
Fixpoint append_front (cms : list uint256) (ws : list IncrementalWitness)
    : option (list IncrementalWitness) :=
  match cms with
  | [] => Some ws
  | cm :: cms' =>
      match ws with
      | [] => None
      | front :: rest => append_front cms' (append front cm :: rest)
      end
  end.

Definition IncrementNoteWitness (spendDepth : uint256 -> Z) (pblockindex_nHeight : Z)
    (cms : list uint256) (nd : NoteData) : option NoteData :=
  match nullifier nd with
  | Some nf =>
      if (witnessHeight nd =? pblockindex_nHeight - 1) && within_cache (spendDepth nf) then
        match witnesses nd with
        | [] => None (* witnesses.front() of an empty list *)
        | front :: _ =>
            let pushed := front :: witnesses nd in
            ws ← append_front cms (pop_back_while (length pushed) pushed);
            Some (with_witnesses ws pblockindex_nHeight nd)
        end
      else Some nd
  | None => Some nd
  end.

Definition IncrementTxWitnesses (c : Chain) (w : CWallet) (pblockindex : CBlockIndex)
    (wtx : CWalletTx) : option CWalletTx :=
  if bool_decide (mapSproutNoteData wtx = ∅) && bool_decide (mapSaplingNoteData wtx = ∅)
  then Some wtx
  else if 0 <? GetDepthInMainChain c wtx then
    sprout ← map_traverse
      (IncrementNoteWitness (GetSproutSpendDepth c w) (nHeight pblockindex)
         (sprout_commitments (vtx pblockindex)))
      (mapSproutNoteData wtx);
    sapling ← map_traverse
      (IncrementNoteWitness (GetSaplingSpendDepth c w) (nHeight pblockindex)
         (sapling_commitments (vtx pblockindex)))
      (mapSaplingNoteData wtx);
    Some (with_notes sprout sapling wtx)
  else Some wtx.

(** One turn of the [while (pblockindex)] loop of BuildWitnessCache: the
    commitments of block [pblockindex] are folded into every note that
    is one block behind.  (The call of VerifyAndSetInitialWitness that
    precedes the loop repairs witnesses and yields the start height; it
    is a separate operation.) *)
Definition BuildWitnessCache_block (c : Chain) (pblockindex : CBlockIndex)
    (w : CWallet) : option CWallet :=
  m ← map_traverse (IncrementTxWitnesses c w pblockindex) (mapWallet w);
  Some (with_mapWallet m w).

(** Sequences of cache operations. *)
Inductive CacheOp :=
  | Extend (c : Chain) (pblockindex : CBlockIndex)
  | Rewind (c : Chain) (pindex_nHeight : Z).

Definition cache_step (op : CacheOp) (w : CWallet) : option CWallet :=
  match op with
  | Extend c pblockindex => BuildWitnessCache_block c pblockindex w
  | Rewind c h => Some (DecrementNoteWitnesses c h w)
  end.

Fixpoint cache_run (ops : list CacheOp) (w : CWallet) : option CWallet :=
  match ops with
  | [] => Some w
  | op :: ops' => w' ← cache_step op w; cache_run ops' w'
  end.

(** The notes of a wallet that carry a nullifier all satisfy [P]. *)
Definition notes_with_nullifier (P : NoteData -> Prop) (w : CWallet) : Prop :=
  map_Forall (fun _ wtx =>
    map_Forall (fun _ nd => is_Some (nullifier nd) -> P nd) (mapSproutNoteData wtx) /\
    map_Forall (fun _ nd => is_Some (nullifier nd) -> P nd) (mapSaplingNoteData wtx))
    (mapWallet w).

Definition witness_bound : CWallet -> Prop :=
  notes_with_nullifier (fun nd => (length (witnesses nd) <= WITNESS_CACHE_SIZE)%nat).

Definition witness_present : CWallet -> Prop :=
  notes_with_nullifier (fun nd => witnesses nd <> []).

(** The notes a rewind to below height [h] touches. *)
Definition rewind_applies (spendDepth : uint256 -> Z) (h : Z) (nd : NoteData) : Prop :=
  exists nf, nullifier nd = Some nf /\
    to_unsigned_int (spendDepth nf) <= Z.of_nat WITNESS_CACHE_SIZE /\
    witnessHeight nd <= h /\ (1 < length (witnesses nd))%nat.

(** [nd'] is [nd] after the rewind: a touched note loses its front
    witness, the one pushed last, and is set one block below [h]; any
    other note is as before; a witness always remains. *)
Definition rewound (spendDepth : uint256 -> Z) (h : Z) (nd nd' : NoteData) : Prop :=
  (rewind_applies spendDepth h nd ->
     exists newest older,
       witnesses nd = newest :: older /\ witnesses nd' = older /\
       witnessHeight nd' = h - 1 /\ nullifier nd' = nullifier nd /\
       address nd' = address nd /\ witnessRootValidated nd' = witnessRootValidated nd) /\
  (~ rewind_applies spendDepth h nd -> nd' = nd) /\
  (witnesses nd <> [] -> witnesses nd' <> []).

End WitnessCache.

(** ** Spent queries
    (CWallet::IsSpent, CWallet::IsSproutSpent, CWallet::IsSaplingSpent) *)

(** The loop over an [equal_range] of a spend multimap, the same in the
    three functions. *)
Fixpoint spent_in (c : Chain) (m : gmap uint256 CWalletTx) (range : list uint256) : bool :=
  match range with
  | [] => false
  | wtxid :: rest =>
      match m !! wtxid with
      | Some mit =>
          let depth := GetDepthInMainChain c mit in
          if (0 <? depth) || ((depth =? 0) && negb (isAbandoned mit)) then true (* Spent *)
          else spent_in c m rest
      | None => spent_in c m rest
      end
  end.

Definition IsSpent (c : Chain) (w : CWallet) (hash : uint256) (n : N) : bool :=
  spent_in c (mapWallet w) (equal_range (COutPoint.mk hash n) (mapTxSpends w)).

Definition IsSproutSpent (c : Chain) (w : CWallet) (nullifier : uint256) : bool :=
  spent_in c (mapWallet w) (equal_range nullifier (mapTxSproutNullifiers w)).

Definition IsSaplingSpent (c : Chain) (w : CWallet) (nullifier : uint256) : bool :=
  spent_in c (mapWallet w) (equal_range nullifier (mapTxSaplingNullifiers w)).

(** ** The walk over the spend graph
    (the [while (!todo.empty())] loops of CWallet::MarkConflicted and
    CWallet::AbandonTransaction) *)

Inductive walk_result (A : Type) : Type :=
  | Finished (a : A)
  | AssertionFailed
  | OutOfFuel.
Arguments Finished {A} a.
Arguments AssertionFailed {A}.
Arguments OutOfFuel {A}.

(** [*todo.begin()]: the least element of a [std::set<uint256>]. *)
Definition set_begin (s : gset uint256) : option uint256 :=
  foldr (fun x acc => match acc with None => Some x | Some y => Some (N.min x y) end)
        None (elements s).

(** The scan [iter = mapTxSpends.lower_bound(COutPoint(now, 0))],
    [while (iter != end && iter->first.hash == now)]: outpoints are
    ordered by hash first, so it meets exactly the entries whose outpoint
    belongs to transaction [now]. *)
Definition spends_of (now : uint256) (m : list (COutPoint.t * uint256)) : list uint256 :=
  snd <$> filter (fun kv => COutPoint.hash (fst kv) = now) m.

(** [if (!done.count(iter->second)) todo.insert(iter->second);] *)
Definition enqueue_spends (spenders : list uint256) (todo done : gset uint256) : gset uint256 :=
  foldl (fun todo id => if decide (id ∈ done) then todo else {[id]} ∪ todo) todo spenders.

(** What a loop does with the transaction it took from [todo]. *)
Inductive visit :=
  | Mark (wtx' : CWalletTx)   (* rewrite it, write it to the database, follow its spends *)
  | Skip
  | AssertFail.

Fixpoint walk_spends (on_visit : CWalletTx -> visit) (fuel : nat)
    (todo done : gset uint256) (w : CWallet) : walk_result CWallet :=
  match set_begin todo with
  | None => Finished w
  | Some now =>
      match fuel with
      | O => OutOfFuel
      | S fuel' =>
          let todo := todo ∖ {[now]} in
          let done := done ∪ {[now]} in
          match mapWallet w !! now with
          | None => AssertionFailed (* assert(it != mapWallet.end()) *)
          | Some wtx =>
              match on_visit wtx with
              | Mark wtx' =>
                  let w' := db_write (DbWriteTx wtx')
                              (with_mapWallet (<[now := wtx']> (mapWallet w)) w) in
                  walk_spends on_visit fuel'
                    (enqueue_spends (spends_of now (mapTxSpends w)) todo done) done w'
              | Skip => walk_spends on_visit fuel' todo done w
              | AssertFail => AssertionFailed
              end
          end
      end
  end.

(** Every turn of the loop moves one id into [done] and never back, and
    the ids come from [hashTx] and the values of mapTxSpends. *)
Definition walk_fuel (w : CWallet) : nat := S (length (mapTxSpends w)).

(** Modelled from the spec: CWalletTx::setConflicted and
    CWalletTx::setAbandoned are declared in wallet.h, which is not among
    the sources; the status becomes Conflicted, respectively Abandoned,
    and an abandoned transaction carries no block. *)
Definition setConflicted (cf : Confirmation) : Confirmation :=
  {| status := CONFLICTED; hashBlock := hashBlock cf; nIndex := nIndex cf |}.
Definition setAbandoned (cf : Confirmation) : Confirmation :=
  {| status := ABANDONED; hashBlock := 0%N; nIndex := 0 |}.

(** *** CWallet::MarkConflicted *)

Definition MarkConflicted_visit (c : Chain) (hashBlock_ : uint256) (conflictconfirms : Z)
    (wtx : CWalletTx) : visit :=
  let currentconfirm := GetDepthInMainChain c wtx in
  if conflictconfirms <? currentconfirm then
    Mark (with_confirm
            (setConflicted {| status := status (m_confirm wtx);
                              hashBlock := hashBlock_; nIndex := 0 |}) wtx)
  else Skip.

Definition MarkConflicted (c : Chain) (hashBlock_ hashTx : uint256) (w : CWallet)
    : walk_result CWallet :=
  let conflictconfirms := - getBlockDepth c hashBlock_ in
  if 0 <=? conflictconfirms then Finished w
  else walk_spends (MarkConflicted_visit c hashBlock_ conflictconfirms)
         (walk_fuel w) {[hashTx]} ∅ w.

(** *** CWallet::AbandonTransaction *)

Definition AbandonTransaction_visit (c : Chain) (wtx : CWalletTx) : visit :=
  let currentconfirm := GetDepthInMainChain c wtx in
  if negb (currentconfirm <=? 0) then AssertFail (* assert(currentconfirm <= 0) *)
  else if (currentconfirm =? 0) && negb (isAbandoned wtx) then
    if InMempool wtx then AssertFail (* assert(!wtx.InMempool()) *)
    else Mark (with_confirm
                 (setAbandoned {| status := status (m_confirm wtx);
                                  hashBlock := hashBlock (m_confirm wtx); nIndex := 0 |}) wtx)
  else Skip.

Definition AbandonTransaction (c : Chain) (hashTx : uint256) (w : CWallet)
    : walk_result (bool * CWallet) :=
  match mapWallet w !! hashTx with
  | None => AssertionFailed (* assert(it != mapWallet.end()) *)
  | Some origtx =>
      if negb (GetDepthInMainChain c origtx =? 0) || InMempool origtx then Finished (false, w)
      else
        match walk_spends (AbandonTransaction_visit c) (walk_fuel w) {[hashTx]} ∅ w with
        | Finished w' => Finished (true, w')
        | AssertionFailed => AssertionFailed
        | OutOfFuel => OutOfFuel
        end
  end.

(** ** Calls that can throw or abort *)

(** [Thrown w]: a C++ exception (std::out_of_range from [at]) left the
    function with the wallet in state [w]; [Aborted]: an [assert] failed
    or the behaviour is undefined. *)
Inductive call_result (A : Type) : Type :=
  | Returned (a : A) (w : CWallet)
  | Thrown (w : CWallet)
  | Aborted.
Arguments Returned {A} a w.
Arguments Thrown {A} w.
Arguments Aborted {A}.

Definition call_bind {A B} (m : call_result A) (k : A -> CWallet -> call_result B)
    : call_result B :=
  match m with
  | Returned a w => k a w
  | Thrown w => Thrown w
  | Aborted => Aborted
  end.

Fixpoint for_each {A} (body : A -> CWallet -> call_result unit) (l : list A)
    (w : CWallet) : call_result unit :=
  match l with
  | [] => Returned tt w
  | x :: l' => call_bind (body x w) (fun _ w' => for_each body l' w')
  end.

Definition with_mapTxSpends (m : list (COutPoint.t * uint256)) (w : CWallet) : CWallet :=
  {| mapWallet := mapWallet w; mapTxSpends := m;
     mapTxSproutNullifiers := mapTxSproutNullifiers w;
     mapTxSaplingNullifiers := mapTxSaplingNullifiers w;
     wtxOrdered := wtxOrdered w; nOrderPosNext := nOrderPosNext w;
     database := database w |}.

Definition with_mapTxSproutNullifiers (m : list (uint256 * uint256)) (w : CWallet) : CWallet :=
  {| mapWallet := mapWallet w; mapTxSpends := mapTxSpends w;
     mapTxSproutNullifiers := m;
     mapTxSaplingNullifiers := mapTxSaplingNullifiers w;
     wtxOrdered := wtxOrdered w; nOrderPosNext := nOrderPosNext w;
     database := database w |}.

Definition with_mapTxSaplingNullifiers (m : list (uint256 * uint256)) (w : CWallet) : CWallet :=
  {| mapWallet := mapWallet w; mapTxSpends := mapTxSpends w;
     mapTxSproutNullifiers := mapTxSproutNullifiers w;
     mapTxSaplingNullifiers := m;
     wtxOrdered := wtxOrdered w; nOrderPosNext := nOrderPosNext w;
     database := database w |}.

Definition with_wtxOrdered (m : list (Z * uint256)) (w : CWallet) : CWallet :=
  {| mapWallet := mapWallet w; mapTxSpends := mapTxSpends w;
     mapTxSproutNullifiers := mapTxSproutNullifiers w;
     mapTxSaplingNullifiers := mapTxSaplingNullifiers w;
     wtxOrdered := m; nOrderPosNext := nOrderPosNext w;
     database := database w |}.

Definition with_nOrderPosNext (pos : Z) (w : CWallet) : CWallet :=
  {| mapWallet := mapWallet w; mapTxSpends := mapTxSpends w;
     mapTxSproutNullifiers := mapTxSproutNullifiers w;
     mapTxSaplingNullifiers := mapTxSaplingNullifiers w;
     wtxOrdered := wtxOrdered w; nOrderPosNext := pos;
     database := database w |}.

(** ** CWallet::IncOrderPosNext *)

Definition INT64_MAX : Z := 2 ^ 63 - 1.
Definition INT_MAX : Z := 2 ^ 31 - 1.

(** [int64_t nRet = nOrderPosNext++;] incrementing the largest [int64_t]
    is a signed overflow, undefined in C++.  The counter is written to the
    database; the result of the write is ignored. *)
Definition IncOrderPosNext (w : CWallet) : call_result Z :=
  let nRet := nOrderPosNext w in
  if nRet <? INT64_MAX then
    Returned nRet (db_write (DbWriteOrderPosNext (nRet + 1)) (with_nOrderPosNext (nRet + 1) w))
  else Aborted.

(** ** CWallet::SyncMetaData and CWalletTx::IsEquivalentTo *)

(** The narrowing of an [int64_t] stored into an [int]. *)
Definition to_int (z : Z) : Z := (z + 2 ^ 31) mod 2 ^ 32 - 2 ^ 31.

(** Both transactions are rebuilt with empty scriptSigs and compared by
    CTransaction's [operator==], that is by the hashes of the rebuilt
    transactions; the hash is taken to identify the serialised content. *)
Definition clear_scriptSigs (t : CTransaction) : CTransaction :=
  {| txid := 0%N;
     vin := (fun txin => {| prevout := prevout txin; scriptSig := [] |}) <$> vin t;
     vout := vout t; vJoinSplit := vJoinSplit t;
     vShieldedSpend := vShieldedSpend t; vShieldedOutput := vShieldedOutput t;
     nLockTime := nLockTime t |}.

Definition IsEquivalentTo (this _tx : CWalletTx) : bool :=
  bool_decide (clear_scriptSigs (tx this) = clear_scriptSigs (tx _tx)).

(** First loop: the transaction of least [nOrderPos] in the range, held
    as the key of its mapWallet entry; [None] when [mapWallet.at]
    throws. *)
Fixpoint find_copyFrom (m : gmap uint256 CWalletTx) (range : list uint256)
    (nMinOrderPos : Z) (copyFrom : option uint256) : option (option uint256) :=
  match range with
  | [] => Some copyFrom
  | wtxid :: rest =>
      match m !! wtxid with
      | None => None
      | Some wtx =>
          if nOrderPos wtx <? nMinOrderPos
          then find_copyFrom m rest (to_int (nOrderPos wtx)) (Some wtxid)
          else find_copyFrom m rest nMinOrderPos copyFrom
      end
  end.

Definition copy_metadata (copyFrom copyTo : CWalletTx) : CWalletTx :=
  {| tx := tx copyTo; m_confirm := m_confirm copyTo;
     mapSproutNoteData := mapSproutNoteData copyTo;
     mapSaplingNoteData := mapSaplingNoteData copyTo;
     mapValue := mapValue copyFrom; vOrderForm := vOrderForm copyFrom;
     fFromMe := fFromMe copyFrom; fInMempool := fInMempool copyTo;
     nTimeReceived := nTimeReceived copyTo; nTimeSmart := nTimeSmart copyFrom;
     nOrderPos := nOrderPos copyTo |}.

(** Second loop.  Two pointers into mapWallet are equal exactly when the
    keys of their entries are. *)
Fixpoint copy_to_rest (from_id : uint256) (copyFrom : CWalletTx) (range : list uint256)
    (w : CWallet) : call_result unit :=
  match range with
  | [] => Returned tt w
  | hash :: rest =>
      match mapWallet w !! hash with
      | None => Thrown w
      | Some copyTo =>
          if decide (from_id = hash) then copy_to_rest from_id copyFrom rest w
          else if negb (IsEquivalentTo copyFrom copyTo) then copy_to_rest from_id copyFrom rest w
          else copy_to_rest from_id copyFrom rest
                 (with_mapWallet (<[hash := copy_metadata copyFrom copyTo]> (mapWallet w)) w)
      end
  end.

Definition SyncMetaData (range : list uint256) (w : CWallet) : call_result unit :=
  match find_copyFrom (mapWallet w) range INT_MAX None with
  | None => Thrown w
  | Some None => Returned tt w
  | Some (Some from_id) =>
      match mapWallet w !! from_id with
      | None => Thrown w
      | Some copyFrom => copy_to_rest from_id copyFrom range w
      end
  end.

(** ** CWallet::AddToTransparentSpends, AddToSproutSpends, AddToSaplingSpends,
       AddToSpends *)

Definition AddToTransparentSpends (wtxid : uint256) (outpoint : COutPoint.t)
    (w : CWallet) : call_result unit :=
  let w1 := with_mapTxSpends (multimap_insert outpoint wtxid (mapTxSpends w)) w in
  SyncMetaData (equal_range outpoint (mapTxSpends w1)) w1.

Definition AddToSproutSpends (wtxid : uint256) (nullifier : uint256)
    (w : CWallet) : call_result unit :=
  let w1 := with_mapTxSproutNullifiers
              (multimap_insert nullifier wtxid (mapTxSproutNullifiers w)) w in
  SyncMetaData (equal_range nullifier (mapTxSproutNullifiers w1)) w1.

Definition AddToSaplingSpends (wtxid : uint256) (nullifier : uint256)
    (w : CWallet) : call_result unit :=
  let w1 := with_mapTxSaplingNullifiers
              (multimap_insert nullifier wtxid (mapTxSaplingNullifiers w)) w in
  SyncMetaData (equal_range nullifier (mapTxSaplingNullifiers w1)) w1.

Section Ledger.

(** Declared outside wallet.cpp (primitives/transaction.h and wallet.h),
    hence parameters: CTransaction::IsCoinBase, CTransaction::HasWitness
    and the [operator==] of SproutNoteData and of SaplingNoteData. *)
Variable IsCoinBase : CTransaction -> bool.
Variable HasWitness : CTransaction -> bool.
Variable SproutNoteData_eq : NoteData -> NoteData -> bool.
Variable SaplingNoteData_eq : NoteData -> NoteData -> bool.

Definition AddToSpends (wtxid : uint256) (w : CWallet) : call_result unit :=
  match mapWallet w !! wtxid with
  | None => Aborted (* assert(it != mapWallet.end()) *)
  | Some thisTx =>
      if IsCoinBase (tx thisTx) then Returned tt w (* Coinbases don't spend anything! *)
      else
        call_bind (for_each (AddToTransparentSpends wtxid) (prevout <$> vin (tx thisTx)) w)
          (fun _ w1 =>
        call_bind (for_each (AddToSproutSpends wtxid)
                     (concat (nullifiers <$> vJoinSplit (tx thisTx))) w1)
          (fun _ w2 =>
        for_each (AddToSaplingSpends wtxid) (vShieldedSpend (tx thisTx)) w2))
  end.

(** ** CWallet::ComputeTimeSmart *)

(** The walk of wtxOrdered from its last element; [self] is the key of
    the entry [&wtx] points to.  The result is [(latestEntry,
    latestNow)]; [None] when an element of wtxOrdered points to no
    entry of mapWallet. *)
Fixpoint latest_entry (m : gmap uint256 CWalletTx) (self : uint256)
    (txOrdered_rev : list (Z * uint256)) (latestNow latestTolerated : Z)
    : option (Z * Z) :=
  match txOrdered_rev with
  | [] => Some (0, latestNow)
  | (_, id) :: rest =>
      if decide (id = self) then latest_entry m self rest latestNow latestTolerated
      else
        match m !! id with
        | None => None
        | Some pwtx =>
            let nSmartTime :=
              if nTimeSmart pwtx =? 0 then nTimeReceived pwtx else nTimeSmart pwtx in
            if nSmartTime <=? latestTolerated
            then Some (nSmartTime, if latestNow <? nSmartTime then nSmartTime else latestNow)
            else latest_entry m self rest latestNow latestTolerated
        end
  end.

Definition ComputeTimeSmart (c : Chain) (w : CWallet) (self : uint256) (wtx : CWalletTx)
    : option Z :=
  if negb (isUnconfirmed wtx) && negb (isAbandoned wtx) then
    match findBlock c (hashBlock (m_confirm wtx)) with
    | Some blocktime =>
        let latestNow := nTimeReceived wtx in
        '(latestEntry, latestNow') ←
          latest_entry (mapWallet w) self (rev (wtxOrdered w)) latestNow (latestNow + 300);
        Some (to_unsigned_int (Z.max latestEntry (Z.min blocktime latestNow')))
    | None => Some (nTimeReceived wtx)
    end
  else Some (nTimeReceived wtx).

(** [wtxOrdered.insert(std::make_pair(nOrderPos, &wtx))]: the multimap is
    walked in key order here, so the element goes after the last element
    whose key is not greater. *)
Fixpoint ordered_insert (pos : Z) (id : uint256) (m : list (Z * uint256)) : list (Z * uint256) :=
  match m with
  | [] => [(pos, id)]
  | (pos', id') :: rest =>
      if pos <? pos' then (pos, id) :: m else (pos', id') :: ordered_insert pos id rest
  end.

(** ** CWallet::UpdatedNoteData *)

(** [a == b] on two note-data std::maps: same keys, and equal values
    under the value type's [operator==]. *)
Definition note_maps_equal {K} `{Countable K} (eqv : NoteData -> NoteData -> bool)
    (a b : gmap K NoteData) : bool :=
  bool_decide (dom a = dom b) &&
  bool_decide (map_Forall (fun k x => from_option (eqv x) false (b !! k) = true) a).

Definition keep_witnesses (stored incoming : NoteData) : NoteData :=
  {| address := address incoming; nullifier := nullifier incoming;
     witnesses := if (0 <? length (witnesses stored))%nat
                  then witnesses stored else witnesses incoming;
     witnessHeight := witnessHeight stored;
     witnessRootValidated := witnessRootValidated incoming |}.

(** The loop over the stored note data that patches [tmp], the copy of
    the incoming map.  A pass writes [tmp] at its own key only, and
    [tmp.at] throws std::out_of_range at the first stored key that the
    incoming map lacks, before anything is assigned to [wtx]: the loop
    either throws or yields the key-wise patch. *)
Definition patch_note_data {K} `{Countable K} (tmp stored : gmap K NoteData)
    : option (gmap K NoteData) :=
  if decide (dom stored ⊆ dom tmp) then
    Some (merge (fun i s =>
                   match i, s with
                   | Some a, Some b => Some (keep_witnesses b a)
                   | Some a, None => Some a
                   | None, _ => None
                   end) tmp stored)
  else None.

Inductive NoteUpdate :=
  | Merged (changed : bool) (wtx : CWalletTx)
  | OutOfRange (wtx : CWalletTx).

Definition UpdatedNoteData (wtxIn wtx : CWalletTx) : NoteUpdate :=
  let unchangedSproutFlag :=
    bool_decide (mapSproutNoteData wtxIn = ∅) ||
    note_maps_equal SproutNoteData_eq (mapSproutNoteData wtxIn) (mapSproutNoteData wtx) in
  let sprout :=
    if unchangedSproutFlag then Some (mapSproutNoteData wtx)
    else patch_note_data (mapSproutNoteData wtxIn) (mapSproutNoteData wtx) in
  match sprout with
  | None => OutOfRange wtx
  | Some sprout =>
      let wtx1 := with_notes sprout (mapSaplingNoteData wtx) wtx in
      let unchangedSaplingFlag :=
        bool_decide (mapSaplingNoteData wtxIn = ∅) ||
        note_maps_equal SaplingNoteData_eq (mapSaplingNoteData wtxIn) (mapSaplingNoteData wtx) in
      let sapling :=
        if unchangedSaplingFlag then Some (mapSaplingNoteData wtx)
        else patch_note_data (mapSaplingNoteData wtxIn) (mapSaplingNoteData wtx) in
      match sapling with
      | None => OutOfRange wtx1
      | Some sapling =>
          Merged (negb unchangedSproutFlag || negb unchangedSaplingFlag)
                 (with_notes sprout sapling wtx)
      end
  end.

(** ** CWallet::AddToWallet *)

Record AddResult := { ret : bool; fInsertedNew : bool; fUpdated : bool }.

Definition store (hash : uint256) (wtx : CWalletTx) (w : CWallet) : CWallet :=
  with_mapWallet (<[hash := wtx]> (mapWallet w)) w.

Definition with_receipt (received smart pos : Z) (wtx : CWalletTx) : CWalletTx :=
  {| tx := tx wtx; m_confirm := m_confirm wtx;
     mapSproutNoteData := mapSproutNoteData wtx;
     mapSaplingNoteData := mapSaplingNoteData wtx;
     mapValue := mapValue wtx; vOrderForm := vOrderForm wtx;
     fFromMe := fFromMe wtx; fInMempool := fInMempool wtx;
     nTimeReceived := received; nTimeSmart := smart; nOrderPos := pos |}.

Definition with_fFromMe (b : bool) (wtx : CWalletTx) : CWalletTx :=
  {| tx := tx wtx; m_confirm := m_confirm wtx;
     mapSproutNoteData := mapSproutNoteData wtx;
     mapSaplingNoteData := mapSaplingNoteData wtx;
     mapValue := mapValue wtx; vOrderForm := vOrderForm wtx;
     fFromMe := b; fInMempool := fInMempool wtx;
     nTimeReceived := nTimeReceived wtx; nTimeSmart := nTimeSmart wtx;
     nOrderPos := nOrderPos wtx |}.

Definition SetTx (t : CTransaction) (wtx : CWalletTx) : CWalletTx :=
  {| tx := t; m_confirm := m_confirm wtx;
     mapSproutNoteData := mapSproutNoteData wtx;
     mapSaplingNoteData := mapSaplingNoteData wtx;
     mapValue := mapValue wtx; vOrderForm := vOrderForm wtx;
     fFromMe := fFromMe wtx; fInMempool := fInMempool wtx;
     nTimeReceived := nTimeReceived wtx; nTimeSmart := nTimeSmart wtx;
     nOrderPos := nOrderPos wtx |}.

(** The end of AddToWallet: [if (fInsertedNew || fUpdated) if
    (!batch.WriteTx(wtx)) return false;] and [return true].  [wtx] is a
    reference to the mapWallet entry; [WriteTx_ok] is the answer of the
    database. *)
Definition AddToWallet_write (hash : uint256) (fInsertedNew_ fUpdated_ WriteTx_ok : bool)
    (w : CWallet) : call_result AddResult :=
  if fInsertedNew_ || fUpdated_ then
    match mapWallet w !! hash with
    | None => Aborted
    | Some wtx =>
        Returned {| ret := WriteTx_ok; fInsertedNew := fInsertedNew_; fUpdated := fUpdated_ |}
                 (db_write (DbWriteTx wtx) w)
    end
  else Returned {| ret := true; fInsertedNew := fInsertedNew_; fUpdated := fUpdated_ |} w.

(** The branch [if (fInsertedNew)]. [wtxIn] has just been copied into
    mapWallet under [hash]. *)
Definition AddToWallet_new (c : Chain) (WriteTx_ok : bool) (hash : uint256)
    (wtxIn : CWalletTx) (w : CWallet) : call_result AddResult :=
  let received := to_unsigned_int (getAdjustedTime c) in
  let w0 := store hash (with_receipt received (nTimeSmart wtxIn) (nOrderPos wtxIn) wtxIn) w in
  call_bind (IncOrderPosNext w0) (fun pos w1 =>
    let wtx1 := with_receipt received (nTimeSmart wtxIn) pos wtxIn in
    let w2 := with_wtxOrdered (ordered_insert pos hash (wtxOrdered w1)) (store hash wtx1 w1) in
    match ComputeTimeSmart c w2 hash wtx1 with
    | None => Aborted
    | Some smart =>
        let w3 := store hash (with_receipt received smart pos wtxIn) w2 in
        call_bind (AddToSpends hash w3) (fun _ w4 =>
          AddToWallet_write hash true false WriteTx_ok w4)
    end).

(** The branch [if (!fInsertedNew)]; [wtx] is the entry found. *)
Definition AddToWallet_update (WriteTx_ok : bool) (hash : uint256)
    (wtxIn wtx : CWalletTx) (w : CWallet) : call_result AddResult :=
  let confirm_step :=
    if bool_decide (status (m_confirm wtxIn) <> status (m_confirm wtx))
    then Some (with_confirm (m_confirm wtxIn) wtx, true)
    else if bool_decide (nIndex (m_confirm wtx) = nIndex (m_confirm wtxIn)) &&
            bool_decide (hashBlock (m_confirm wtx) = hashBlock (m_confirm wtxIn))
         then Some (wtx, false)
         else None (* one of the two asserts fails *) in
  match confirm_step with
  | None => Aborted
  | Some (wtx1, upd1) =>
      match UpdatedNoteData wtxIn wtx1 with
      | OutOfRange wtx2 => Thrown (store hash wtx2 w)
      | Merged changed wtx2 =>
          let upd2 := upd1 || changed in
          let '(wtx3, upd3) :=
            if fFromMe wtxIn && negb (eqb (fFromMe wtxIn) (fFromMe wtx2))
            then (with_fFromMe (fFromMe wtxIn) wtx2, true) else (wtx2, upd2) in
          let '(wtx4, upd4) :=
            if HasWitness (tx wtxIn) && negb (HasWitness (tx wtx3))
            then (SetTx (tx wtxIn) wtx3, true) else (wtx3, upd3) in
          AddToWallet_write hash false upd4 WriteTx_ok (store hash wtx4 w)
      end
  end.

(** [mapWallet.insert] stores a copy of [wtxIn] unless the hash is known
    already.  (The marking of reused destinations under
    WALLET_FLAG_AVOID_REUSE only touches the address book.) *)
Definition AddToWallet (c : Chain) (WriteTx_ok : bool) (wtxIn : CWalletTx) (w : CWallet)
    : call_result AddResult :=
  let hash := GetHash wtxIn in
  match mapWallet w !! hash with
  | None => AddToWallet_new c WriteTx_ok hash wtxIn w
  | Some wtx => AddToWallet_update WriteTx_ok hash wtxIn wtx w
  end.

End Ledger.

(** ** CWallet::CreateTransaction, the change output *)

Inductive ChangeResult :=
  | ChangeFailed (strFailReason : string)
  | ChangeDone (vout_ : list CTxOut) (nChangePosInOut nFeeRet : Z).

(** [v.insert(v.begin() + pos, x)] for [0 <= pos <= v.size()]. *)
Definition vector_insert {A} (pos : Z) (x : A) (v : list A) : list A :=
  take (Z.to_nat pos) v ++ x :: drop (Z.to_nat pos) v.

Section CreateTransaction.

(** policy/policy.h and random.h are not among the sources: [IsDust
    txout rate] and [GetRandInt nMax] are parameters; a fee rate is an
    amount per 1000 bytes. *)
Variable IsDust : CTxOut -> Z -> bool.
Variable GetRandInt : Z -> Z.

(** The statements from [const CAmount nChange = nValueIn -
    nValueToSelect;] to the end of [if (nChange > 0) ... else ...], as a
    function of the variables they read: the outputs assembled so far,
    the requested change position and the fee. *)
Definition CreateTransaction_change (discard_rate : Z) (scriptChange : list N)
    (nValueIn nValueToSelect : Z) (bnb_used : bool)
    (vout_ : list CTxOut) (nChangePosInOut nFeeRet : Z) : ChangeResult :=
  let nChange := nValueIn - nValueToSelect in
  if 0 <? nChange then
    let newTxOut := {| nValue := nChange; scriptPubKey := scriptChange |} in
    if IsDust newTxOut discard_rate || bnb_used then
      ChangeDone vout_ (-1) (nFeeRet + nChange)
    else if nChangePosInOut =? -1 then
      let pos := GetRandInt (Z.of_nat (length vout_) + 1) in
      ChangeDone (vector_insert pos newTxOut vout_) pos nFeeRet
    else if Z.of_nat (length vout_) <? to_unsigned_int nChangePosInOut then
      ChangeFailed "Change index out of range"
    else
      ChangeDone (vector_insert nChangePosInOut newTxOut vout_) nChangePosInOut nFeeRet
  else ChangeDone vout_ (-1) nFeeRet.

(** [bnb_used] as the loop of CreateTransaction sets it before the
    change is computed: what SelectCoins reports when inputs are picked
    in this pass, [false] when the inputs of an earlier pass are kept. *)
Definition pass_bnb_used (pick_new_inputs select_bnb_used : bool) : bool :=
  if pick_new_inputs then select_bnb_used else false.

End CreateTransaction.

(** * Further functions of wallet.cpp *)

(** ** CWallet::GetConflicts and CWalletTx::GetConflicts *)

(** One turn of the loops over the inputs of the transaction: nothing
    when at most one transaction is registered for the key
    ([count(k) <= 1]), else all of [equal_range(k)]. *)
Definition conflicts_under {K} `{EqDecision K} (k : K) (m : list (K * uint256))
    : list uint256 :=
  if (length (equal_range k m) <=? 1)%nat then [] else equal_range k m.

Definition GetConflicts (w : CWallet) (txid : uint256) : gset uint256 :=
  match mapWallet w !! txid with
  | None => ∅
  | Some wtx =>
      list_to_set
        (concat ((fun txin => conflicts_under (prevout txin) (mapTxSpends w))
                   <$> vin (tx wtx)))
      ∪ list_to_set
          (concat ((fun nf => conflicts_under nf (mapTxSproutNullifiers w))
                     <$> concat (nullifiers <$> vJoinSplit (tx wtx))))
      ∪ list_to_set
          (concat ((fun nf => conflicts_under nf (mapTxSaplingNullifiers w))
                     <$> vShieldedSpend (tx wtx)))
  end.

(** [pwallet] is the wallet the transaction is bound to, if any. *)
Definition CWalletTx_GetConflicts (pwallet : option CWallet) (wtx : CWalletTx)
    : gset uint256 :=
  match pwallet with
  | None => ∅
  | Some w => GetConflicts w (GetHash wtx) ∖ {[GetHash wtx]}
  end.

(** ** CWallet::HasWalletSpend *)

(** [mapTxSpends.lower_bound(COutPoint(txid, 0))] is the first entry of
    an outpoint of [txid], if there is one (outpoints are ordered by
    hash first): the test holds exactly when [spends_of] is not empty. *)
Definition HasWalletSpend (w : CWallet) (txid : uint256) : bool :=
  bool_decide (spends_of txid (mapTxSpends w) <> []).

(** ** CWallet::TransactionCanBeAbandoned, CWallet::TransactionRemovedFromMempool,
       CWalletTx::SubmitMemoryPoolAndRelay *)

Definition TransactionCanBeAbandoned (c : Chain) (w : CWallet) (hashTx : uint256) : bool :=
  match mapWallet w !! hashTx with
  | None => false
  | Some wtx =>
      negb (isAbandoned wtx) && (GetDepthInMainChain c wtx =? 0) && negb (InMempool wtx)
  end.

Definition with_fInMempool (b : bool) (wtx : CWalletTx) : CWalletTx :=
  {| tx := tx wtx; m_confirm := m_confirm wtx;
     mapSproutNoteData := mapSproutNoteData wtx;
     mapSaplingNoteData := mapSaplingNoteData wtx;
     mapValue := mapValue wtx; vOrderForm := vOrderForm wtx;
     fFromMe := fFromMe wtx; fInMempool := b;
     nTimeReceived := nTimeReceived wtx; nTimeSmart := nTimeSmart wtx;
     nOrderPos := nOrderPos wtx |}.

Definition TransactionRemovedFromMempool (hash : uint256) (w : CWallet) : CWallet :=
  match mapWallet w !! hash with
  | Some wtx => with_mapWallet (<[hash := with_fInMempool false wtx]> (mapWallet w)) w
  | None => w
  end.

(** [fBroadcastTransactions] is the wallet's switch, [broadcast_ok] the
    answer of [chain().broadcastTransaction]; the result is the returned
    flag and the transaction with [fInMempool |= ret]. *)
Definition SubmitMemoryPoolAndRelay (IsCoinBase : CTransaction -> bool) (c : Chain)
    (fBroadcastTransactions broadcast_ok : bool) (wtx : CWalletTx) : bool * CWalletTx :=
  if negb fBroadcastTransactions then (false, wtx)
  else if isAbandoned wtx then (false, wtx)
  else if IsCoinBase (tx wtx) then (false, wtx)
  else if negb (GetDepthInMainChain c wtx =? 0) then (false, wtx)
  else (broadcast_ok, with_fInMempool (fInMempool wtx || broadcast_ok) wtx).

(** ** CWalletTx::GetBlocksToMaturity and CWalletTx::IsImmatureCoinBase *)

Section Maturity.

(** consensus/consensus.h declares [COINBASE_MATURITY]; it is a
    parameter, like CTransaction::IsCoinBase. *)
Variable COINBASE_MATURITY : Z.
Variable IsCoinBase : CTransaction -> bool.

(** [None]: [assert(chain_depth >= 0)] fails. *)
Definition GetBlocksToMaturity (c : Chain) (wtx : CWalletTx) : option Z :=
  if negb (IsCoinBase (tx wtx)) then Some 0
  else
    let chain_depth := GetDepthInMainChain c wtx in
    if 0 <=? chain_depth then Some (Z.max 0 ((COINBASE_MATURITY + 1) - chain_depth))
    else None.

Definition IsImmatureCoinBase (c : Chain) (wtx : CWalletTx) : option bool :=
  n ← GetBlocksToMaturity c wtx; Some (0 <? n).

End Maturity.

(** ** CWallet::ClearNoteWitnessCache *)

(** (The counter nWitnessCacheSize, set to 0 here, is only written to the
    database on flush and is not part of the modelled state.) *)
Definition ClearNoteWitnessCache (w : CWallet) : CWallet :=
  with_mapWallet
    ((fun wtx =>
        with_notes (with_witnesses [] (-1) <$> mapSproutNoteData wtx)
                   (with_witnesses [] (-1) <$> mapSaplingNoteData wtx) wtx)
       <$> mapWallet w) w.

(** ** CWallet::GetSproutNoteWitnesses and CWallet::GetSaplingNoteWitnesses *)

Section NoteWitnesses.

(** [IncrementalWitness::root()], of the commitment-tree library. *)
Variable root : IncrementalWitness -> uint256.

(** The loop over [notes]; [find note] is the note data of [note] when the
    wallet holds its transaction and the transaction the note; [old] is
    the rest of the vector [witnesses] after its [resize], whose entries
    stay where no witness is found; [rt] is the anchor met so far.
    [None]: the assertion that all witnesses have the same root fails. *)
Fixpoint note_witnesses {K} (find : K -> option NoteData) (notes : list K)
    (old : list (option IncrementalWitness)) (rt : option uint256)
    : option (list (option IncrementalWitness) * option uint256) :=
  match notes with
  | [] => Some ([], rt)
  | note :: rest =>
      match find note ≫= (fun nd => head (witnesses nd)) with
      | Some front =>
          match rt with
          | None =>
              '(ws, rt') ← note_witnesses find rest (tail old) (Some (root front));
              Some (Some front :: ws, rt')
          | Some r =>
              if decide (r = root front)
              then '(ws, rt') ← note_witnesses find rest (tail old) rt;
                   Some (Some front :: ws, rt')
              else None
          end
      | None =>
          '(ws, rt') ← note_witnesses find rest (tail old) rt;
          Some (default None (head old) :: ws, rt')
      end
  end.

Definition find_sprout_note (w : CWallet) (note : SproutOutPoint) : option NoteData :=
  wtx ← mapWallet w !! note.1.1; mapSproutNoteData wtx !! note.

Definition find_sapling_note (w : CWallet) (note : SaplingOutPoint) : option NoteData :=
  wtx ← mapWallet w !! note.1; mapSaplingNoteData wtx !! note.

(** [witnesses_] and [final_anchor] are the two reference arguments as
    the caller passes them; the result is their value on return
    ([witnesses.resize(notes.size())] keeps what the vector held, and
    [final_anchor] is left as it was when no witness is found). *)
Definition GetSproutNoteWitnesses (w : CWallet) (notes : list SproutOutPoint)
    (witnesses_ : list (option IncrementalWitness)) (final_anchor : uint256)
    : option (list (option IncrementalWitness) * uint256) :=
  '(ws, rt) ← note_witnesses (find_sprout_note w) notes
                (resize (length notes) None witnesses_) None;
  Some (ws, default final_anchor rt).

Definition GetSaplingNoteWitnesses (w : CWallet) (notes : list SaplingOutPoint)
    (witnesses_ : list (option IncrementalWitness)) (final_anchor : uint256)
    : option (list (option IncrementalWitness) * uint256) :=
  '(ws, rt) ← note_witnesses (find_sapling_note w) notes
                (resize (length notes) None witnesses_) None;
  Some (ws, default final_anchor rt).

End NoteWitnesses.

(** ** CWallet::CreateTransaction: the recipients and the fee *)

Module CRecipient.
Record t := mk { scriptPubKey : list N; nAmount : Z; fSubtractFeeFromAmount : bool }.
End CRecipient.

(** An [int64_t] after an addition that left its range, as the test
    [nValue < 0] expects it. *)
Definition to_int64 (z : Z) : Z := (z + 2 ^ 63) mod 2 ^ 64 - 2 ^ 63.

(** The first loop of CreateTransaction: the total [nValue] and the
    number [nSubtractFeeFromAmount] (an [unsigned int]) of recipients
    that pay the fee. *)
Fixpoint sum_recipients (vecSend : list CRecipient.t) (nValue nSubtractFeeFromAmount : Z)
    : string + (Z * Z) :=
  match vecSend with
  | [] => inr (nValue, nSubtractFeeFromAmount)
  | recipient :: rest =>
      if (nValue <? 0) || (CRecipient.nAmount recipient <? 0)
      then inl "Transaction amounts must not be negative"
      else sum_recipients rest (to_int64 (nValue + CRecipient.nAmount recipient))
             (if CRecipient.fSubtractFeeFromAmount recipient
              then to_unsigned_int (nSubtractFeeFromAmount + 1)
              else nSubtractFeeFromAmount)
  end.

Definition CreateTransaction_amounts (vecSend : list CRecipient.t) : string + (Z * Z) :=
  match sum_recipients vecSend 0 0 with
  | inl reason => inl reason
  | inr totals =>
      match vecSend with
      | [] => inl "Transaction must have at least one recipient"
      | _ => inr totals
      end
  end.

(** [CAmount nValueToSelect = nValue; if (nSubtractFeeFromAmount == 0)
    nValueToSelect += nFeeRet;] at the head of a pass. *)
Definition CreateTransaction_nValueToSelect (nValue nSubtractFeeFromAmount nFeeRet : Z) : Z :=
  if nSubtractFeeFromAmount =? 0 then nValue + nFeeRet else nValue.

Inductive OutputsResult :=
  | OutputsFailed (strFailReason : string)
  | OutputsAborted
  | OutputsDone (vout_ : list CTxOut) (tx_noinputs_size : Z).

Inductive FeeStep :=
  | FeeDone (vout_ : list CTxOut) (nFeeRet : Z)                (* break *)
  | FeeRetry (nFeeRet : Z) (pick_new_inputs use_bnb : bool)    (* continue *)
  | FeeFailed (strFailReason : string)
  | FeeUndefined.

(** [change_position->nValue += delta] for [change_position =
    txNew.vout.begin() + nChangePosInOut]. *)
Definition add_to_output (pos delta : Z) (vout_ : list CTxOut) : option (list CTxOut) :=
  if pos <? 0 then None
  else
    txout ← vout_ !! Z.to_nat pos;
    Some (<[Z.to_nat pos := {| nValue := nValue txout + delta;
                               scriptPubKey := scriptPubKey txout |}]> vout_).

Section CreateTransactionFee.

(** IsDust (policy/policy.h), GetSerializeSize (serialize.h) and
    MIN_FINAL_CHANGE (wallet/coinselection.h) are parameters. *)
Variable IsDust : CTxOut -> Z -> bool.
Variable GetSerializeSize : CTxOut -> Z.
Variable MIN_FINAL_CHANGE : Z.

(** The loop "vouts to the payees" of one pass: the outputs pushed to
    [txNew.vout] and [coin_selection_params.tx_noinputs_size].  The
    division of a CAmount by an [unsigned int] is the signed division of
    [int64_t]. *)
Fixpoint recipient_outputs (relayDustFee nFeeRet nSubtractFeeFromAmount : Z)
    (vecSend : list CRecipient.t) (fFirst : bool) (tx_noinputs_size : Z)
    (vout_ : list CTxOut) : OutputsResult :=
  match vecSend with
  | [] => OutputsDone vout_ tx_noinputs_size
  | recipient :: rest =>
      if CRecipient.fSubtractFeeFromAmount recipient && (nSubtractFeeFromAmount =? 0)
      then OutputsAborted (* assert(nSubtractFeeFromAmount != 0) *)
      else
        let amount :=
          if CRecipient.fSubtractFeeFromAmount recipient then
            CRecipient.nAmount recipient - Z.quot nFeeRet nSubtractFeeFromAmount
              - (if fFirst then Z.rem nFeeRet nSubtractFeeFromAmount else 0)
          else CRecipient.nAmount recipient in
        let fFirst' :=
          if CRecipient.fSubtractFeeFromAmount recipient then false else fFirst in
        let txout := {| nValue := amount; scriptPubKey := CRecipient.scriptPubKey recipient |} in
        let size := tx_noinputs_size + GetSerializeSize txout in
        if IsDust txout relayDustFee then
          OutputsFailed
            (if CRecipient.fSubtractFeeFromAmount recipient && (0 <? nFeeRet) then
               if nValue txout <? 0
               then "The transaction amount is too small to pay the fee"
               else "The transaction amount is too small to send after the fee has been deducted"
             else "Transaction amount too small")
        else recipient_outputs relayDustFee nFeeRet nSubtractFeeFromAmount rest fFirst' size
               (vout_ ++ [txout])
  end.

(** [tx_noinputs_size] starts at 11, [txNew.vout] empty, [fFirst] true. *)
Definition CreateTransaction_outputs (relayDustFee nFeeRet nSubtractFeeFromAmount : Z)
    (vecSend : list CRecipient.t) : OutputsResult :=
  recipient_outputs relayDustFee nFeeRet nSubtractFeeFromAmount vecSend true 11 [].

(** The end of a pass, from [if (nFeeRet >= nFeeNeeded)] to the last
    [continue].  [fee_needed_with_change] and [minimum_value_for_change]
    are what GetMinimumFee and GetDustThreshold give in the branch that
    asks for them. *)
Definition CreateTransaction_fee (nFeeNeeded fee_needed_with_change minimum_value_for_change : Z)
    (nSubtractFeeFromAmount : Z) (pick_new_inputs use_bnb : bool)
    (vout_ : list CTxOut) (nChangePosInOut nFeeRet : Z) : FeeStep :=
  if nFeeNeeded <=? nFeeRet then
    if (nChangePosInOut =? -1) && (nSubtractFeeFromAmount =? 0) && pick_new_inputs &&
       (fee_needed_with_change + minimum_value_for_change <=? nFeeRet)
    then FeeRetry fee_needed_with_change false use_bnb
    else if (nFeeNeeded <? nFeeRet) && negb (nChangePosInOut =? -1) &&
            (nSubtractFeeFromAmount =? 0)
    then
      match add_to_output nChangePosInOut (nFeeRet - nFeeNeeded) vout_ with
      | Some vout' => FeeDone vout' (nFeeRet - (nFeeRet - nFeeNeeded))
      | None => FeeUndefined
      end
    else FeeDone vout_ nFeeRet
  else if negb pick_new_inputs then
    FeeFailed "Transaction fee and change calculation failed"
  else
    let retry :=
      FeeRetry nFeeNeeded (if 0 <? nSubtractFeeFromAmount then false else pick_new_inputs)
               false in
    if negb (nChangePosInOut =? -1) && (nSubtractFeeFromAmount =? 0) then
      if nChangePosInOut <? 0 then FeeUndefined
      else
        match vout_ !! Z.to_nat nChangePosInOut with
        | None => FeeUndefined
        | Some change =>
            let additionalFeeNeeded := nFeeNeeded - nFeeRet in
            if MIN_FINAL_CHANGE + additionalFeeNeeded <=? nValue change then
              match add_to_output nChangePosInOut (- additionalFeeNeeded) vout_ with
              | Some vout' => FeeDone vout' (nFeeRet + additionalFeeNeeded)
              | None => FeeUndefined
              end
            else retry
        end
    else retry.

End CreateTransactionFee.

(** ** CWallet::ReorderTransactions *)

Definition with_nOrderPos (pos : Z) (wtx : CWalletTx) : CWalletTx :=
  {| tx := tx wtx; m_confirm := m_confirm wtx;
     mapSproutNoteData := mapSproutNoteData wtx;
     mapSaplingNoteData := mapSaplingNoteData wtx;
     mapValue := mapValue wtx; vOrderForm := vOrderForm wtx;
     fFromMe := fFromMe wtx; fInMempool := fInMempool wtx;
     nTimeReceived := nTimeReceived wtx; nTimeSmart := nTimeSmart wtx;
     nOrderPos := pos |}.

(** The multimap [txByTime]: the entries of mapWallet, met in the order
    of their keys, inserted under their [nTimeReceived]; an entry is
    held as its key. *)
Definition txByTime (m : gmap uint256 CWalletTx) : list (Z * uint256) :=
  foldl (fun acc id =>
           match m !! id with
           | Some wtx => ordered_insert (nTimeReceived wtx) id acc
           | None => acc
           end) [] (merge_sort N.le (elements (dom m))).

Inductive ReorderResult :=
  | LOAD_OK (w : CWallet)
  | LOAD_FAIL (w : CWallet)
  | ReorderAborted.

(** [for (const int64_t& nOffsetStart : nOrderPosOffsets) if (nOrderPos
    >= nOffsetStart) ++nOrderPosOff;] *)
Definition count_offsets (nOrderPos_ : Z) (nOrderPosOffsets : list Z) : Z :=
  Z.of_nat (length (filter (fun nOffsetStart => nOffsetStart <= nOrderPos_) nOrderPosOffsets)).

(** The loop over [txByTime].  [WriteTx_ok] is the answer of the
    database to [batch.WriteTx]; an attempt is logged whatever the
    answer.  [ReorderAborted]: an [int64_t] would overflow (undefined). *)
Fixpoint reorder_loop (WriteTx_ok : CWalletTx -> bool) (items : list (Z * uint256))
    (nOrderPosOffsets : list Z) (w : CWallet) : ReorderResult :=
  match items with
  | [] => LOAD_OK (db_write (DbWriteOrderPosNext (nOrderPosNext w)) w)
  | (_, id) :: rest =>
      match mapWallet w !! id with
      | None => ReorderAborted
      | Some pwtx =>
          if nOrderPos pwtx =? -1 then
            if nOrderPosNext w <? INT64_MAX then
              let pwtx' := with_nOrderPos (nOrderPosNext w) pwtx in
              let w1 := db_write (DbWriteTx pwtx')
                          (with_nOrderPosNext (nOrderPosNext w + 1)
                             (with_mapWallet (<[id := pwtx']> (mapWallet w)) w)) in
              if WriteTx_ok pwtx'
              then reorder_loop WriteTx_ok rest (nOrderPosOffsets ++ [nOrderPosNext w]) w1
              else LOAD_FAIL w1
            else ReorderAborted
          else
            let nOrderPosOff := count_offsets (nOrderPos pwtx) nOrderPosOffsets in
            if nOrderPos pwtx + nOrderPosOff <? INT64_MAX then
              let pwtx' := with_nOrderPos (nOrderPos pwtx + nOrderPosOff) pwtx in
              let w1 := with_nOrderPosNext (Z.max (nOrderPosNext w) (nOrderPos pwtx' + 1))
                          (with_mapWallet (<[id := pwtx']> (mapWallet w)) w) in
              if nOrderPosOff =? 0 then reorder_loop WriteTx_ok rest nOrderPosOffsets w1
              else if WriteTx_ok pwtx'
              then reorder_loop WriteTx_ok rest nOrderPosOffsets (db_write (DbWriteTx pwtx') w1)
              else LOAD_FAIL (db_write (DbWriteTx pwtx') w1)
            else ReorderAborted
      end
  end.

Definition ReorderTransactions (WriteTx_ok : CWalletTx -> bool) (w : CWallet)
    : ReorderResult :=
  reorder_loop WriteTx_ok (txByTime (mapWallet w)) [] (with_nOrderPosNext 0 w).

(** * Specification predicates *)

(** ** The transactions a walk over the spend graph reaches *)

Section SpendWalk.

Variable on_visit : CWalletTx -> visit.
Variable w0 : CWallet.    (* the wallet when the walk starts *)
Variable root : uint256.  (* hashTx *)

(** The walk rewrites [x] when it meets it. *)
Definition marks (x : uint256) : Prop :=
  exists wtx wtx', mapWallet w0 !! x = Some wtx /\ on_visit wtx = Mark wtx'.

(** [b] is registered in mapTxSpends as spending an output of [a]. *)
Definition spends_output_of (b a : uint256) : Prop :=
  b ∈ spends_of a (mapTxSpends w0).

(** The transactions the walk meets: [root], and the spenders of the
    outputs of every transaction it rewrites. *)
Inductive visited : uint256 -> Prop :=
  | visited_root : visited root
  | visited_spend a b : visited a -> marks a -> spends_output_of b a -> visited b.

Definition after_visit (wtx : CWalletTx) : CWalletTx :=
  match on_visit wtx with Mark wtx' => wtx' | _ => wtx end.

Definition walk_universe : gset uint256 :=
  {[root]} ∪ list_to_set (snd <$> mapTxSpends w0).

(** The loop invariant. *)
Record walk_inv (todo done : gset uint256) (w : CWallet) : Prop := {
  inv_spends : mapTxSpends w = mapTxSpends w0;
  inv_untouched : forall x, x ∉ done -> mapWallet w !! x = mapWallet w0 !! x;
  inv_done : forall x wtx, x ∈ done -> mapWallet w0 !! x = Some wtx ->
               mapWallet w !! x = Some (after_visit wtx);
  inv_closed : forall a b, a ∈ done -> marks a -> spends_output_of b a -> b ∈ done \/ b ∈ todo;
  inv_disjoint : forall x, x ∈ todo -> x ∉ done;
  inv_root : root ∈ done \/ root ∈ todo;
  inv_visited : forall x, x ∈ done \/ x ∈ todo -> visited x;
  inv_universe : forall x, x ∈ todo -> x ∈ walk_universe
}.

End SpendWalk.

(** A wallet transaction counts as spending a coin or note
    (the test of IsSpent, IsSproutSpent and IsSaplingSpent). *)
Definition spends_now (c : Chain) (wtx : CWalletTx) : Prop :=
  0 < GetDepthInMainChain c wtx \/
  (GetDepthInMainChain c wtx = 0 /\ isAbandoned wtx = false).

(** [b] reveals a nullifier cached on a Sprout or Sapling note of [a]. *)
Definition spends_nullifier_of (b a : CWalletTx) : Prop :=
  (exists op nd nf, mapSproutNoteData a !! op = Some nd /\ nullifier nd = Some nf /\
                    nf ∈ concat (nullifiers <$> vJoinSplit (tx b))) \/
  (exists op nd nf, mapSaplingNoteData a !! op = Some nd /\ nullifier nd = Some nf /\
                    nf ∈ vShieldedSpend (tx b)).

(** The transactions MarkConflicted meets from [hashTx]: [hashTx], and
    every transaction registered in mapTxSpends as spending an output of a
    met transaction that is less conflicted than the block. *)
Definition conflict_reaches (c : Chain) (hashBlock_ : uint256) (w : CWallet)
    (hashTx x : uint256) : Prop :=
  visited (MarkConflicted_visit c hashBlock_ (- getBlockDepth c hashBlock_)) w hashTx x.

(** The transactions AbandonTransaction meets from [hashTx]: [hashTx],
    and every transaction registered in mapTxSpends as spending an output
    of a met transaction that has depth 0 and is not abandoned yet. *)
Definition abandon_reaches (c : Chain) (w : CWallet) (hashTx x : uint256) : Prop :=
  visited (AbandonTransaction_visit c) w hashTx x.

(** Every note outpoint that [stored] and [incoming] share, and for which
    [stored] holds at least one witness, has in [result] the witnesses
    [stored] holds. *)
Definition keeps_witnesses_of (stored incoming result : CWalletTx) : Prop :=
  (forall op nd, mapSproutNoteData stored !! op = Some nd -> witnesses nd <> [] ->
     is_Some (mapSproutNoteData incoming !! op) ->
     exists nd', mapSproutNoteData result !! op = Some nd' /\ witnesses nd' = witnesses nd) /\
  (forall op nd, mapSaplingNoteData stored !! op = Some nd -> witnesses nd <> [] ->
     is_Some (mapSaplingNoteData incoming !! op) ->
     exists nd', mapSaplingNoteData result !! op = Some nd' /\ witnesses nd' = witnesses nd).

(** What SyncMetaData leaves alone in a wallet transaction. *)
Definition same_core (a b : CWalletTx) : Prop :=
  tx a = tx b /\ m_confirm a = m_confirm b /\
  mapSproutNoteData a = mapSproutNoteData b /\
  mapSaplingNoteData a = mapSaplingNoteData b /\
  nOrderPos a = nOrderPos b.

Definition metadata_frame (w w' : CWallet) : Prop :=
  (forall id wtx, mapWallet w !! id = Some wtx ->
     exists wtx', mapWallet w' !! id = Some wtx' /\ same_core wtx wtx') /\
  nOrderPosNext w' = nOrderPosNext w.

Section LedgerRuns.

Variable IsCoinBase : CTransaction -> bool.
Variable HasWitness : CTransaction -> bool.
Variable SproutNoteData_eq : NoteData -> NoteData -> bool.
Variable SaplingNoteData_eq : NoteData -> NoteData -> bool.

(** The order positions given out by a series of AddToWallet calls, in
    the order of the calls: the [nOrderPos] found on each transaction
    the call inserted.  The series stops at a call that throws or
    aborts. *)
Fixpoint assigned_positions (calls : list (Chain * bool * CWalletTx)) (w : CWallet) : list Z :=
  match calls with
  | [] => []
  | (c, WriteTx_ok, wtxIn) :: rest =>
      match AddToWallet IsCoinBase HasWitness SproutNoteData_eq SaplingNoteData_eq
              c WriteTx_ok wtxIn w with
      | Returned r w' =>
          (if fInsertedNew r
           then match mapWallet w' !! GetHash wtxIn with
                | Some wtx => [nOrderPos wtx]
                | None => []
                end
           else []) ++ assigned_positions rest w'
      | _ => []
      end
  end.

(** The values returned by [k] calls of IncOrderPosNext in a row. *)
Fixpoint IncOrderPosNext_values (k : nat) (w : CWallet) : list Z :=
  match k with
  | O => []
  | S k' =>
      match IncOrderPosNext w with
      | Returned nRet w' => nRet :: IncOrderPosNext_values k' w'
      | _ => []
      end
  end.

End LedgerRuns.

(** * Sample data

    A small chain and wallet on which the definitions are evaluated. *)

Module Samples.

(** Block 500 is three blocks deep, block 501 is the tip. *)
Definition chain : Chain :=
  {| getBlockDepth := fun h => if (h =? 500)%N then 3 else if (h =? 501)%N then 1 else 0;
     findBlock := fun h => if (h =? 500)%N then Some 5000
                           else if (h =? 501)%N then Some 5010 else None;
     getAdjustedTime := 6000 |}.

Definition plain_tx (id : uint256) (inputs : list COutPoint.t) : CTransaction :=
  {| txid := id;
     vin := (fun o => {| prevout := o; scriptSig := [1%N] |}) <$> inputs;
     vout := [ {| nValue := 50; scriptPubKey := [9%N] |} ];
     vJoinSplit := []; vShieldedSpend := []; vShieldedOutput := [];
     nLockTime := 0 |}.

Definition wallet_tx (t : CTransaction) (cf : Confirmation) : CWalletTx :=
  {| tx := t; m_confirm := cf;
     mapSproutNoteData := ∅; mapSaplingNoteData := ∅;
     mapValue := []; vOrderForm := [];
     fFromMe := false; fInMempool := false;
     nTimeReceived := 0; nTimeSmart := 0; nOrderPos := 0 |}.

Definition unconfirmed : Confirmation :=
  {| status := UNCONFIRMED; hashBlock := 0%N; nIndex := 0 |}.
Definition confirmed_in (block : uint256) : Confirmation :=
  {| status := CONFIRMED; hashBlock := block; nIndex := 1 |}.
Definition conflicted_with (block : uint256) : Confirmation :=
  {| status := CONFLICTED; hashBlock := block; nIndex := 0 |}.

Definition empty_wallet : CWallet :=
  {| mapWallet := ∅; mapTxSpends := [];
     mapTxSproutNullifiers := []; mapTxSaplingNullifiers := [];
     wtxOrdered := []; nOrderPosNext := 0; database := [] |}.

(** *** A note and two blocks for the witness cache *)

Definition witness0 : IncrementalWitness := {| witnessed := [40%N]; appended := [] |}.

Definition note0 : NoteData :=
  {| address := 3%N; nullifier := Some 7%N; witnesses := [witness0];
     witnessHeight := 9; witnessRootValidated := true |}.

Definition note_tx : CWalletTx :=
  with_notes {[ (1%N, 0%N, 0%N) := note0 ]} ∅
    (wallet_tx (plain_tx 1 []) (confirmed_in 500)).

Definition note_wallet : CWallet :=
  with_mapWallet {[ 1%N := note_tx ]} empty_wallet.

Definition shielding_tx (id : uint256) (cms : list uint256) : CTransaction :=
  {| txid := id; vin := []; vout := [];
     vJoinSplit := [ {| nullifiers := []; commitments := cms |} ];
     vShieldedSpend := []; vShieldedOutput := []; nLockTime := 0 |}.

Definition block10 : CBlockIndex := {| nHeight := 10; vtx := [shielding_tx 20 [41%N; 42%N]] |}.
Definition block11 : CBlockIndex := {| nHeight := 11; vtx := [shielding_tx 21 [43%N; 44%N]] |}.

(** *** Wallets for the spend index and the walks *)

Definition outpoint (id : uint256) (i : N) : COutPoint.t := COutPoint.mk id i.

(** Transaction 2 is unconfirmed, outside the mempool, and spends
    output 0 of the confirmed transaction 1. *)
Definition spend_wallet : CWallet :=
  with_mapTxSpends [(outpoint 1 0, 2%N)]
    (with_mapWallet
       {[ 1%N := wallet_tx (plain_tx 1 []) (confirmed_in 500);
          2%N := wallet_tx (plain_tx 2 [outpoint 1 0]) unconfirmed ]} empty_wallet).

(** Transaction 1 holds a Sprout note with nullifier 7; transaction 2
    reveals that nullifier; transaction 3 spends output 0 of
    transaction 1. *)
Definition joinsplit_tx (id : uint256) (nfs : list uint256) : CTransaction :=
  {| txid := id; vin := []; vout := [];
     vJoinSplit := [ {| nullifiers := nfs; commitments := [] |} ];
     vShieldedSpend := []; vShieldedOutput := []; nLockTime := 0 |}.

Definition note_spend_wallet : CWallet :=
  with_mapTxSproutNullifiers [(7%N, 2%N)]
    (with_mapTxSpends [(outpoint 1 0, 3%N)]
       (with_mapWallet
          {[ 1%N := with_notes {[ (1%N, 0%N, 0%N) := note0 ]} ∅
                      (wallet_tx (plain_tx 1 []) unconfirmed);
             2%N := wallet_tx (joinsplit_tx 2 [7%N]) unconfirmed;
             3%N := wallet_tx (plain_tx 3 [outpoint 1 0]) unconfirmed ]} empty_wallet)).

(** Three transactions that spend each other in a circle. *)
Definition cycle_wallet : CWallet :=
  with_mapTxSpends [(outpoint 3 0, 1%N); (outpoint 1 0, 2%N); (outpoint 2 0, 3%N)]
    (with_mapWallet
       {[ 1%N := wallet_tx (plain_tx 1 [outpoint 3 0]) unconfirmed;
          2%N := wallet_tx (plain_tx 2 [outpoint 1 0]) unconfirmed;
          3%N := wallet_tx (plain_tx 3 [outpoint 2 0]) unconfirmed ]} empty_wallet).

(** Transaction 4 conflicts with the tip. *)
Definition conflicted_wallet : CWallet :=
  with_mapWallet {[ 4%N := wallet_tx (plain_tx 4 []) (conflicted_with 501) ]} empty_wallet.

Definition status_of (w : CWallet) (id : uint256) : option Status :=
  (fun wtx => status (m_confirm wtx)) <$> mapWallet w !! id.

Definition statuses (r : walk_result CWallet) (ids : list uint256) : list (option Status) :=
  match r with
  | Finished w => (status_of w) <$> ids
  | _ => []
  end.

(** *** Note data for AddToWallet *)

(** The operators of wallet.h are not at hand; here two note records
    are equal when address and nullifier are. *)
Definition note_eq (a b : NoteData) : bool :=
  bool_decide (address a = address b) && bool_decide (nullifier a = nullifier b).

(** A coinbase has one input, whose prevout is null. *)
Definition is_coinbase (t : CTransaction) : bool :=
  match vin t with
  | [txin] => bool_decide (prevout txin = COutPoint.mk 0 (2 ^ 32 - 1))
  | _ => false
  end.
Definition has_witness (t : CTransaction) : bool := false.

Definition add_to_wallet := AddToWallet is_coinbase has_witness note_eq note_eq.

(** Transaction 5 spends outpoint (9, 0) and was received from the
    network; [own_tx] is the same payment with another signature
    (hence another id), created by this wallet. *)
Definition malleated_tx (id : uint256) (sig : N) : CTransaction :=
  {| txid := id;
     vin := [ {| prevout := outpoint 9 0; scriptSig := [sig] |} ];
     vout := [ {| nValue := 50; scriptPubKey := [9%N] |} ];
     vJoinSplit := []; vShieldedSpend := []; vShieldedOutput := [];
     nLockTime := 0 |}.

Definition seen_wallet : CWallet :=
  with_nOrderPosNext 1
    (with_wtxOrdered [(0, 5%N)]
       (with_mapTxSpends [(outpoint 9 0, 5%N)]
          (with_mapWallet {[ 5%N := wallet_tx (malleated_tx 5 1) unconfirmed ]}
             empty_wallet))).

Definition own_tx : CWalletTx :=
  with_fFromMe true (wallet_tx (malleated_tx 6 2) unconfirmed).

Definition tx2 : CWalletTx := wallet_tx (plain_tx 2 [outpoint 1 0]) unconfirmed.
Definition tx3 : CWalletTx := wallet_tx (plain_tx 3 [outpoint 2 0]) (confirmed_in 501).

(** [empty_wallet] after [tx2] has been added. *)
Definition tx2_wallet : CWallet :=
  {| mapWallet := {[ 2%N := with_receipt 6000 6000 0 tx2 ]};
     mapTxSpends := [(outpoint 1 0, 2%N)];
     mapTxSproutNullifiers := []; mapTxSaplingNullifiers := [];
     wtxOrdered := [(0, 2%N)]; nOrderPosNext := 1;
     database := [DbWriteOrderPosNext 1; DbWriteTx (with_receipt 6000 6000 0 tx2)] |}.

Definition add_calls : list (Chain * bool * CWalletTx) :=
  [(chain, true, tx2); (chain, true, tx2); (chain, false, tx3)].

(** *** The change output *)

(** Nothing is dust, and the random position is the last one. *)
Definition never_dust (txout : CTxOut) (rate : Z) : bool := false.
Definition last_position (nMax : Z) : Z := nMax - 1.

Definition payment : CTxOut := {| nValue := 40; scriptPubKey := [8%N] |}.

Definition result_of (r : call_result AddResult) : option AddResult :=
  match r with Returned a _ => Some a | _ => None end.
Definition wallet_of (r : call_result AddResult) (w : CWallet) : CWallet :=
  match r with Returned _ w' => w' | _ => w end.

(** A copy of [note_tx] as it comes from the network: the nullifier is
    not known and there is no witness yet. *)
Definition incoming_note : NoteData :=
  {| address := 3%N; nullifier := None; witnesses := [];
     witnessHeight := -1; witnessRootValidated := false |}.

Definition incoming_note_tx : CWalletTx :=
  with_notes {[ (1%N, 0%N, 0%N) := incoming_note ]} ∅
    (wallet_tx (plain_tx 1 []) (confirmed_in 500)).

Definition cache_ops : list CacheOp :=
  [Extend chain block10; Extend chain block11; Rewind chain 11].

Definition sprout_note (w : CWallet) (id : uint256) (op : SproutOutPoint) : option NoteData :=
  wtx ← mapWallet w !! id; mapSproutNoteData wtx !! op.

(** [witness0] after block 10 has been folded in. *)
Definition witness1 : IncrementalWitness := {| witnessed := [40%N]; appended := [41%N; 42%N] |}.

(** [note_wallet] after BuildWitnessCache has folded in block 10: the
    note holds the new witness in front of the older one. *)
Definition extended_wallet : CWallet :=
  with_mapWallet
    {[ 1%N := with_notes {[ (1%N, 0%N, 0%N) := with_witnesses [witness1; witness0] 10 note0 ]} ∅
                note_tx ]} empty_wallet.

End Samples.

(** * Predicates and sample data for the further functions *)

(** Every note of the wallet has an empty witness list and the witness
    height -1. *)
Definition cache_empty (w : CWallet) : Prop :=
  map_Forall (fun _ wtx =>
    map_Forall (fun _ nd => witnesses nd = [] /\ witnessHeight nd = -1)
      (mapSproutNoteData wtx) /\
    map_Forall (fun _ nd => witnesses nd = [] /\ witnessHeight nd = -1)
      (mapSaplingNoteData wtx))
    (mapWallet w).

(** No block of the operations is at height 0. *)
Definition above_genesis (op : CacheOp) : Prop :=
  match op with
  | Extend _ pblockindex => nHeight pblockindex <> 0
  | Rewind _ _ => True
  end.

(** The first cached witness of a note, when [find] has the note. *)
Definition note_front {K} (find : K -> option NoteData) (note : K)
    : option IncrementalWitness :=
  find note ≫= (fun nd => head (witnesses nd)).

(** All first witnesses of the notes have the same root. *)
Definition same_anchor {K} (root : IncrementalWitness -> uint256)
    (find : K -> option NoteData) (notes : list K) : Prop :=
  forall i j n1 n2 f1 f2, notes !! i = Some n1 -> notes !! j = Some n2 ->
    note_front find n1 = Some f1 -> note_front find n2 = Some f2 -> root f1 = root f2.

(** What GetSproutNoteWitnesses and GetSaplingNoteWitnesses leave in
    [witnesses] and [final_anchor]. *)
Definition note_witnesses_result {K} (root : IncrementalWitness -> uint256)
    (find : K -> option NoteData) (notes : list K)
    (witnesses_ : list (option IncrementalWitness)) (final_anchor : uint256)
    (ws : list (option IncrementalWitness)) (final_anchor' : uint256) : Prop :=
  length ws = length notes /\
  (forall i note, notes !! i = Some note ->
     match note_front find note with
     | Some front => ws !! i = Some (Some front) /\ root front = final_anchor'
     | None => ws !! i = Some (default None (witnesses_ !! i))
     end) /\
  ((forall i note, notes !! i = Some note -> note_front find note = None) ->
   final_anchor' = final_anchor).

(** The spend index holds every input and nullifier of [wtx] under the
    hash of [wtx], as AddToSpends leaves it. *)
Definition registered (w : CWallet) (wtx : CWalletTx) : Prop :=
  Forall (fun txin => (prevout txin, GetHash wtx) ∈ mapTxSpends w) (vin (tx wtx)) /\
  Forall (fun js => Forall (fun nf => (nf, GetHash wtx) ∈ mapTxSproutNullifiers w)
                      (nullifiers js)) (vJoinSplit (tx wtx)) /\
  Forall (fun nf => (nf, GetHash wtx) ∈ mapTxSaplingNullifiers w) (vShieldedSpend (tx wtx)).

(** [other] is registered as a spender of an input or nullifier of [wtx]. *)
Definition shares_input (w : CWallet) (wtx : CWalletTx) (other : uint256) : Prop :=
  (exists txin, txin ∈ vin (tx wtx) /\ (prevout txin, other) ∈ mapTxSpends w) \/
  (exists js nf, js ∈ vJoinSplit (tx wtx) /\ nf ∈ nullifiers js /\
     (nf, other) ∈ mapTxSproutNullifiers w) \/
  (exists nf, nf ∈ vShieldedSpend (tx wtx) /\ (nf, other) ∈ mapTxSaplingNullifiers w).

(** Two wallet transactions that differ at most in their confirmation. *)
Definition same_but_confirm (a b : CWalletTx) : Prop :=
  with_confirm (m_confirm a) b = a.

(** What the loops of MarkConflicted and AbandonTransaction leave alone:
    the set of transactions, all of each transaction but its
    confirmation, the three spend indexes, the ordered list and the
    position counter; the database log only grows. *)
Definition only_confirmations_change (w w' : CWallet) : Prop :=
  (forall x, option_Forall2 same_but_confirm (mapWallet w !! x) (mapWallet w' !! x)) /\
  mapTxSpends w' = mapTxSpends w /\
  mapTxSproutNullifiers w' = mapTxSproutNullifiers w /\
  mapTxSaplingNullifiers w' = mapTxSaplingNullifiers w /\
  wtxOrdered w' = wtxOrdered w /\
  nOrderPosNext w' = nOrderPosNext w /\
  database w `prefix_of` database w'.

(** [b] is [a] with at most another confirmation, and satisfies [P] if
    it is not [a]. *)
Definition changed_to (P : CWalletTx -> Prop) (a b : CWalletTx) : Prop :=
  same_but_confirm a b /\ (b = a \/ P b).

(** [w'] is [w] after [hashTx] was marked as conflicting with a block of
    the main chain, or abandoned. *)
Definition retired_by (c : Chain) (hashTx : uint256) (w w' : CWallet) : Prop :=
  (exists hashBlock_, 0 < getBlockDepth c hashBlock_ /\
     MarkConflicted c hashBlock_ hashTx w = Finished w') \/
  AbandonTransaction c hashTx w = Finished (true, w').

(** What SyncMetaData makes of the transaction [copyTo] stored under
    [id], when [copyFrom], stored under [from_id], is the oldest of the
    range. *)
Definition synced (from_id : uint256) (copyFrom : CWalletTx) (id : uint256)
    (copyTo : CWalletTx) : CWalletTx :=
  if decide (from_id = id) then copyTo
  else if IsEquivalentTo copyFrom copyTo then copy_metadata copyFrom copyTo
  else copyTo.

(** Nothing but mapWallet differs between [w] and [w']. *)
Definition only_mapWallet_changes (w w' : CWallet) : Prop :=
  with_mapWallet (mapWallet w) w' = w.

(** The order positions of the transactions of [range] fit an [int]
    and are below its largest value. *)
Definition int_positions (w : CWallet) (range : list uint256) : Prop :=
  forall id wtx, id ∈ range -> mapWallet w !! id = Some wtx ->
    - 2 ^ 31 <= nOrderPos wtx < INT_MAX.

(** From [w] to [w'] the three spend indexes have grown by the given
    entries, at their ends, and the ordered list, the position counter
    and the database log are the same. *)
Definition index_grows (spends : list (COutPoint.t * uint256))
    (sprout sapling : list (uint256 * uint256)) (w w' : CWallet) : Prop :=
  mapTxSpends w' = mapTxSpends w ++ spends /\
  mapTxSproutNullifiers w' = mapTxSproutNullifiers w ++ sprout /\
  mapTxSaplingNullifiers w' = mapTxSaplingNullifiers w ++ sapling /\
  wtxOrdered w' = wtxOrdered w /\
  nOrderPosNext w' = nOrderPosNext w /\
  database w' = database w.

(** The times kept in the wallet are not negative (they are
    [unsigned int] fields). *)
Definition times_valid (w : CWallet) : Prop :=
  map_Forall (fun _ pwtx => 0 <= nTimeSmart pwtx /\ 0 <= nTimeReceived pwtx) (mapWallet w).

(** The sum of the values of a list of outputs. *)
Definition total_out (v : list CTxOut) : Z := foldr (fun o acc => nValue o + acc) 0 v.

(** The sum of the amounts of a list of recipients, and the number of
    those that pay the fee. *)
Definition total_amount (vecSend : list CRecipient.t) : Z :=
  foldr (fun r acc => CRecipient.nAmount r + acc) 0 vecSend.

Definition pay_fee_count (vecSend : list CRecipient.t) : Z :=
  foldr (fun r acc => if CRecipient.fSubtractFeeFromAmount r then 1 + acc else acc) 0 vecSend.

(** [b] is [a] with, at most, another order position. *)
Definition same_but_position (a b : CWalletTx) : Prop :=
  with_nOrderPos (nOrderPos a) b = a.

(** What ReorderTransactions leaves alone: the set of transactions, all
    of each transaction but its order position, the spend indexes and
    the ordered list; the database log only grows. *)
Definition only_positions_change (w w' : CWallet) : Prop :=
  (forall id, option_Forall2 same_but_position (mapWallet w !! id) (mapWallet w' !! id)) /\
  mapTxSpends w' = mapTxSpends w /\
  mapTxSproutNullifiers w' = mapTxSproutNullifiers w /\
  mapTxSaplingNullifiers w' = mapTxSaplingNullifiers w /\
  wtxOrdered w' = wtxOrdered w /\
  database w `prefix_of` database w'.

Module MoreSamples.

(** A toy root: the sum of all commitments seen. *)
Definition root (iw : IncrementalWitness) : uint256 :=
  foldr N.add 0%N (witnessed iw ++ appended iw).

(** Transactions 2 and 3 both spend output 0 of transaction 1. *)
Definition spender (id : uint256) : CWalletTx :=
  Samples.wallet_tx (Samples.plain_tx id [Samples.outpoint 1 0]) Samples.unconfirmed.

Definition double_spend_wallet : CWallet :=
  with_mapTxSpends [(Samples.outpoint 1 0, 2%N); (Samples.outpoint 1 0, 3%N)]
    (with_mapWallet {[ 2%N := spender 2; 3%N := spender 3 ]} Samples.empty_wallet).

(** [Samples.cycle_wallet] after transaction 1 was marked as conflicting
    with the tip, respectively abandoned. *)
Definition conflicted_cycle : CWallet :=
  match MarkConflicted Samples.chain 501%N 1%N Samples.cycle_wallet with
  | Finished w' => w'
  | _ => Samples.cycle_wallet
  end.

Definition abandoned_cycle : CWallet :=
  match AbandonTransaction Samples.chain 1%N Samples.cycle_wallet with
  | Finished (_, w') => w'
  | _ => Samples.cycle_wallet
  end.

(** [Samples.spend_wallet] after transaction 2 was abandoned. *)
Definition abandoned_spend : CWallet :=
  match AbandonTransaction Samples.chain 2%N Samples.spend_wallet with
  | Finished (_, w') => w'
  | _ => Samples.spend_wallet
  end.

(** Transactions 5 and 6 are the same payment with two signatures;
    transaction 5 is the older one, transaction 6 was created here. *)
Definition malleated_wallet : CWallet :=
  with_mapTxSpends [(Samples.outpoint 9 0, 5%N); (Samples.outpoint 9 0, 6%N)]
    (with_mapWallet
       {[ 5%N := Samples.wallet_tx (Samples.malleated_tx 5 1) Samples.unconfirmed;
          6%N := with_receipt 0 0 1 Samples.own_tx ]} Samples.empty_wallet).

Definition synced_wallet : CWallet :=
  match SyncMetaData [5%N; 6%N] malleated_wallet with
  | Returned _ w' => w'
  | _ => malleated_wallet
  end.

(** Transaction 2 is in the wallet but not yet in the spend index. *)
Definition unindexed_wallet : CWallet :=
  with_mapWallet {[ 2%N := spender 2 ]} Samples.empty_wallet.

Definition indexed_wallet : CWallet :=
  match AddToSpends Samples.is_coinbase 2%N unindexed_wallet with
  | Returned _ w' => w'
  | _ => unindexed_wallet
  end.

(** [Samples.empty_wallet] after [Samples.tx2] was added. *)
Definition added_wallet : CWallet :=
  Samples.wallet_of (Samples.add_to_wallet Samples.chain true Samples.tx2 Samples.empty_wallet)
    Samples.empty_wallet.

Definition added_result : AddResult :=
  {| ret := true; fInsertedNew := true; fUpdated := false |}.

(** Transaction 3, confirmed in the tip, as it is when AddToWallet asks
    for its smart time in [Samples.tx2_wallet]. *)
Definition received_tx3 : CWalletTx := with_receipt 6000 0 1 Samples.tx3.

(** Two payments; the second pays the fee. *)
Definition recipients : list CRecipient.t :=
  [ CRecipient.mk [8%N] 40 false; CRecipient.mk [9%N] 60 true ].

(** Transaction 2 (received at 10) has no order position yet;
    transaction 3 (received at 5) has position 0. *)
Definition unordered_wallet : CWallet :=
  with_mapWallet
    {[ 2%N := with_receipt 10 0 (-1) (spender 2);
       3%N := with_receipt 5 0 0 (spender 3) ]} Samples.empty_wallet.

Definition reordered_wallet : CWallet :=
  match ReorderTransactions (fun _ => true) unordered_wallet with
  | LOAD_OK w' => w'
  | _ => unordered_wallet
  end.

(** Every output takes 34 bytes. *)
Definition output_size (txout : CTxOut) : Z := 34.

(** The outputs of a pass for [recipients] with a fee of 10 and inputs
    worth 130: the two payments, the second less the fee, and the
    change. *)
Definition paid : list CTxOut :=
  [ {| nValue := 40; scriptPubKey := [8%N] |}; {| nValue := 50; scriptPubKey := [9%N] |} ].
Definition paid_with_change : list CTxOut :=
  paid ++ [ {| nValue := 30; scriptPubKey := [7%N] |} ].

(** Transaction 2 as it comes with block 500. *)
Definition confirmed_spender : CWalletTx :=
  Samples.wallet_tx (Samples.plain_tx 2 [Samples.outpoint 1 0]) (Samples.confirmed_in 500).

End MoreSamples.

(** * Properties *)

(** ** Traversals *)

Lemma map_traverse_Some {K A} `{Countable K} (f : A -> option A) (m m' : gmap K A) :
  map_traverse f m = Some m' ->
  forall k, m' !! k = m !! k ≫= f.
Proof.
  unfold map_traverse. case_decide; [|done].
  intros [= <-] k. apply lookup_omap.
Qed.

Lemma map_traverse_defined {K A} `{Countable K} (f : A -> option A) (m : gmap K A) :
  (forall k a, m !! k = Some a -> is_Some (f a)) ->
  is_Some (map_traverse f m).
Proof.
  intros Hf. unfold map_traverse. case_decide as Hd; [eauto|].
  destruct Hd. intros k a Hk. eauto.
Qed.

Lemma map_traverse_Forall {K A} `{Countable K} (f : A -> option A) (P : A -> Prop)
    (m m' : gmap K A) :
  (forall a a', f a = Some a' -> P a -> P a') ->
  map_traverse f m = Some m' ->
  map_Forall (fun _ a => P a) m -> map_Forall (fun _ a => P a) m'.
Proof.
  intros Hf Hm HP k a' Hk.
  rewrite (map_traverse_Some _ _ _ Hm) in Hk.
  destruct (m !! k) as [a|] eqn:Ha; simpl in Hk; [|done].
  eapply Hf; [exact Hk|]. by eapply HP.
Qed.

(** ** The witness cache *)

Lemma removelast_length {A} (l : list A) : length (removelast l) = pred (length l).
Proof. rewrite removelast_firstn_len, length_take. lia. Qed.

Section WitnessCacheProperties.

Variable SIZE : nat.

Lemma pop_back_while_length fuel ws :
  (length ws <= fuel + SIZE)%nat ->
  (length (pop_back_while SIZE fuel ws) <= SIZE)%nat.
Proof.
  revert ws. induction fuel as [|fuel IH]; intros ws Hlen; simpl.
  - lia.
  - destruct (Nat.ltb_spec SIZE (length ws)); [|lia].
    apply IH. rewrite removelast_length. lia.
Qed.

Lemma pop_back_while_nonempty fuel ws :
  (1 <= SIZE)%nat -> ws <> [] -> pop_back_while SIZE fuel ws <> [].
Proof.
  intros HS. revert ws. induction fuel as [|fuel IH]; intros ws Hne; simpl; [done|].
  destruct (Nat.ltb_spec SIZE (length ws)); [|done].
  apply IH. intros Heq. apply (f_equal length) in Heq.
  rewrite removelast_length in Heq. simpl in Heq. lia.
Qed.

Lemma append_front_length cms ws ws' :
  append_front cms ws = Some ws' -> length ws' = length ws.
Proof.
  revert ws. induction cms as [|cm cms IH]; intros ws; simpl.
  - by intros [= <-].
  - destruct ws as [|front rest]; [done|]. intros Hw. by rewrite (IH _ Hw).
Qed.

Lemma append_front_defined cms ws :
  ws <> [] -> is_Some (append_front cms ws).
Proof.
  revert ws. induction cms as [|cm cms IH]; intros ws Hne; simpl; [eauto|].
  destruct ws as [|front rest]; [done|]. by apply IH.
Qed.

(** What one extension does to one note. *)
Lemma IncrementNoteWitness_spec sd h cms nd nd' :
  IncrementNoteWitness SIZE sd h cms nd = Some nd' ->
  nullifier nd' = nullifier nd /\
  ((length (witnesses nd) <= SIZE)%nat -> (length (witnesses nd') <= SIZE)%nat) /\
  ((1 <= SIZE)%nat -> witnesses nd <> [] -> witnesses nd' <> []).
Proof.
  unfold IncrementNoteWitness.
  destruct (nullifier nd) as [nf|] eqn:Hnf; [|by intros [= <-]].
  destruct (_ && _); [|by intros [= <-]].
  destruct (witnesses nd) as [|front rest] eqn:Hws; [done|].
  destruct (append_front _ _) as [ws|] eqn:Hap; simpl; [|done].
  intros [= <-]. simpl. split; [done|].
  apply append_front_length in Hap. split.
  - intros _. rewrite Hap. apply pop_back_while_length. simpl. lia.
  - intros HS _ ->.
    eapply (pop_back_while_nonempty _ _ HS); [|apply nil_length_inv; symmetry; exact Hap].
    done.
Qed.

Lemma IncrementNoteWitness_defined sd h cms nd :
  (1 <= SIZE)%nat ->
  (is_Some (nullifier nd) -> witnesses nd <> []) ->
  is_Some (IncrementNoteWitness SIZE sd h cms nd).
Proof.
  intros HS Hne. unfold IncrementNoteWitness.
  destruct (nullifier nd) as [nf|] eqn:Hnf; [|eauto].
  destruct (_ && _); [|eauto].
  destruct (witnesses nd) as [|front rest] eqn:Hws; [by destruct Hne|].
  destruct (append_front_defined cms
              (pop_back_while SIZE (length (front :: front :: rest)) (front :: front :: rest)))
    as [ws Hap].
  - by apply pop_back_while_nonempty.
  - rewrite Hap. simpl. eauto.
Qed.

Lemma DecrementNoteWitness_spec sd h nd :
  let nd' := DecrementNoteWitness SIZE sd h nd in
  nullifier nd' = nullifier nd /\
  (length (witnesses nd') <= length (witnesses nd))%nat /\
  (witnesses nd <> [] -> witnesses nd' <> []).
Proof.
  unfold DecrementNoteWitness.
  destruct (nullifier nd) as [nf|] eqn:Hnf; [|done].
  destruct (within_cache _ _); [|by rewrite Hnf].
  destruct (_ <=? _); [|by rewrite Hnf].
  destruct (Nat.ltb_spec 1 (length (witnesses nd))); [|by rewrite Hnf].
  simpl. split; [done|].
  destruct (witnesses nd) as [|a [|b l]]; simpl in *; try lia.
  split; [lia|done].
Qed.

End WitnessCacheProperties.

Section WitnessCacheWallet.

Variable SIZE : nat.

Lemma notes_with_nullifier_extend (P : NoteData -> Prop) c blk w w' :
  (forall sd h cms nd nd',
      IncrementNoteWitness SIZE sd h cms nd = Some nd' ->
      (is_Some (nullifier nd) -> P nd) -> is_Some (nullifier nd') -> P nd') ->
  BuildWitnessCache_block SIZE c blk w = Some w' ->
  notes_with_nullifier P w -> notes_with_nullifier P w'.
Proof.
  intros Hstep Hrun. unfold BuildWitnessCache_block in Hrun.
  destruct (map_traverse _ _) as [m|] eqn:Hm; simpl in Hrun; [|done].
  injection Hrun as <-. unfold notes_with_nullifier. simpl.
  apply (map_traverse_Forall (IncrementTxWitnesses SIZE c w blk)
    (fun wtx =>
       map_Forall (fun _ nd => is_Some (nullifier nd) -> P nd) (mapSproutNoteData wtx) /\
       map_Forall (fun _ nd => is_Some (nullifier nd) -> P nd) (mapSaplingNoteData wtx))
    (mapWallet w) m); [|exact Hm].
  intros wtx wtx' Hwtx [Hsp Hsa]. unfold IncrementTxWitnesses in Hwtx.
  destruct (_ && _); [by injection Hwtx as <-|].
  destruct (0 <? _); [|by injection Hwtx as <-].
  destruct (map_traverse _ (mapSproutNoteData wtx)) as [sprout|] eqn:H1; simpl in Hwtx; [|done].
  destruct (map_traverse _ (mapSaplingNoteData wtx)) as [sapling|] eqn:H2; simpl in Hwtx; [|done].
  injection Hwtx as <-. simpl. split.
  - eapply (map_traverse_Forall _ (fun nd => is_Some (nullifier nd) -> P nd)); [|exact H1|exact Hsp].
    intros nd nd' Hnd HP. eapply Hstep; eauto.
  - eapply (map_traverse_Forall _ (fun nd => is_Some (nullifier nd) -> P nd)); [|exact H2|exact Hsa].
    intros nd nd' Hnd HP. eapply Hstep; eauto.
Qed.

Lemma notes_with_nullifier_rewind (P : NoteData -> Prop) c h w :
  (forall sd nd,
      (is_Some (nullifier nd) -> P nd) ->
      is_Some (nullifier (DecrementNoteWitness SIZE sd h nd)) ->
      P (DecrementNoteWitness SIZE sd h nd)) ->
  notes_with_nullifier P w -> notes_with_nullifier P (DecrementNoteWitnesses SIZE c h w).
Proof.
  intros Hstep HP. unfold notes_with_nullifier, DecrementNoteWitnesses. simpl.
  apply map_Forall_fmap. intros id wtx Hid. simpl.
  destruct (HP id wtx Hid) as [Hsp Hsa]. split.
  - apply map_Forall_fmap. intros op nd Hop. simpl. apply Hstep. by eapply Hsp.
  - apply map_Forall_fmap. intros op nd Hop. simpl. apply Hstep. by eapply Hsa.
Qed.

Lemma BuildWitnessCache_block_defined c blk w :
  (1 <= SIZE)%nat -> witness_present w ->
  is_Some (BuildWitnessCache_block SIZE c blk w).
Proof.
  intros HS Hp. unfold BuildWitnessCache_block.
  destruct (map_traverse_defined (IncrementTxWitnesses SIZE c w blk) (mapWallet w)) as [m Hm].
  - intros id wtx Hid. destruct (Hp id wtx Hid) as [Hsp Hsa].
    unfold IncrementTxWitnesses.
    destruct (_ && _); [eauto|]. destruct (0 <? _); [|eauto].
    destruct (map_traverse_defined
                (IncrementNoteWitness SIZE (GetSproutSpendDepth c w) (nHeight blk)
                   (sprout_commitments (vtx blk))) (mapSproutNoteData wtx)) as [sprout ->].
    { intros op nd Hop. apply IncrementNoteWitness_defined; [done|]. by eapply Hsp. }
    destruct (map_traverse_defined
                (IncrementNoteWitness SIZE (GetSaplingSpendDepth c w) (nHeight blk)
                   (sapling_commitments (vtx blk))) (mapSaplingNoteData wtx)) as [sapling ->].
    { intros op nd Hop. apply IncrementNoteWitness_defined; [done|]. by eapply Hsa. }
    simpl. eauto.
  - rewrite Hm. simpl. eauto.
Qed.

Lemma cache_step_bound op w w' :
  cache_step SIZE op w = Some w' -> witness_bound SIZE w -> witness_bound SIZE w'.
Proof.
  destruct op as [c blk|c h]; simpl.
  - intros Hrun. eapply notes_with_nullifier_extend; [|exact Hrun].
    intros sd h cms nd nd' Hnd HP Hnf.
    destruct (IncrementNoteWitness_spec _ _ _ _ _ _ Hnd) as (Heq & Hlen & _).
    apply Hlen, HP. by rewrite <- Heq.
  - intros [= <-]. apply notes_with_nullifier_rewind.
    intros sd nd HP Hnf.
    destruct (DecrementNoteWitness_spec SIZE sd h nd) as (Heq & Hlen & _).
    rewrite Heq in Hnf. specialize (HP Hnf). simpl in *. lia.
Qed.

Lemma cache_step_present op w w' :
  (1 <= SIZE)%nat ->
  cache_step SIZE op w = Some w' -> witness_present w -> witness_present w'.
Proof.
  intros HS. destruct op as [c blk|c h]; simpl.
  - intros Hrun. eapply notes_with_nullifier_extend; [|exact Hrun].
    intros sd h cms nd nd' Hnd HP Hnf.
    destruct (IncrementNoteWitness_spec _ _ _ _ _ _ Hnd) as (Heq & _ & Hne).
    apply Hne; [done|]. apply HP. by rewrite <- Heq.
  - intros [= <-]. apply notes_with_nullifier_rewind.
    intros sd nd HP Hnf.
    destruct (DecrementNoteWitness_spec SIZE sd h nd) as (Heq & _ & Hne).
    rewrite Heq in Hnf. by apply Hne, HP.
Qed.

(** C1: starting from a wallet whose notes with a cached nullifier keep at
    most WITNESS_CACHE_SIZE witnesses, every sequence of extensions
    (BuildWitnessCache folding in a block) and rewinds
    (DecrementNoteWitnesses) that runs to its end leaves every such note
    with at most WITNESS_CACHE_SIZE witnesses; and the sequence does run
    to its end when the bound is at least 1 and each such note has a
    witness to extend. *)
Theorem witness_cache_bound (ops : list (CacheOp)) (w : CWallet) :
  witness_bound SIZE w ->
  (forall w', cache_run SIZE ops w = Some w' -> witness_bound SIZE w') /\
  ((1 <= SIZE)%nat -> witness_present w ->
   exists w', cache_run SIZE ops w = Some w' /\ witness_present w').
Proof.
  revert w. induction ops as [|op ops IH]; intros w Hb; simpl.
  - split; [by intros w' [= <-]|]. eauto.
  - split.
    + intros w'. destruct (cache_step SIZE op w) as [w1|] eqn:Hstep; simpl; [|done].
      intros Hrun. eapply (IH w1); [|exact Hrun]. by eapply cache_step_bound.
    + intros HS Hp.
      assert (is_Some (cache_step SIZE op w)) as [w1 Hstep].
      { destruct op as [c blk|c h]; simpl; [|eauto].
        by apply BuildWitnessCache_block_defined. }
      rewrite Hstep. simpl.
      apply (IH w1); [by eapply cache_step_bound|done|by eapply cache_step_present].
Qed.

End WitnessCacheWallet.

Section Rewind.

Variable SIZE : nat.

Lemma DecrementNoteWitness_rewound sd h nd :
  rewound SIZE sd h nd (DecrementNoteWitness SIZE sd h nd).
Proof.
  unfold rewound. split; [|split].
  - intros (nf & Hnf & Hd & Hh & Hlen). unfold DecrementNoteWitness, within_cache.
    rewrite Hnf.
    destruct (Z.leb_spec (to_unsigned_int (sd nf)) (Z.of_nat SIZE)); [|lia].
    destruct (Z.leb_spec (witnessHeight nd) h); [|lia].
    destruct (Nat.ltb_spec 1 (length (witnesses nd))); [|lia].
    destruct (witnesses nd) as [|newest older] eqn:Hws; [simpl in Hlen; lia|].
    exists newest, older. simpl. by rewrite ?Hws.
  - intros Hno. unfold DecrementNoteWitness, within_cache.
    destruct (nullifier nd) as [nf|] eqn:Hnf; [|done].
    destruct (Z.leb_spec (to_unsigned_int (sd nf)) (Z.of_nat SIZE)); [|done].
    destruct (Z.leb_spec (witnessHeight nd) h); [|done].
    destruct (Nat.ltb_spec 1 (length (witnesses nd))); [|done].
    destruct Hno. by exists nf.
  - apply DecrementNoteWitness_spec.
Qed.

(** C3 (as amended): DecrementNoteWitnesses keeps every wallet
    transaction and every note; a note with a cached nullifier, a spend
    depth within WITNESS_CACHE_SIZE, a witness height not above the
    disconnected block and more than one witness loses its front witness
    (the newest) and gets witness height [pindex->nHeight - 1]; every
    other note is unchanged; no note loses its last witness. *)
Theorem rewind_drops_newest (c : Chain) (h : Z) (w : CWallet) (id : uint256) (wtx : CWalletTx) :
  mapWallet w !! id = Some wtx ->
  exists wtx',
    mapWallet (DecrementNoteWitnesses SIZE c h w) !! id = Some wtx' /\
    (forall op nd, mapSproutNoteData wtx !! op = Some nd ->
       exists nd', mapSproutNoteData wtx' !! op = Some nd' /\
                   rewound SIZE (GetSproutSpendDepth c w) h nd nd') /\
    (forall op nd, mapSaplingNoteData wtx !! op = Some nd ->
       exists nd', mapSaplingNoteData wtx' !! op = Some nd' /\
                   rewound SIZE (GetSaplingSpendDepth c w) h nd nd').
Proof.
  intros Hid. unfold DecrementNoteWitnesses. simpl.
  rewrite lookup_fmap, Hid. simpl. eexists. split; [done|]. simpl. split.
  - intros op nd Hop. rewrite lookup_fmap, Hop. simpl. eexists. split; [done|].
    apply DecrementNoteWitness_rewound.
  - intros op nd Hop. rewrite lookup_fmap, Hop. simpl. eexists. split; [done|].
    apply DecrementNoteWitness_rewound.
Qed.

End Rewind.

Lemma witness_cache_bound_witness :
  witness_bound 2 Samples.note_wallet /\
  ((forall w', cache_run 2 Samples.cache_ops Samples.note_wallet = Some w' -> witness_bound 2 w') /\
   ((1 <= 2)%nat -> witness_present Samples.note_wallet ->
    exists w', cache_run 2 Samples.cache_ops Samples.note_wallet = Some w' /\ witness_present w')).
Proof.
  assert (H : witness_bound 2 Samples.note_wallet).
  { unfold witness_bound, notes_with_nullifier.
    apply (bool_decide_unpack _). vm_compute. exact I. }
  split; [exact H|].
  exact (witness_cache_bound 2 Samples.cache_ops Samples.note_wallet H).
Defined.

Lemma rewind_drops_newest_witness :
  mapWallet Samples.extended_wallet !! 1%N
    = Some (with_notes {[ (1%N, 0%N, 0%N) :=
                            with_witnesses [Samples.witness1; Samples.witness0] 10 Samples.note0 ]}
              ∅ Samples.note_tx) /\
  exists wtx',
    mapWallet (DecrementNoteWitnesses 100 Samples.chain 10 Samples.extended_wallet) !! 1%N
      = Some wtx' /\
    (forall op nd,
       mapSproutNoteData
         (with_notes {[ (1%N, 0%N, 0%N) :=
                          with_witnesses [Samples.witness1; Samples.witness0] 10 Samples.note0 ]}
            ∅ Samples.note_tx) !! op = Some nd ->
       exists nd', mapSproutNoteData wtx' !! op = Some nd' /\
                   rewound 100 (GetSproutSpendDepth Samples.chain Samples.extended_wallet) 10 nd nd') /\
    (forall op nd,
       mapSaplingNoteData
         (with_notes {[ (1%N, 0%N, 0%N) :=
                          with_witnesses [Samples.witness1; Samples.witness0] 10 Samples.note0 ]}
            ∅ Samples.note_tx) !! op = Some nd ->
       exists nd', mapSaplingNoteData wtx' !! op = Some nd' /\
                   rewound 100 (GetSaplingSpendDepth Samples.chain Samples.extended_wallet) 10 nd nd').
Proof.
  assert (H : mapWallet Samples.extended_wallet !! 1%N
    = Some (with_notes {[ (1%N, 0%N, 0%N) :=
                            with_witnesses [Samples.witness1; Samples.witness0] 10 Samples.note0 ]}
              ∅ Samples.note_tx)) by reflexivity.
  split; [exact H|].
  exact (rewind_drops_newest 100 Samples.chain 10 Samples.extended_wallet 1%N _ H).
Defined.

(** C3, the claim as written fails: the sample note holds [witness1]
    (pushed when block 10 was folded in) in front of the older [witness0];
    disconnecting block 10 leaves [witness0], the oldest entry, whereas
    dropping the oldest entry would leave [witness1]. *)
Lemma rewind_drops_oldest_counterexample :
  cache_run 100 [Extend Samples.chain Samples.block10] Samples.note_wallet
    = Some Samples.extended_wallet /\
  witnesses <$> Samples.sprout_note Samples.extended_wallet 1%N (1%N, 0%N, 0%N)
    = Some [Samples.witness1; Samples.witness0] /\
  witnesses <$> Samples.sprout_note
      (DecrementNoteWitnesses 100 Samples.chain 10 Samples.extended_wallet) 1%N (1%N, 0%N, 0%N)
    = Some [Samples.witness0] /\
  removelast [Samples.witness1; Samples.witness0] <> [Samples.witness0].
Proof. split; [|split; [|split]]; [by vm_compute..|]. by vm_compute. Qed.

(** ** The walk over the spend graph *)

Lemma foldr_min_elem (l : list N) (x : N) :
  foldr (fun x acc => match acc with None => Some x | Some y => Some (N.min x y) end) None l
    = Some x ->
  x ∈ l /\ forall y, y ∈ l -> (x <= y)%N.
Proof.
  revert x. induction l as [|a l IH]; intros x; simpl; [done|].
  destruct (foldr _ None l) as [y|] eqn:Hf.
  - intros [= <-]. destruct (IH y eq_refl) as [Hy Hmin]. clear IH. split.
    + destruct (N.min_spec a y) as [[_ ->]|[_ ->]]; [left|by right].
    + intros z [->|Hz]%elem_of_cons; [lia|]. specialize (Hmin z Hz). lia.
  - intros [= <-]. clear IH. destruct l as [|b l]; [|simpl in Hf; by destruct (foldr _ None l)].
    split; [left|]. intros y [->|Hy]%elem_of_cons; [lia|]. by apply elem_of_nil in Hy.
Qed.

Lemma set_begin_None (s : gset N) : set_begin s = None -> s = ∅.
Proof.
  unfold set_begin. intros Hf.
  destruct (elements s) as [|a l] eqn:He.
  - by apply elements_empty_inv, leibniz_equiv in He.
  - simpl in Hf. by destruct (foldr _ None l).
Qed.

(** [set_begin] is [*s.begin()]: a member, and the least one. *)
Lemma set_begin_Some (s : gset N) (x : N) :
  set_begin s = Some x -> x ∈ s /\ forall y, y ∈ s -> (x <= y)%N.
Proof.
  unfold set_begin. intros Hf. destruct (foldr_min_elem _ _ Hf) as [Hx Hmin]. split.
  - by apply elem_of_elements.
  - intros y Hy. by apply Hmin, elem_of_elements.
Qed.

Lemma elem_of_enqueue_spends (l : list N) (todo done : gset N) (x : N) :
  x ∈ enqueue_spends l todo done <-> x ∈ todo \/ (x ∈ l /\ x ∉ done).
Proof.
  unfold enqueue_spends. revert todo. induction l as [|a l IH]; intros todo; simpl.
  - set_solver.
  - rewrite IH. case_decide; set_solver.
Qed.

Lemma size_list_to_set_le (l : list N) : (size (list_to_set l : gset N) <= length l)%nat.
Proof.
  induction l as [|a l IH].
  - change (list_to_set [] : gset N) with (∅ : gset N). by rewrite size_empty.
  - change (list_to_set (a :: l) : gset N) with ({[a]} ∪ list_to_set l : gset N).
    rewrite size_union_alt, size_singleton. simpl.
    assert (size (list_to_set l ∖ {[a]} : gset N) <= size (list_to_set l : gset N))%nat
      by (apply subseteq_size; set_solver).
    lia.
Qed.

Section WalkProperties.

Variable on_visit : CWalletTx -> visit.
Variable w0 : CWallet.
Variable root : uint256.

Lemma walk_universe_size : (size (walk_universe w0 root) <= walk_fuel w0)%nat.
Proof.
  unfold walk_universe, walk_fuel. rewrite size_union_alt, size_singleton.
  assert (size (list_to_set (mapTxSpends w0).*2 ∖ {[root]} : gset N)
          <= size (list_to_set (mapTxSpends w0).*2 : gset N))%nat
    by (apply subseteq_size; set_solver).
  pose proof (size_list_to_set_le (mapTxSpends w0).*2) as Hl.
  rewrite length_fmap in Hl. lia.
Qed.

Lemma spends_of_universe a b :
  b ∈ spends_of a (mapTxSpends w0) -> b ∈ walk_universe w0 root.
Proof.
  unfold spends_of, walk_universe. intros Hb.
  apply elem_of_union_r, elem_of_list_to_set.
  apply list_elem_of_fmap in Hb as ([op id] & -> & Hin).
  apply list_elem_of_fmap. exists (op, id). split; [done|].
  by apply list_elem_of_filter in Hin as [_ Hin].
Qed.

Lemma walk_inv_start : walk_inv on_visit w0 root {[root]} ∅ w0.
Proof.
  split.
  - done.
  - done.
  - intros x wtx Hx. set_solver.
  - intros a b Ha. set_solver.
  - intros x Hx. set_solver.
  - right. set_solver.
  - intros x [Hx|Hx]; [set_solver|].
    apply elem_of_singleton in Hx as ->. constructor.
  - intros x Hx. unfold walk_universe. set_solver.
Qed.

(** The loop ends within [walk_fuel] turns, even where an assertion
    would stop it earlier. *)
Lemma walk_spends_enough_fuel fuel todo done w :
  mapTxSpends w = mapTxSpends w0 ->
  (forall x, x ∈ todo -> x ∈ walk_universe w0 root /\ x ∉ done) ->
  (size (walk_universe w0 root ∖ done) <= fuel)%nat ->
  walk_spends on_visit fuel todo done w <> OutOfFuel.
Proof.
  revert todo done w. induction fuel as [|fuel IH]; intros todo done w Hsp Htodo Hsize.
  - destruct (set_begin todo) as [now|] eqn:Hb.
    + exfalso. apply set_begin_Some in Hb as [Hnow _].
      destruct (Htodo now Hnow) as [HU Hnd].
      assert (size (walk_universe w0 root ∖ done) = 0)%nat as Hz by lia.
      apply size_empty_inv in Hz. set_solver.
    + simpl. by rewrite Hb.
  - simpl. destruct (set_begin todo) as [now|] eqn:Hb; [|done].
    apply set_begin_Some in Hb as [Hnow _].
    destruct (Htodo now Hnow) as [HU Hnd].
    assert (size (walk_universe w0 root ∖ (done ∪ {[now]})) <= fuel)%nat as Hsize'.
    { assert (walk_universe w0 root ∖ (done ∪ {[now]}) ⊂ walk_universe w0 root ∖ done) as Hsub.
      { split; [set_solver|]. intros Hc. specialize (Hc now). set_solver. }
      apply subset_size in Hsub. lia. }
    destruct (mapWallet w !! now) as [wtx|]; [|done].
    destruct (on_visit wtx) as [wtx'| |]; [| |done].
    + apply IH; [done| |done]. intros x Hx.
      apply elem_of_enqueue_spends in Hx as [Hx|[Hx Hxd]].
      * destruct (Htodo x) as [HxU Hxn]; [set_solver|]. split; [done|set_solver].
      * split; [|done]. rewrite Hsp in Hx. by eapply spends_of_universe.
    + apply IH; [done| |done]. intros x Hx.
      destruct (Htodo x) as [HxU Hxn]; [set_solver|]. split; [done|set_solver].
Qed.

Lemma walk_spends_terminates :
  walk_spends on_visit (walk_fuel w0) {[root]} ∅ w0 <> OutOfFuel.
Proof.
  apply walk_spends_enough_fuel; [done| |].
  - intros x Hx. split; [unfold walk_universe|]; set_solver.
  - etrans; [|apply walk_universe_size]. apply subseteq_size. set_solver.
Qed.

(** No assertion of the loop fails on a transaction the walk meets. *)
Hypothesis walk_safe :
  forall x, visited on_visit w0 root x ->
    exists wtx, mapWallet w0 !! x = Some wtx /\ on_visit wtx <> AssertFail.

Lemma walk_spends_finishes fuel todo done w :
  walk_inv on_visit w0 root todo done w ->
  (size (walk_universe w0 root ∖ done) <= fuel)%nat ->
  exists w' done',
    walk_spends on_visit fuel todo done w = Finished w' /\
    walk_inv on_visit w0 root ∅ done' w'.
Proof.
  revert todo done w. induction fuel as [|fuel IH]; intros todo done w Hinv Hsize.
  - destruct (set_begin todo) as [now|] eqn:Hb.
    + exfalso. apply set_begin_Some in Hb as [Hnow _].
      assert (now ∈ walk_universe w0 root ∖ done) as Hin.
      { apply elem_of_difference. split; [by eapply inv_universe|by eapply inv_disjoint]. }
      assert (size (walk_universe w0 root ∖ done) = 0)%nat as Hz by lia.
      apply size_empty_inv in Hz. set_solver.
    + simpl. rewrite Hb. apply set_begin_None in Hb as ->. eauto.
  - simpl. destruct (set_begin todo) as [now|] eqn:Hb.
    2:{ apply set_begin_None in Hb as ->. eauto. }
    apply set_begin_Some in Hb as [Hnow _].
    pose proof (inv_disjoint _ _ _ _ _ _ Hinv _ Hnow) as Hnd.
    pose proof (inv_universe _ _ _ _ _ _ Hinv _ Hnow) as HU.
    assert (visited on_visit w0 root now) as Hvis by (eapply inv_visited; eauto).
    destruct (walk_safe _ Hvis) as (wtx & Hwtx & Hok).
    rewrite (inv_untouched _ _ _ _ _ _ Hinv _ Hnd), Hwtx.
    assert (size (walk_universe w0 root ∖ (done ∪ {[now]})) <= fuel)%nat as Hsize'.
    { assert (walk_universe w0 root ∖ (done ∪ {[now]}) ⊂ walk_universe w0 root ∖ done) as Hsub.
      { split; [set_solver|]. intros Hc. specialize (Hc now). set_solver. }
      apply subset_size in Hsub. lia. }
    destruct (on_visit wtx) as [wtx'| |] eqn:Hv; [| |done].
    + (* the transaction is rewritten and its spends are queued *)
      apply IH; [|done]. destruct Hinv as [Hsp Hun Hdone Hcl Hdis Hroot Hvi Huni].
      assert (marks on_visit w0 now) as Hmarks by (exists wtx, wtx'; done).
      split; simpl.
      * done.
      * intros x Hx. rewrite lookup_insert_ne by set_solver. apply Hun. set_solver.
      * intros x wtx0 Hx Hx0. destruct (decide (x = now)) as [->|Hne].
        -- rewrite lookup_insert_eq. unfold after_visit.
           rewrite Hwtx in Hx0. injection Hx0 as <-. by rewrite Hv.
        -- rewrite lookup_insert_ne by done. apply Hdone; [set_solver|done].
      * intros a b Ha Hma Hb. rewrite elem_of_enqueue_spends, Hsp.
        destruct (decide (a = now)) as [->|Hne].
        -- destruct (decide (b ∈ done ∪ {[now]})); [by left|]. right. right. done.
        -- destruct (Hcl a b) as [Hbd|Hbt]; [set_solver|done|done|set_solver|].
           destruct (decide (b = now)) as [->|Hbn]; [set_solver|]. right. left. set_solver.
      * intros x Hx. apply elem_of_enqueue_spends in Hx as [Hx|[_ Hx]]; [|done].
        assert (x ∉ done) by (apply Hdis; set_solver). set_solver.
      * destruct Hroot as [Hr|Hr]; [set_solver|].
        destruct (decide (root = now)) as [->|Hne]; [set_solver|].
        right. apply elem_of_enqueue_spends. left. set_solver.
      * intros x [Hx|Hx].
        -- apply elem_of_union in Hx as [Hx|Hx]; [by apply Hvi; left|].
           by apply elem_of_singleton in Hx as ->.
        -- apply elem_of_enqueue_spends in Hx as [Hx|[Hx _]].
           ++ apply Hvi. right. set_solver.
           ++ rewrite Hsp in Hx. by eapply visited_spend.
      * intros x Hx. apply elem_of_enqueue_spends in Hx as [Hx|[Hx _]].
        -- apply Huni. set_solver.
        -- rewrite Hsp in Hx. by eapply spends_of_universe.
    + (* the transaction is left as it is *)
      apply IH; [|done]. destruct Hinv as [Hsp Hun Hdone Hcl Hdis Hroot Hvi Huni].
      split.
      * done.
      * intros x Hx. apply Hun. set_solver.
      * intros x wtx0 Hx Hx0. destruct (decide (x = now)) as [->|Hne].
        -- rewrite (Hun _ Hnd). unfold after_visit.
           rewrite Hwtx in Hx0. injection Hx0 as <-. by rewrite Hv, Hwtx.
        -- apply Hdone; [set_solver|done].
      * intros a b Ha Hma Hb. destruct (decide (a = now)) as [->|Hne].
        -- destruct Hma as (wtx1 & wtx1' & H1 & H2). rewrite Hwtx in H1.
           injection H1 as <-. congruence.
        -- destruct (Hcl a b) as [Hbd|Hbt]; [set_solver|done|done|set_solver|].
           destruct (decide (b = now)) as [->|Hbn]; set_solver.
      * intros x Hx. assert (x ∉ done) by (apply Hdis; set_solver). set_solver.
      * destruct Hroot as [Hr|Hr]; [set_solver|].
        destruct (decide (root = now)) as [->|Hne]; set_solver.
      * intros x [Hx|Hx].
        -- apply elem_of_union in Hx as [Hx|Hx]; [by apply Hvi; left|].
           by apply elem_of_singleton in Hx as ->.
        -- apply Hvi. right. set_solver.
      * intros x Hx. apply Huni. set_solver.
Qed.

Lemma walk_inv_end done w' x :
  walk_inv on_visit w0 root ∅ done w' ->
  (visited on_visit w0 root x <-> x ∈ done).
Proof.
  intros [Hsp Hun Hdone Hcl Hdis Hroot Hvi Huni]. split.
  - induction 1 as [|a b Ha IHa Hma Hb].
    + destruct Hroot; set_solver.
    + destruct (Hcl a b IHa Hma Hb); set_solver.
  - intros Hx. apply Hvi. by left.
Qed.

(** The walk started from [root] ends, and rewrites exactly the
    transactions it meets. *)
Lemma walk_spends_spec :
  exists w',
    walk_spends on_visit (walk_fuel w0) {[root]} ∅ w0 = Finished w' /\
    mapTxSpends w' = mapTxSpends w0 /\
    (forall x wtx, visited on_visit w0 root x -> mapWallet w0 !! x = Some wtx ->
                   mapWallet w' !! x = Some (after_visit on_visit wtx)) /\
    (forall x, ~ visited on_visit w0 root x -> mapWallet w' !! x = mapWallet w0 !! x).
Proof.
  destruct (walk_spends_finishes (walk_fuel w0) {[root]} ∅ w0 walk_inv_start)
    as (w' & done & Hrun & Hinv).
  { etrans; [|apply walk_universe_size]. apply subseteq_size. set_solver. }
  exists w'. split; [done|]. split; [by destruct Hinv|]. split.
  - intros x wtx Hx Hw. eapply inv_done; [done| |done]. by eapply walk_inv_end.
  - intros x Hx. eapply inv_untouched; [done|]. intros Hd. apply Hx.
    by eapply walk_inv_end.
Qed.

End WalkProperties.

(** ** CWallet::MarkConflicted *)

Lemma MarkConflicted_visit_safe c hb cc wtx : MarkConflicted_visit c hb cc wtx <> AssertFail.
Proof. unfold MarkConflicted_visit. by destruct (_ <? _). Qed.

(** C9: when the depth of the conflicting block is not positive (the
    block is unknown or off the main chain), MarkConflicted returns the
    wallet as it was: same transactions, same spend index, same database
    log. *)
Theorem MarkConflicted_unknown_block (c : Chain) (hashBlock_ hashTx : uint256) (w : CWallet) :
  getBlockDepth c hashBlock_ <= 0 ->
  MarkConflicted c hashBlock_ hashTx w = Finished w.
Proof.
  intros Hd. unfold MarkConflicted.
  destruct (Z.leb_spec 0 (- getBlockDepth c hashBlock_)); [done|lia].
Qed.

Lemma MarkConflicted_unknown_block_witness :
  getBlockDepth Samples.chain 777%N <= 0 /\
  MarkConflicted Samples.chain 777%N 1%N Samples.cycle_wallet = Finished Samples.cycle_wallet.
Proof.
  assert (H : getBlockDepth Samples.chain 777%N <= 0) by (vm_compute; discriminate).
  split; [exact H|].
  exact (MarkConflicted_unknown_block Samples.chain 777%N 1%N Samples.cycle_wallet H).
Defined.

(** C2 (as amended): MarkConflicted never runs out of steps, whatever the
    spend graph (circles included).  For a block on the main chain, and
    with all transactions met in the wallet (which the loop asserts), it
    returns, and every transaction it meets -- [hashTx] and, transitively,
    the spenders of the transparent outputs of each transaction it marks --
    is conflicted afterwards: marked with the block when it was less
    conflicted than the block, and left as it was (already at least as
    conflicted) otherwise. *)
Theorem conflict_propagation (c : Chain) (hashBlock_ hashTx : uint256) (w : CWallet) :
  MarkConflicted c hashBlock_ hashTx w <> OutOfFuel /\
  (0 < getBlockDepth c hashBlock_ ->
   (forall x, conflict_reaches c hashBlock_ w hashTx x -> is_Some (mapWallet w !! x)) ->
   exists w',
     MarkConflicted c hashBlock_ hashTx w = Finished w' /\
     forall x wtx,
       conflict_reaches c hashBlock_ w hashTx x -> mapWallet w !! x = Some wtx ->
       exists wtx',
         mapWallet w' !! x = Some wtx' /\
         (- getBlockDepth c hashBlock_ < GetDepthInMainChain c wtx ->
            status (m_confirm wtx') = CONFLICTED /\ hashBlock (m_confirm wtx') = hashBlock_) /\
         (GetDepthInMainChain c wtx <= - getBlockDepth c hashBlock_ ->
            wtx' = wtx /\ GetDepthInMainChain c wtx < 0)).
Proof.
  split.
  { unfold MarkConflicted. destruct (0 <=? _); [done|]. apply walk_spends_terminates. }
  intros Hd Hin. unfold MarkConflicted.
  destruct (Z.leb_spec 0 (- getBlockDepth c hashBlock_)); [lia|].
  destruct (walk_spends_spec
              (MarkConflicted_visit c hashBlock_ (- getBlockDepth c hashBlock_)) w hashTx)
    as (w' & Hrun & _ & Hvis & _).
  { intros x Hx. destruct (Hin x Hx) as [wtx Hwtx]. exists wtx. split; [done|].
    apply MarkConflicted_visit_safe. }
  exists w'. split; [done|]. intros x wtx Hx Hwtx.
  rewrite (Hvis x wtx Hx Hwtx). eexists. split; [done|].
  unfold after_visit, MarkConflicted_visit.
  destruct (Z.ltb_spec (- getBlockDepth c hashBlock_) (GetDepthInMainChain c wtx)).
  - split; [done|lia].
  - split; [lia|]. intros _. split; [done|lia].
Qed.

(** The spenders of the outputs of a marked transaction are met. *)
Lemma conflict_reaches_spender c hb w hashTx a b op wtx :
  conflict_reaches c hb w hashTx a ->
  mapWallet w !! a = Some wtx ->
  - getBlockDepth c hb < GetDepthInMainChain c wtx ->
  (op, b) ∈ mapTxSpends w -> COutPoint.hash op = a ->
  conflict_reaches c hb w hashTx b.
Proof.
  intros Ha Hwtx Hd Hin Hop. eapply visited_spend; [exact Ha| |].
  - exists wtx. eexists. split; [done|]. unfold MarkConflicted_visit.
    by destruct (Z.ltb_spec (- getBlockDepth c hb) (GetDepthInMainChain c wtx)); [|lia].
  - unfold spends_output_of, spends_of. apply list_elem_of_fmap. exists (op, b).
    split; [done|]. by apply list_elem_of_filter.
Qed.

Lemma cycle_wallet_visited on_visit x :
  visited on_visit Samples.cycle_wallet 1%N x -> x ∈ [1%N; 2%N; 3%N].
Proof.
  induction 1 as [|a b Ha IHa Hma Hb]; [set_solver|].
  clear Hma Ha. unfold spends_output_of in Hb.
  assert (a = 1%N \/ a = 2%N \/ a = 3%N) as [-> | [-> | ->]] by set_solver;
    vm_compute in Hb; set_solver.
Qed.

Lemma conflict_propagation_witness :
  0 < getBlockDepth Samples.chain 501%N /\
  exists w',
    MarkConflicted Samples.chain 501%N 1%N Samples.cycle_wallet = Finished w' /\
    forall x wtx,
      conflict_reaches Samples.chain 501%N Samples.cycle_wallet 1%N x ->
      mapWallet Samples.cycle_wallet !! x = Some wtx ->
      exists wtx',
        mapWallet w' !! x = Some wtx' /\
        (- getBlockDepth Samples.chain 501%N < GetDepthInMainChain Samples.chain wtx ->
           status (m_confirm wtx') = CONFLICTED /\ hashBlock (m_confirm wtx') = 501%N) /\
        (GetDepthInMainChain Samples.chain wtx <= - getBlockDepth Samples.chain 501%N ->
           wtx' = wtx /\ GetDepthInMainChain Samples.chain wtx < 0).
Proof.
  assert (H : 0 < getBlockDepth Samples.chain 501%N) by reflexivity.
  split; [exact H|].
  apply (proj2 (conflict_propagation Samples.chain 501%N 1%N Samples.cycle_wallet) H).
  intros x Hx. apply cycle_wallet_visited in Hx.
  assert (x = 1%N \/ x = 2%N \/ x = 3%N) as [-> | [-> | ->]] by set_solver;
    vm_compute; eauto.
Defined.

(** A circle of three mutual spends: the walk ends and all three
    transactions are conflicted. *)
Example MarkConflicted_three_cycle :
  Samples.statuses (MarkConflicted Samples.chain 501%N 1%N Samples.cycle_wallet)
                   [1%N; 2%N; 3%N]
  = [Some CONFLICTED; Some CONFLICTED; Some CONFLICTED].
Proof. by vm_compute. Qed.

(** C2, the claim as written fails: transaction 2 reveals the nullifier of
    a note of transaction 1, yet it stays unconfirmed when transaction 1
    is marked conflicted; only the spender of a transparent output
    (transaction 3) follows. *)
Lemma nullifier_spender_not_conflicted_counterexample :
  (exists a b, mapWallet Samples.note_spend_wallet !! 1%N = Some a /\
               mapWallet Samples.note_spend_wallet !! 2%N = Some b /\
               spends_nullifier_of b a) /\
  Samples.statuses (MarkConflicted Samples.chain 501%N 1%N Samples.note_spend_wallet)
                   [1%N; 2%N; 3%N]
  = [Some CONFLICTED; Some UNCONFIRMED; Some CONFLICTED].
Proof.
  split; [|by vm_compute].
  eexists _, _. split; [by vm_compute|]. split; [by vm_compute|].
  left. exists (1%N, 0%N, 0%N), Samples.note0, 7%N.
  split; [by vm_compute|]. split; [done|]. vm_compute. set_solver.
Qed.

(** ** CWallet::AbandonTransaction *)

(** C4 (as amended): AbandonTransaction returns false, leaving the wallet
    alone, exactly when the transaction's depth is not 0 (confirmed, or
    conflicted) or it is in the mempool.  Otherwise, provided the asserts
    of the loop hold on the transactions it meets, it returns true and
    every transaction met -- [hashTx] and, transitively, the spenders of the
    transparent outputs of each transaction it abandons -- that has depth 0
    is abandoned afterwards; a conflicted one is left as it is. *)
Theorem abandon_at_depth_zero (c : Chain) (hashTx : uint256) (w : CWallet) (origtx : CWalletTx) :
  mapWallet w !! hashTx = Some origtx ->
  (GetDepthInMainChain c origtx <> 0 \/ InMempool origtx = true ->
     AbandonTransaction c hashTx w = Finished (false, w)) /\
  (GetDepthInMainChain c origtx = 0 -> InMempool origtx = false ->
   (forall x, abandon_reaches c w hashTx x ->
      exists wtx, mapWallet w !! x = Some wtx /\ GetDepthInMainChain c wtx <= 0 /\
        (GetDepthInMainChain c wtx = 0 -> isAbandoned wtx = false -> InMempool wtx = false)) ->
   exists w',
     AbandonTransaction c hashTx w = Finished (true, w') /\
     forall x wtx,
       abandon_reaches c w hashTx x -> mapWallet w !! x = Some wtx ->
       exists wtx',
         mapWallet w' !! x = Some wtx' /\
         (GetDepthInMainChain c wtx = 0 -> status (m_confirm wtx') = ABANDONED) /\
         (GetDepthInMainChain c wtx < 0 -> wtx' = wtx)).
Proof.
  intros Horig. unfold AbandonTransaction. rewrite Horig. split.
  - intros [Hd|Hm].
    + by destruct (Z.eqb_spec (GetDepthInMainChain c origtx) 0).
    + rewrite Hm. by rewrite orb_true_r.
  - intros Hd Hm Hsafe. rewrite Hd, Hm.
    change (negb (0 =? 0) || false) with false. cbv iota.
    destruct (walk_spends_spec (AbandonTransaction_visit c) w hashTx)
      as (w' & Hrun & _ & Hvis & _).
    { intros x Hx. destruct (Hsafe x Hx) as (wtx & Hwtx & Hle & Hmem).
      exists wtx. split; [done|]. unfold AbandonTransaction_visit.
      destruct (Z.leb_spec (GetDepthInMainChain c wtx) 0); [simpl|lia].
      destruct (Z.eqb_spec (GetDepthInMainChain c wtx) 0); [|done].
      destruct (isAbandoned wtx) eqn:Hab; [done|]. simpl.
      by rewrite (Hmem ltac:(done) ltac:(done)). }
    rewrite Hrun. exists w'. split; [done|]. intros x wtx Hx Hwtx.
    rewrite (Hvis x wtx Hx Hwtx). eexists. split; [done|].
    destruct (Hsafe x Hx) as (wtx0 & Hwtx0 & Hle & Hmem).
    rewrite Hwtx in Hwtx0. injection Hwtx0 as <-.
    unfold after_visit, AbandonTransaction_visit.
    destruct (Z.leb_spec (GetDepthInMainChain c wtx) 0); [simpl|lia].
    destruct (Z.eqb_spec (GetDepthInMainChain c wtx) 0) as [H0|H0]; simpl.
    + destruct (isAbandoned wtx) eqn:Hab; simpl.
      * split; [|lia]. intros _. unfold isAbandoned in Hab. by apply bool_decide_eq_true in Hab.
      * rewrite (Hmem H0 eq_refl). split; [done|lia].
    + split; [lia|done].
Qed.

Lemma abandon_at_depth_zero_witness :
  mapWallet Samples.cycle_wallet !! 1%N
    = Some (Samples.wallet_tx (Samples.plain_tx 1 [Samples.outpoint 3 0]) Samples.unconfirmed) /\
  exists w',
    AbandonTransaction Samples.chain 1%N Samples.cycle_wallet = Finished (true, w') /\
    forall x wtx,
      abandon_reaches Samples.chain Samples.cycle_wallet 1%N x ->
      mapWallet Samples.cycle_wallet !! x = Some wtx ->
      exists wtx',
        mapWallet w' !! x = Some wtx' /\
        (GetDepthInMainChain Samples.chain wtx = 0 -> status (m_confirm wtx') = ABANDONED) /\
        (GetDepthInMainChain Samples.chain wtx < 0 -> wtx' = wtx).
Proof.
  assert (H : mapWallet Samples.cycle_wallet !! 1%N
    = Some (Samples.wallet_tx (Samples.plain_tx 1 [Samples.outpoint 3 0]) Samples.unconfirmed))
    by reflexivity.
  split; [exact H|].
  apply (proj2 (abandon_at_depth_zero Samples.chain 1%N Samples.cycle_wallet _ H));
    [reflexivity|reflexivity|].
  intros x Hx. apply cycle_wallet_visited in Hx.
  assert (x = 1%N \/ x = 2%N \/ x = 3%N) as [-> | [-> | ->]] by set_solver;
    (eexists; split; [by vm_compute|split; [by vm_compute|done]]).
Defined.

(** All three transactions of the circle are abandoned. *)
Example AbandonTransaction_three_cycle :
  match AbandonTransaction Samples.chain 1%N Samples.cycle_wallet with
  | Finished (b, w') => Some (b, Samples.status_of w' <$> [1%N; 2%N; 3%N])
  | _ => None
  end = Some (true, [Some ABANDONED; Some ABANDONED; Some ABANDONED]).
Proof. by vm_compute. Qed.

(** C4, the claim as written fails: transaction 4 is conflicted with the
    tip, so its depth is -1, not greater than 0, and it is not in the
    mempool; AbandonTransaction returns false all the same. *)
Lemma abandon_conflicted_counterexample :
  mapWallet Samples.conflicted_wallet !! 4%N
    = Some (Samples.wallet_tx (Samples.plain_tx 4 []) (Samples.conflicted_with 501)) /\
  GetDepthInMainChain Samples.chain
    (Samples.wallet_tx (Samples.plain_tx 4 []) (Samples.conflicted_with 501)) = -1 /\
  InMempool (Samples.wallet_tx (Samples.plain_tx 4 []) (Samples.conflicted_with 501)) = false /\
  AbandonTransaction Samples.chain 4%N Samples.conflicted_wallet
    = Finished (false, Samples.conflicted_wallet).
Proof. repeat split; by vm_compute. Qed.

(** ** Spent queries *)

Lemma elem_of_equal_range {K} `{EqDecision K} (k : K) (v : N) (m : list (K * N)) :
  v ∈ equal_range k m <-> (k, v) ∈ m.
Proof.
  unfold equal_range. rewrite list_elem_of_fmap. split.
  - intros ([k' v'] & -> & Hin). apply list_elem_of_filter in Hin as [Hk Hin].
    simpl in *. by subst.
  - intros Hin. exists (k, v). split; [done|]. by apply list_elem_of_filter.
Qed.

Lemma spent_in_iff (c : Chain) (m : gmap N CWalletTx) (range : list N) :
  spent_in c m range = true <->
  exists wtxid wtx, wtxid ∈ range /\ m !! wtxid = Some wtx /\ spends_now c wtx.
Proof.
  induction range as [|id range IH]; simpl.
  - split; [done|]. intros (? & ? & Hin & _). by apply elem_of_nil in Hin.
  - destruct (m !! id) as [mit|] eqn:Hid.
    + destruct (_ || _) eqn:Htest.
      * split; [|done]. intros _. exists id, mit. split; [left|]. split; [done|].
        unfold spends_now. apply orb_true_iff in Htest as [H|H].
        -- left. by apply Z.ltb_lt.
        -- right. apply andb_true_iff in H as [H1 H2]. apply Z.eqb_eq in H1.
           by apply negb_true_iff in H2.
      * rewrite IH. split.
        -- intros (x & wtx & Hin & Hx & Hs). exists x, wtx. split; [by right|done].
        -- intros (x & wtx & Hin & Hx & Hs). exists x, wtx.
           apply elem_of_cons in Hin as [->|Hin]; [|done].
           exfalso. rewrite Hid in Hx. injection Hx as <-.
           apply orb_false_iff in Htest as [H1 H2]. apply Z.ltb_ge in H1.
           destruct Hs as [Hs|[Hs Ha]]; [lia|].
           rewrite Hs, Ha in H2. done.
    + rewrite IH. split.
      * intros (x & wtx & Hin & Hx & Hs). exists x, wtx. split; [by right|done].
      * intros (x & wtx & Hin & Hx & Hs). exists x, wtx.
        apply elem_of_cons in Hin as [->|Hin]; [congruence|done].
Qed.

(** C5 (as amended): an outpoint, a Sprout nullifier or a Sapling
    nullifier is spent exactly when some wallet transaction registered
    for it in the spend index has positive depth, or has depth 0 and is
    not abandoned.  The mempool is not consulted. *)
Theorem is_spent_iff (c : Chain) (w : CWallet) :
  (forall hash n,
     IsSpent c w hash n = true <->
     exists wtxid wtx, (COutPoint.mk hash n, wtxid) ∈ mapTxSpends w /\
       mapWallet w !! wtxid = Some wtx /\ spends_now c wtx) /\
  (forall nf,
     IsSproutSpent c w nf = true <->
     exists wtxid wtx, (nf, wtxid) ∈ mapTxSproutNullifiers w /\
       mapWallet w !! wtxid = Some wtx /\ spends_now c wtx) /\
  (forall nf,
     IsSaplingSpent c w nf = true <->
     exists wtxid wtx, (nf, wtxid) ∈ mapTxSaplingNullifiers w /\
       mapWallet w !! wtxid = Some wtx /\ spends_now c wtx).
Proof.
  unfold IsSpent, IsSproutSpent, IsSaplingSpent.
  split; [|split]; intros; rewrite spent_in_iff;
    split; intros (x & wtx & Hin & Hx & Hs); exists x, wtx;
    (split; [by apply elem_of_equal_range in Hin || by apply elem_of_equal_range|done]).
Qed.

(** C5, the claim as written fails: the only transaction registered for
    outpoint (1, 0) is unconfirmed and not in the mempool, so no spender
    meets the claim's conditions, yet the outpoint is reported spent. *)
Lemma spent_without_mempool_counterexample :
  IsSpent Samples.chain Samples.spend_wallet 1%N 0%N = true /\
  forall wtxid wtx,
    (Samples.outpoint 1 0, wtxid) ∈ mapTxSpends Samples.spend_wallet ->
    mapWallet Samples.spend_wallet !! wtxid = Some wtx ->
    ~ (isConflicted wtx = false /\ isAbandoned wtx = false /\
       (0 < GetDepthInMainChain Samples.chain wtx \/
        (GetDepthInMainChain Samples.chain wtx = 0 /\ InMempool wtx = true))).
Proof.
  split; [by vm_compute|].
  intros wtxid wtx Hin Hw. simpl in Hin.
  apply list_elem_of_singleton in Hin. injection Hin as ->.
  vm_compute in Hw. injection Hw as <-.
  intros (_ & _ & [H|[_ H]]); by vm_compute in H.
Qed.

(** ** CWallet::UpdatedNoteData and the update branch of AddToWallet *)

Lemma patch_note_data_keeps {K} `{Countable K} (tmp stored m' : gmap K NoteData) op nd :
  patch_note_data tmp stored = Some m' ->
  stored !! op = Some nd -> witnesses nd <> [] ->
  exists nd', m' !! op = Some nd' /\ witnesses nd' = witnesses nd.
Proof.
  unfold patch_note_data. case_decide as Hdom; [|done]. intros [= <-] Hop Hne.
  assert (is_Some (tmp !! op)) as [a Ha].
  { apply elem_of_dom, Hdom, elem_of_dom. eauto. }
  rewrite lookup_merge, Ha, Hop. simpl. eexists. split; [done|]. simpl.
  destruct (witnesses nd); [done|]. done.
Qed.

Section UpdateProperties.

Variable IsCoinBase : CTransaction -> bool.
Variable HasWitness : CTransaction -> bool.
Variable SproutNoteData_eq : NoteData -> NoteData -> bool.
Variable SaplingNoteData_eq : NoteData -> NoteData -> bool.

Lemma UpdatedNoteData_keeps wtxIn wtx wtx2 :
  (exists changed, UpdatedNoteData SproutNoteData_eq SaplingNoteData_eq wtxIn wtx
                     = Merged changed wtx2) \/
  UpdatedNoteData SproutNoteData_eq SaplingNoteData_eq wtxIn wtx = OutOfRange wtx2 ->
  keeps_witnesses_of wtx wtxIn wtx2 /\
  tx wtx2 = tx wtx /\ m_confirm wtx2 = m_confirm wtx /\ fFromMe wtx2 = fFromMe wtx.
Proof.
  unfold UpdatedNoteData, keeps_witnesses_of.
  set (f1 := bool_decide (mapSproutNoteData wtxIn = ∅) || _).
  set (f2 := bool_decide (mapSaplingNoteData wtxIn = ∅) || _).
  destruct f1, f2;
    try destruct (patch_note_data (mapSproutNoteData wtxIn) (mapSproutNoteData wtx))
      as [sprout|] eqn:Hsp;
    try destruct (patch_note_data (mapSaplingNoteData wtxIn) (mapSaplingNoteData wtx))
      as [sapling|] eqn:Hsa;
    (intros [[changed Hr]|Hr]; [|]); try discriminate Hr; injection Hr as <-; subst;
    (split; [split|done]); simpl; intros op nd Hop Hne _; eauto;
    try (by eapply patch_note_data_keeps).
Qed.

(** C7: when AddToWallet meets a transaction it already holds, the copy
    it leaves in mapWallet -- on return as well as when UpdatedNoteData
    throws -- has, for every note outpoint present in both the stored
    and the incoming note data with at least one stored witness, the
    stored witnesses.  The call aborts only on the assertion that equal
    statuses come with equal block and index. *)
Theorem update_keeps_cached_witnesses (c : Chain) (WriteTx_ok : bool)
    (wtxIn wtx : CWalletTx) (w : CWallet) :
  mapWallet w !! GetHash wtxIn = Some wtx ->
  (forall w',
     (exists r, AddToWallet IsCoinBase HasWitness SproutNoteData_eq SaplingNoteData_eq
                  c WriteTx_ok wtxIn w = Returned r w') \/
     AddToWallet IsCoinBase HasWitness SproutNoteData_eq SaplingNoteData_eq
       c WriteTx_ok wtxIn w = Thrown w' ->
     exists wtx', mapWallet w' !! GetHash wtxIn = Some wtx' /\
                  keeps_witnesses_of wtx wtxIn wtx') /\
  (AddToWallet IsCoinBase HasWitness SproutNoteData_eq SaplingNoteData_eq
     c WriteTx_ok wtxIn w = Aborted ->
   status (m_confirm wtxIn) = status (m_confirm wtx) /\
   (nIndex (m_confirm wtx) <> nIndex (m_confirm wtxIn) \/
    hashBlock (m_confirm wtx) <> hashBlock (m_confirm wtxIn))).
Proof.
  intros Hw. unfold AddToWallet. rewrite Hw. unfold AddToWallet_update.
  set (step := if bool_decide (status (m_confirm wtxIn) <> status (m_confirm wtx)) then _ else _).
  assert (Hstep : (exists wtx1 upd1, step = Some (wtx1, upd1) /\
                     mapSproutNoteData wtx1 = mapSproutNoteData wtx /\
                     mapSaplingNoteData wtx1 = mapSaplingNoteData wtx) \/
                  (step = None /\ status (m_confirm wtxIn) = status (m_confirm wtx) /\
                   (nIndex (m_confirm wtx) <> nIndex (m_confirm wtxIn) \/
                    hashBlock (m_confirm wtx) <> hashBlock (m_confirm wtxIn)))).
  { subst step. case_bool_decide as Hst.
    - left. eexists _, _. by split.
    - case_bool_decide as Hi; [case_bool_decide as Hh|]; simpl.
      + left. eexists _, _. by split.
      + right. split; [done|]. split; [done|]. by right.
      + right. split; [done|]. split; [done|]. by left. }
  clearbody step. destruct Hstep as [(wtx1 & upd1 & -> & Hn1 & Hn2)|(-> & Hst & Hne)].
  2:{ split; [|done]. by intros w' [[r Hr]|Hr]. }
  assert (Hkeep1 : forall wtx2, keeps_witnesses_of wtx1 wtxIn wtx2 ->
                                keeps_witnesses_of wtx wtxIn wtx2).
  { unfold keeps_witnesses_of. rewrite Hn1, Hn2. done. }
  destruct (UpdatedNoteData SproutNoteData_eq SaplingNoteData_eq wtxIn wtx1)
    as [changed wtx2|wtx2] eqn:Hupd.
  - destruct (UpdatedNoteData_keeps wtxIn wtx1 wtx2) as (Hk & _); [left; eauto|].
    apply Hkeep1 in Hk.
    set (p3 := if fFromMe wtxIn && _ then _ else _).
    assert (H3 : keeps_witnesses_of wtx wtxIn p3.1).
    { subst p3. by destruct (fFromMe wtxIn && _). }
    destruct p3 as [wtx3 upd3]. simpl in H3.
    set (p4 := if HasWitness (tx wtxIn) && _ then _ else _).
    assert (H4 : keeps_witnesses_of wtx wtxIn p4.1).
    { subst p4. by destruct (HasWitness (tx wtxIn) && _). }
    destruct p4 as [wtx4 upd4]. simpl in H4.
    unfold AddToWallet_write, store. simpl. rewrite lookup_insert_eq.
    split; [|by destruct upd4].
    intros w' Hr. exists wtx4. split; [|done].
    destruct upd4; destruct Hr as [[r Hr]|Hr]; try discriminate Hr;
      injection Hr as _ <-; simpl; apply lookup_insert_eq.
  - split; [|done]. intros w' [[r Hr]|Hr]; [done|]. injection Hr as <-.
    exists wtx2. unfold store. simpl. rewrite lookup_insert_eq. split; [done|].
    apply Hkeep1. by apply (UpdatedNoteData_keeps wtxIn wtx1 wtx2); right.
Qed.

End UpdateProperties.

(** ** SyncMetaData and AddToSpends only touch metadata *)

Lemma same_core_refl wtx : same_core wtx wtx.
Proof. by repeat split. Qed.

Lemma same_core_trans a b c : same_core a b -> same_core b c -> same_core a c.
Proof. unfold same_core. intros (?&?&?&?&?) (?&?&?&?&?). repeat split; congruence. Qed.

Lemma metadata_frame_refl w : metadata_frame w w.
Proof. split; [|done]. intros id wtx Hw. exists wtx. split; [done|apply same_core_refl]. Qed.

Lemma metadata_frame_trans w1 w2 w3 :
  metadata_frame w1 w2 -> metadata_frame w2 w3 -> metadata_frame w1 w3.
Proof.
  intros [H1 E1] [H2 E2]. split; [|congruence].
  intros id wtx Hw. destruct (H1 id wtx Hw) as (wtx' & Hw' & Hc).
  destruct (H2 id wtx' Hw') as (wtx'' & Hw'' & Hc'). exists wtx''. split; [done|].
  by eapply same_core_trans.
Qed.

Lemma copy_to_rest_frame from_id copyFrom range w w' :
  copy_to_rest from_id copyFrom range w = Returned tt w' -> metadata_frame w w'.
Proof.
  revert w. induction range as [|hash range IH]; intros w; simpl.
  - intros [= <-]. apply metadata_frame_refl.
  - destruct (mapWallet w !! hash) as [copyTo|] eqn:Hto; [|done].
    case_decide; [by apply IH|].
    destruct (negb _); [by apply IH|]. intros Hr.
    eapply metadata_frame_trans; [|by apply IH]. split; [|done]. simpl.
    intros id wtx Hw. destruct (decide (id = hash)) as [->|Hne].
    + rewrite lookup_insert_eq. eexists. split; [done|].
      rewrite Hto in Hw. injection Hw as <-. by repeat split.
    + rewrite lookup_insert_ne by done. exists wtx. split; [done|apply same_core_refl].
Qed.

Lemma SyncMetaData_frame range w w' :
  SyncMetaData range w = Returned tt w' -> metadata_frame w w'.
Proof.
  unfold SyncMetaData. destruct (find_copyFrom _ _ _ _) as [[from_id|]|]; [| |done].
  - destruct (mapWallet w !! from_id); [|done]. apply copy_to_rest_frame.
  - intros [= <-]. apply metadata_frame_refl.
Qed.

Lemma for_each_frame {A} (body : A -> CWallet -> call_result unit) (l : list A) w w' :
  (forall x w1 w2, body x w1 = Returned tt w2 -> metadata_frame w1 w2) ->
  for_each body l w = Returned tt w' -> metadata_frame w w'.
Proof.
  intros Hbody. revert w. induction l as [|x l IH]; intros w; simpl.
  - intros [= <-]. apply metadata_frame_refl.
  - destruct (body x w) as [[] w1| |] eqn:Hb; simpl; [|done|done].
    intros Hr. eapply metadata_frame_trans; [by eapply Hbody|by apply IH].
Qed.

Lemma AddToTransparentSpends_frame wtxid o w w' :
  AddToTransparentSpends wtxid o w = Returned tt w' -> metadata_frame w w'.
Proof.
  unfold AddToTransparentSpends. intros Hr. apply SyncMetaData_frame in Hr.
  destruct Hr as [H1 H2]. by split.
Qed.

Lemma AddToSproutSpends_frame wtxid nf w w' :
  AddToSproutSpends wtxid nf w = Returned tt w' -> metadata_frame w w'.
Proof.
  unfold AddToSproutSpends. intros Hr. apply SyncMetaData_frame in Hr.
  destruct Hr as [H1 H2]. by split.
Qed.

Lemma AddToSaplingSpends_frame wtxid nf w w' :
  AddToSaplingSpends wtxid nf w = Returned tt w' -> metadata_frame w w'.
Proof.
  unfold AddToSaplingSpends. intros Hr. apply SyncMetaData_frame in Hr.
  destruct Hr as [H1 H2]. by split.
Qed.

Lemma AddToSpends_frame IsCoinBase wtxid w w' :
  AddToSpends IsCoinBase wtxid w = Returned tt w' -> metadata_frame w w'.
Proof.
  unfold AddToSpends. destruct (mapWallet w !! wtxid) as [thisTx|]; [|done].
  destruct (IsCoinBase _); [intros [= <-]; apply metadata_frame_refl|].
  destruct (for_each (AddToTransparentSpends wtxid) _ w) as [[] w1| |] eqn:H1; simpl; [|done|done].
  destruct (for_each (AddToSproutSpends wtxid) _ w1) as [[] w2| |] eqn:H2; simpl; [|done|done].
  intros H3.
  eapply metadata_frame_trans; [|eapply metadata_frame_trans].
  - eapply for_each_frame; [|exact H1]. intros x. apply AddToTransparentSpends_frame.
  - eapply for_each_frame; [|exact H2]. intros x. apply AddToSproutSpends_frame.
  - eapply for_each_frame; [|exact H3]. intros x. apply AddToSaplingSpends_frame.
Qed.

(** ** CWallet::AddToWallet and CWallet::IncOrderPosNext *)

Section AddToWalletProperties.

Variable IsCoinBase : CTransaction -> bool.
Variable HasWitness : CTransaction -> bool.
Variable SproutNoteData_eq : NoteData -> NoteData -> bool.
Variable SaplingNoteData_eq : NoteData -> NoteData -> bool.

Local Abbreviation AddToWallet_ :=
  (AddToWallet IsCoinBase HasWitness SproutNoteData_eq SaplingNoteData_eq).

Lemma AddToWallet_new_spec c ok hash wtxIn w r w' :
  AddToWallet_new IsCoinBase c ok hash wtxIn w = Returned r w' ->
  fInsertedNew r = true /\ fUpdated r = false /\
  nOrderPosNext w < INT64_MAX /\ nOrderPosNext w' = nOrderPosNext w + 1 /\
  exists stored,
    mapWallet w' !! hash = Some stored /\
    tx stored = tx wtxIn /\ m_confirm stored = m_confirm wtxIn /\
    mapSproutNoteData stored = mapSproutNoteData wtxIn /\
    mapSaplingNoteData stored = mapSaplingNoteData wtxIn /\
    nOrderPos stored = nOrderPosNext w.
Proof.
  unfold AddToWallet_new, IncOrderPosNext. simpl.
  destruct (Z.ltb_spec (nOrderPosNext w) INT64_MAX) as [Hlt|]; [simpl|done].
  destruct (ComputeTimeSmart _ _ _ _) as [smart|]; [|done].
  match goal with |- call_bind (AddToSpends _ _ ?x) _ = _ -> _ => set (w3 := x) end.
  destruct (AddToSpends IsCoinBase hash w3) as [[] w4| |] eqn:Hsp; simpl; [|done|done].
  apply AddToSpends_frame in Hsp as [Hfr Hpos].
  destruct (Hfr hash (with_receipt (to_unsigned_int (getAdjustedTime c)) smart
                        (nOrderPosNext w) wtxIn)) as (stored & Hst & Hc).
  { subst w3. unfold store. simpl. apply lookup_insert_eq. }
  unfold AddToWallet_write. simpl. rewrite Hst. intros [= <- <-]. simpl.
  split; [done|]. split; [done|]. split; [done|]. split.
  { rewrite Hpos. by subst w3. }
  exists stored. split; [done|]. destruct Hc as (H1 & H2 & H3 & H4 & H5).
  simpl in *. by repeat split.
Qed.

Lemma AddToWallet_update_spec ok hash wtxIn wtx w r w' :
  AddToWallet_update HasWitness SproutNoteData_eq SaplingNoteData_eq ok hash wtxIn wtx w
    = Returned r w' ->
  fInsertedNew r = false /\ nOrderPosNext w' = nOrderPosNext w /\
  mapTxSpends w' = mapTxSpends w /\
  mapTxSproutNullifiers w' = mapTxSproutNullifiers w /\
  mapTxSaplingNullifiers w' = mapTxSaplingNullifiers w.
Proof.
  unfold AddToWallet_update.
  destruct (if bool_decide (status (m_confirm wtxIn) <> status (m_confirm wtx)) then _ else _)
    as [[wtx1 upd1]|]; [|done].
  destruct (UpdatedNoteData _ _ _ _) as [changed wtx2|wtx2]; [|done].
  destruct (if fFromMe wtxIn && _ then _ else _) as [wtx3 upd3].
  destruct (if HasWitness (tx wtxIn) && _ then _ else _) as [wtx4 upd4].
  unfold AddToWallet_write, store. simpl. rewrite lookup_insert_eq.
  destruct upd4; intros [= <- <-]; done.
Qed.

Lemma assigned_positions_sorted calls w :
  StronglySorted Z.lt (assigned_positions IsCoinBase HasWitness SproutNoteData_eq
                         SaplingNoteData_eq calls w) /\
  Forall (fun pos => nOrderPosNext w <= pos)
         (assigned_positions IsCoinBase HasWitness SproutNoteData_eq
            SaplingNoteData_eq calls w).
Proof.
  revert w. induction calls as [|[[c ok] wtxIn] calls IH]; intros w; simpl.
  - split; constructor.
  - destruct (AddToWallet_ c ok wtxIn w) as [r w'| |] eqn:Hadd; [|split; constructor..].
    destruct (IH w') as [Hs Hf]. unfold AddToWallet in Hadd.
    destruct (mapWallet w !! GetHash wtxIn) as [wtx|] eqn:Hw.
    + apply AddToWallet_update_spec in Hadd as (-> & Hpos & _). simpl.
      by rewrite <- Hpos.
    + apply AddToWallet_new_spec in Hadd
        as (-> & _ & _ & Hpos & stored & -> & _ & _ & _ & _ & ->).
      simpl. split.
      * constructor; [done|]. eapply Forall_impl; [exact Hf|]. simpl. intros pos. lia.
      * constructor; [lia|]. eapply Forall_impl; [exact Hf|]. simpl. intros pos. lia.
Qed.

Lemma IncOrderPosNext_values_spec k w :
  IncOrderPosNext_values k w
  = Z.add (nOrderPosNext w) ∘ Z.of_nat
      <$> seq 0 (Nat.min k (Z.to_nat (INT64_MAX - nOrderPosNext w))).
Proof.
  revert w. induction k as [|k IH]; intros w; [done|].
  simpl IncOrderPosNext_values. unfold IncOrderPosNext.
  destruct (Z.ltb_spec (nOrderPosNext w) INT64_MAX) as [Hlt|Hge].
  - rewrite IH. simpl nOrderPosNext.
    replace (Z.to_nat (INT64_MAX - nOrderPosNext w))
      with (S (Z.to_nat (INT64_MAX - (nOrderPosNext w + 1)))) by lia.
    simpl. f_equal; [lia|]. rewrite <- fmap_S_seq, <- list_fmap_compose.
    apply list_fmap_ext. intros _ i _. simpl. lia.
  - replace (Z.to_nat (INT64_MAX - nOrderPosNext w)) with 0%nat by lia.
    by rewrite Nat.min_0_r.
Qed.

(** C10: IncOrderPosNext returns the counter and leaves it one higher,
    so the values returned by calls in a row are strictly increasing,
    and there are as many as calls while the counter stays below the
    largest [int64_t]; and the order positions AddToWallet gives to the
    transactions it inserts are strictly increasing in the order of
    insertion and are not below the counter the series started with. *)
Theorem order_positions_increase (w : CWallet) :
  (forall k,
     StronglySorted Z.lt (IncOrderPosNext_values k w) /\
     (nOrderPosNext w + Z.of_nat k <= INT64_MAX ->
      length (IncOrderPosNext_values k w) = k)) /\
  (forall calls,
     StronglySorted Z.lt (assigned_positions IsCoinBase HasWitness SproutNoteData_eq
                            SaplingNoteData_eq calls w) /\
     Forall (fun pos => nOrderPosNext w <= pos)
            (assigned_positions IsCoinBase HasWitness SproutNoteData_eq
               SaplingNoteData_eq calls w)).
Proof.
  split; [|intros calls; apply assigned_positions_sorted].
  intros k. rewrite IncOrderPosNext_values_spec. split.
  - generalize (Nat.min k (Z.to_nat (INT64_MAX - nOrderPosNext w))). intros m.
    generalize 0%nat. induction m as [|m IH]; intros s; simpl; constructor.
    + apply IH.
    + apply Forall_fmap, Forall_forall. intros i Hi%elem_of_seq. simpl. lia.
  - intros Hk. rewrite length_fmap, length_seq. lia.
Qed.

End AddToWalletProperties.

Lemma with_notes_same wtx : with_notes (mapSproutNoteData wtx) (mapSaplingNoteData wtx) wtx = wtx.
Proof. by destruct wtx. Qed.

Lemma store_same hash wtx w : mapWallet w !! hash = Some wtx -> store hash wtx w = w.
Proof. intros Hw. unfold store. rewrite insert_id by done. by destruct w. Qed.

Section Reinsertion.

Variable IsCoinBase : CTransaction -> bool.
Variable HasWitness : CTransaction -> bool.
Variable SproutNoteData_eq : NoteData -> NoteData -> bool.
Variable SaplingNoteData_eq : NoteData -> NoteData -> bool.

(** A note record equals itself. *)
Hypothesis SproutNoteData_eq_refl : forall nd, SproutNoteData_eq nd nd = true.
Hypothesis SaplingNoteData_eq_refl : forall nd, SaplingNoteData_eq nd nd = true.

Lemma note_maps_equal_refl {K} `{Countable K} (eqv : NoteData -> NoteData -> bool)
    (m : gmap K NoteData) :
  (forall nd, eqv nd nd = true) -> note_maps_equal eqv m m = true.
Proof.
  intros Hrefl. unfold note_maps_equal. apply andb_true_iff. split.
  - by apply bool_decide_eq_true.
  - apply bool_decide_eq_true. intros k x Hk. rewrite Hk. simpl. apply Hrefl.
Qed.

Lemma UpdatedNoteData_same wtxIn stored :
  mapSproutNoteData stored = mapSproutNoteData wtxIn ->
  mapSaplingNoteData stored = mapSaplingNoteData wtxIn ->
  UpdatedNoteData SproutNoteData_eq SaplingNoteData_eq wtxIn stored = Merged false stored.
Proof.
  intros H1 H2. unfold UpdatedNoteData. rewrite <- H1, <- H2.
  rewrite !note_maps_equal_refl by done. rewrite !orb_true_r. simpl.
  by rewrite with_notes_same.
Qed.

(** C6 (as amended): after AddToWallet has inserted a transaction, a
    second call with the same WalletTx returns, reports no insertion and
    leaves the three spend multimaps as they are (AddToSpends runs on
    insertion only).  It reports no update either, and leaves the whole
    wallet unchanged, unless the incoming copy is marked fFromMe and the
    stored copy lost that mark when SyncMetaData ran at insertion. *)
Theorem reinsert_same_tx (c : Chain) (WriteTx_ok : bool) (wtxIn : CWalletTx)
    (w : CWallet) (r1 : AddResult) (w1 : CWallet) :
  mapWallet w !! GetHash wtxIn = None ->
  AddToWallet IsCoinBase HasWitness SproutNoteData_eq SaplingNoteData_eq
    c WriteTx_ok wtxIn w = Returned r1 w1 ->
  fInsertedNew r1 = true /\
  exists stored,
    mapWallet w1 !! GetHash wtxIn = Some stored /\
    forall c' WriteTx_ok',
    exists r2 w2,
      AddToWallet IsCoinBase HasWitness SproutNoteData_eq SaplingNoteData_eq
        c' WriteTx_ok' wtxIn w1 = Returned r2 w2 /\
      fInsertedNew r2 = false /\
      mapTxSpends w2 = mapTxSpends w1 /\
      mapTxSproutNullifiers w2 = mapTxSproutNullifiers w1 /\
      mapTxSaplingNullifiers w2 = mapTxSaplingNullifiers w1 /\
      ((fFromMe wtxIn = true -> fFromMe stored = true) ->
       fUpdated r2 = false /\ w2 = w1).
Proof.
  intros Hnone Hadd. unfold AddToWallet in Hadd. rewrite Hnone in Hadd.
  apply AddToWallet_new_spec in Hadd
    as (Hnew & _ & _ & _ & stored & Hst & Htx & Hcf & Hsp & Hsa & _).
  split; [done|]. exists stored. split; [done|]. intros c' ok'.
  unfold AddToWallet. rewrite Hst. unfold AddToWallet_update.
  rewrite Hcf. rewrite bool_decide_eq_false_2 by (intros Hne; by apply Hne).
  rewrite !bool_decide_eq_true_2 by done. simpl.
  rewrite (UpdatedNoteData_same wtxIn stored Hsp Hsa). simpl.
  destruct (fFromMe wtxIn) eqn:Hin, (fFromMe stored) eqn:Hstored; simpl;
    rewrite Htx, andb_negb_r.
  - rewrite (store_same _ _ _ Hst). eexists _, _. by repeat split.
  - unfold AddToWallet_write, store. simpl. rewrite lookup_insert_eq.
    eexists _, _. split; [done|]. simpl. do 4 (split; [done|]).
    intros Himp. by specialize (Himp eq_refl).
  - rewrite (store_same _ _ _ Hst). eexists _, _. by repeat split.
  - rewrite (store_same _ _ _ Hst). eexists _, _. by repeat split.
Qed.

End Reinsertion.

Lemma note_eq_refl nd : Samples.note_eq nd nd = true.
Proof. unfold Samples.note_eq. by rewrite !bool_decide_eq_true_2. Qed.

Lemma reinsert_same_tx_witness :
  mapWallet Samples.empty_wallet !! GetHash Samples.tx2 = None /\
  Samples.add_to_wallet Samples.chain true Samples.tx2 Samples.empty_wallet
    = Returned {| ret := true; fInsertedNew := true; fUpdated := false |} Samples.tx2_wallet /\
  (true = true /\
   exists stored,
     mapWallet Samples.tx2_wallet !! GetHash Samples.tx2 = Some stored /\
     forall c' WriteTx_ok',
     exists r2 w2,
       Samples.add_to_wallet c' WriteTx_ok' Samples.tx2 Samples.tx2_wallet = Returned r2 w2 /\
       fInsertedNew r2 = false /\
       mapTxSpends w2 = mapTxSpends Samples.tx2_wallet /\
       mapTxSproutNullifiers w2 = mapTxSproutNullifiers Samples.tx2_wallet /\
       mapTxSaplingNullifiers w2 = mapTxSaplingNullifiers Samples.tx2_wallet /\
       ((fFromMe Samples.tx2 = true -> fFromMe stored = true) ->
        fUpdated r2 = false /\ w2 = Samples.tx2_wallet)).
Proof.
  assert (H1 : mapWallet Samples.empty_wallet !! GetHash Samples.tx2 = None) by reflexivity.
  assert (H2 : Samples.add_to_wallet Samples.chain true Samples.tx2 Samples.empty_wallet
    = Returned {| ret := true; fInsertedNew := true; fUpdated := false |} Samples.tx2_wallet)
    by (vm_compute; reflexivity).
  split; [exact H1|]. split; [exact H2|].
  exact (reinsert_same_tx Samples.is_coinbase Samples.has_witness Samples.note_eq Samples.note_eq
           note_eq_refl note_eq_refl Samples.chain true Samples.tx2 Samples.empty_wallet
           _ _ H1 H2).
Defined.

(** C6, the claim as written fails: [own_tx] is inserted into a wallet
    that already holds the same payment under another id, received from
    the network; SyncMetaData copies that older transaction's metadata,
    fFromMe = false included, onto the new entry, and the second call with
    the same WalletTx sets fFromMe again and reports an update.  The
    spend index stays as it was. *)
Lemma reinsert_reports_update_counterexample :
  Samples.result_of (Samples.add_to_wallet Samples.chain true Samples.own_tx Samples.seen_wallet)
    = Some {| ret := true; fInsertedNew := true; fUpdated := false |} /\
  Samples.result_of
    (Samples.add_to_wallet Samples.chain true Samples.own_tx
       (Samples.wallet_of
          (Samples.add_to_wallet Samples.chain true Samples.own_tx Samples.seen_wallet)
          Samples.seen_wallet))
    = Some {| ret := true; fInsertedNew := false; fUpdated := true |}.
Proof. split; by vm_compute. Qed.

Lemma update_keeps_cached_witnesses_witness :
  mapWallet Samples.extended_wallet !! GetHash Samples.incoming_note_tx
    = Some (with_notes {[ (1%N, 0%N, 0%N) :=
                            with_witnesses [Samples.witness1; Samples.witness0] 10 Samples.note0 ]}
              ∅ Samples.note_tx) /\
  ((forall w',
      (exists r, Samples.add_to_wallet Samples.chain true Samples.incoming_note_tx
                   Samples.extended_wallet = Returned r w') \/
      Samples.add_to_wallet Samples.chain true Samples.incoming_note_tx
        Samples.extended_wallet = Thrown w' ->
      exists wtx', mapWallet w' !! GetHash Samples.incoming_note_tx = Some wtx' /\
        keeps_witnesses_of
          (with_notes {[ (1%N, 0%N, 0%N) :=
                           with_witnesses [Samples.witness1; Samples.witness0] 10 Samples.note0 ]}
             ∅ Samples.note_tx)
          Samples.incoming_note_tx wtx') /\
   (Samples.add_to_wallet Samples.chain true Samples.incoming_note_tx Samples.extended_wallet
      = Aborted ->
    status (m_confirm Samples.incoming_note_tx)
      = status (m_confirm
          (with_notes {[ (1%N, 0%N, 0%N) :=
                           with_witnesses [Samples.witness1; Samples.witness0] 10 Samples.note0 ]}
             ∅ Samples.note_tx)) /\
    (nIndex (m_confirm
          (with_notes {[ (1%N, 0%N, 0%N) :=
                           with_witnesses [Samples.witness1; Samples.witness0] 10 Samples.note0 ]}
             ∅ Samples.note_tx)) <> nIndex (m_confirm Samples.incoming_note_tx) \/
     hashBlock (m_confirm
          (with_notes {[ (1%N, 0%N, 0%N) :=
                           with_witnesses [Samples.witness1; Samples.witness0] 10 Samples.note0 ]}
             ∅ Samples.note_tx)) <> hashBlock (m_confirm Samples.incoming_note_tx)))).
Proof.
  assert (H : mapWallet Samples.extended_wallet !! GetHash Samples.incoming_note_tx
    = Some (with_notes {[ (1%N, 0%N, 0%N) :=
                            with_witnesses [Samples.witness1; Samples.witness0] 10 Samples.note0 ]}
              ∅ Samples.note_tx)) by reflexivity.
  split; [exact H|].
  exact (update_keeps_cached_witnesses Samples.is_coinbase Samples.has_witness
           Samples.note_eq Samples.note_eq Samples.chain true Samples.incoming_note_tx _
           Samples.extended_wallet H).
Defined.

(** The merged note of the sample: the incoming record with the two
    cached witnesses and their height. *)
Example update_keeps_cached_witnesses_sample :
  (fun nd => (witnesses nd, witnessHeight nd)) <$>
    Samples.sprout_note
      (Samples.wallet_of
         (Samples.add_to_wallet Samples.chain true Samples.incoming_note_tx
            Samples.extended_wallet) Samples.empty_wallet)
      1%N (1%N, 0%N, 0%N)
  = Some ([Samples.witness1; Samples.witness0], 10).
Proof. by vm_compute. Qed.

Lemma order_positions_increase_witness :
  StronglySorted Z.lt (IncOrderPosNext_values 3 Samples.empty_wallet) /\
  StronglySorted Z.lt
    (assigned_positions Samples.is_coinbase Samples.has_witness Samples.note_eq Samples.note_eq
       Samples.add_calls Samples.empty_wallet).
Proof.
  split.
  - exact (proj1 (proj1 (order_positions_increase Samples.is_coinbase Samples.has_witness
                           Samples.note_eq Samples.note_eq Samples.empty_wallet) 3%nat)).
  - exact (proj1 (proj2 (order_positions_increase Samples.is_coinbase Samples.has_witness
                           Samples.note_eq Samples.note_eq Samples.empty_wallet)
                        Samples.add_calls)).
Defined.

Example order_positions_sample :
  IncOrderPosNext_values 3 Samples.empty_wallet = [0; 1; 2] /\
  assigned_positions Samples.is_coinbase Samples.has_witness Samples.note_eq Samples.note_eq
    Samples.add_calls Samples.empty_wallet = [0; 1].
Proof. split; by vm_compute. Qed.

(** ** CWallet::CreateTransaction, the change output *)

Lemma vector_insert_lookup {A} (pos : Z) (x : A) (v : list A) :
  0 <= pos <= Z.of_nat (length v) ->
  vector_insert pos x v !! Z.to_nat pos = Some x /\
  length (vector_insert pos x v) = S (length v).
Proof.
  intros Hpos. unfold vector_insert. split.
  - rewrite lookup_app_r by (rewrite length_take; lia).
    rewrite length_take. by replace (Z.to_nat pos - _)%nat with 0%nat by lia.
  - rewrite length_app, length_take. simpl. rewrite length_drop. lia.
Qed.

Section ChangeProperties.

Variable IsDust : CTxOut -> Z -> bool.
Variable GetRandInt : Z -> Z.

(** GetRandInt(nMax) is a number from 0 to nMax - 1. *)
Hypothesis GetRandInt_range : forall nMax, 0 < nMax -> 0 <= GetRandInt nMax < nMax.

(** C8 (as amended): with a positive change amount, the change output
    is left out and its value added to the fee exactly when it would be
    dust at the discard rate or this pass selected its inputs by
    branch-and-bound; otherwise an output carrying the change amount is
    put at a random position (no position requested) or at the requested
    position -- unless the requested position is beyond the outputs, when
    the construction fails with "Change index out of range". *)
Theorem change_output_rule (discard_rate : Z) (scriptChange : list N)
    (nValueIn nValueToSelect : Z) (bnb_used : bool)
    (vout_ : list CTxOut) (nChangePosInOut nFeeRet : Z) :
  0 < nValueIn - nValueToSelect ->
  - 2 ^ 31 <= nChangePosInOut < 2 ^ 31 ->
  Z.of_nat (length vout_) < 2 ^ 31 ->
  let nChange := nValueIn - nValueToSelect in
  let newTxOut := {| nValue := nChange; scriptPubKey := scriptChange |} in
  let result := CreateTransaction_change IsDust GetRandInt discard_rate scriptChange
                  nValueIn nValueToSelect bnb_used vout_ nChangePosInOut nFeeRet in
  (IsDust newTxOut discard_rate = true \/ bnb_used = true ->
     result = ChangeDone vout_ (-1) (nFeeRet + nChange)) /\
  (IsDust newTxOut discard_rate = false -> bnb_used = false ->
     (nChangePosInOut = -1 ->
        exists pos vout', 0 <= pos <= Z.of_nat (length vout_) /\
          result = ChangeDone vout' pos nFeeRet /\
          vout' !! Z.to_nat pos = Some newTxOut /\ length vout' = S (length vout_)) /\
     (0 <= nChangePosInOut <= Z.of_nat (length vout_) ->
        exists vout', result = ChangeDone vout' nChangePosInOut nFeeRet /\
          vout' !! Z.to_nat nChangePosInOut = Some newTxOut /\
          length vout' = S (length vout_)) /\
     (nChangePosInOut < -1 \/ Z.of_nat (length vout_) < nChangePosInOut ->
        result = ChangeFailed "Change index out of range")).
Proof.
  intros Hpos Hint Hlen nChange newTxOut result. subst result.
  unfold CreateTransaction_change. fold nChange. fold newTxOut.
  destruct (Z.ltb_spec 0 nChange) as [_|]; [|subst nChange; lia]. split.
  - intros [-> | ->]; [done|]. by rewrite orb_true_r.
  - intros -> ->. simpl. split; [|split].
    + intros ->. simpl.
      pose proof (GetRandInt_range (Z.of_nat (length vout_) + 1) ltac:(lia)) as Hr.
      eexists _, _. split; [|split; [done|]]; [lia|].
      apply vector_insert_lookup. lia.
    + intros Hin. destruct (Z.eqb_spec nChangePosInOut (-1)); [lia|].
      unfold to_unsigned_int. rewrite Z.mod_small by lia.
      destruct (Z.ltb_spec (Z.of_nat (length vout_)) nChangePosInOut); [lia|].
      eexists. split; [done|]. by apply vector_insert_lookup.
    + intros Hout. destruct (Z.eqb_spec nChangePosInOut (-1)); [lia|].
      unfold to_unsigned_int.
      destruct Hout as [Hneg|Hbig].
      * replace (nChangePosInOut mod 2 ^ 32) with (nChangePosInOut + 2 ^ 32).
        2:{ apply Z.mod_unique with (q := -1); lia. }
        by destruct (Z.ltb_spec (Z.of_nat (length vout_)) (nChangePosInOut + 2 ^ 32)); [|lia].
      * rewrite Z.mod_small by lia.
        by destruct (Z.ltb_spec (Z.of_nat (length vout_)) nChangePosInOut); [|lia].
Qed.

End ChangeProperties.

Lemma last_position_range nMax : 0 < nMax -> 0 <= Samples.last_position nMax < nMax.
Proof. unfold Samples.last_position. lia. Qed.

Lemma change_output_rule_witness :
  0 < 100 - 41 /\ (- 2 ^ 31 <= 1 < 2 ^ 31) /\ Z.of_nat (length [Samples.payment]) < 2 ^ 31 /\
  ((Samples.never_dust {| nValue := 100 - 41; scriptPubKey := [7%N] |} 3000 = true \/
    false = true ->
    CreateTransaction_change Samples.never_dust Samples.last_position 3000 [7%N]
      100 41 false [Samples.payment] 1 1
    = ChangeDone [Samples.payment] (-1) (1 + (100 - 41))) /\
   (Samples.never_dust {| nValue := 100 - 41; scriptPubKey := [7%N] |} 3000 = false ->
    false = false ->
    (1 = -1 ->
     exists pos vout', 0 <= pos <= Z.of_nat (length [Samples.payment]) /\
       CreateTransaction_change Samples.never_dust Samples.last_position 3000 [7%N]
         100 41 false [Samples.payment] 1 1 = ChangeDone vout' pos 1 /\
       vout' !! Z.to_nat pos = Some {| nValue := 100 - 41; scriptPubKey := [7%N] |} /\
       length vout' = S (length [Samples.payment])) /\
    (0 <= 1 <= Z.of_nat (length [Samples.payment]) ->
     exists vout',
       CreateTransaction_change Samples.never_dust Samples.last_position 3000 [7%N]
         100 41 false [Samples.payment] 1 1 = ChangeDone vout' 1 1 /\
       vout' !! Z.to_nat 1 = Some {| nValue := 100 - 41; scriptPubKey := [7%N] |} /\
       length vout' = S (length [Samples.payment])) /\
    (1 < -1 \/ Z.of_nat (length [Samples.payment]) < 1 ->
     CreateTransaction_change Samples.never_dust Samples.last_position 3000 [7%N]
       100 41 false [Samples.payment] 1 1 = ChangeFailed "Change index out of range"))).
Proof.
  assert (H1 : 0 < 100 - 41) by lia.
  assert (H2 : - 2 ^ 31 <= 1 < 2 ^ 31) by lia.
  assert (H3 : Z.of_nat (length [Samples.payment]) < 2 ^ 31) by (simpl; lia).
  split; [exact H1|]. split; [exact H2|]. split; [exact H3|].
  exact (change_output_rule Samples.never_dust Samples.last_position
           last_position_range 3000 [7%N] 100 41 false [Samples.payment] 1 1 H1 H2 H3).
Defined.

(** The change of the sample goes behind the payment. *)
Example change_output_sample :
  CreateTransaction_change Samples.never_dust Samples.last_position 3000 [7%N]
    100 41 false [Samples.payment] (-1) 1
  = ChangeDone [Samples.payment; {| nValue := 59; scriptPubKey := [7%N] |}] 1 1.
Proof. by vm_compute. Qed.

(** C8, the claim as written fails: the change of 59 is positive, is not
    dust and branch-and-bound was not used, yet no change output is
    inserted: position 5 was requested for a transaction with one output
    and the construction fails. *)
Lemma change_index_out_of_range_counterexample :
  0 < 100 - 41 /\
  Samples.never_dust {| nValue := 100 - 41; scriptPubKey := [7%N] |} 3000 = false /\
  CreateTransaction_change Samples.never_dust Samples.last_position 3000 [7%N]
    100 41 false [Samples.payment] 5 1
  = ChangeFailed "Change index out of range".
Proof. split; [lia|]. split; by vm_compute. Qed.

(** * Further properties *)

(** ** Spend depth *)

Lemma spend_depth_in_spec (c : Chain) (m : gmap N CWalletTx) (range : list N) :
  0 <= spend_depth_in c m range /\
  (0 < spend_depth_in c m range -> spent_in c m range = true).
Proof.
  induction range as [|id range [IH1 IH2]]; simpl; [lia|].
  destruct (m !! id) as [wtx|]; [|done].
  destruct (Z.leb_spec 0 (GetDepthInMainChain c wtx)) as [Hle|Hlt].
  - split; [done|]. intros Hpos.
    by destruct (Z.ltb_spec 0 (GetDepthInMainChain c wtx)); [|lia].
  - split; [done|]. intros Hpos.
    destruct (Z.ltb_spec 0 (GetDepthInMainChain c wtx)); [lia|].
    destruct (Z.eqb_spec (GetDepthInMainChain c wtx) 0); [lia|]. simpl. by apply IH2.
Qed.

(** X1: the spend depth of a nullifier is never negative (so its
    comparison with the unsigned WITNESS_CACHE_SIZE is the plain one), and a
    nullifier of positive spend depth is reported spent. *)
Theorem spend_depth_nonnegative (c : Chain) (w : CWallet) (nf : uint256) :
  (0 <= GetSproutSpendDepth c w nf /\
   (0 < GetSproutSpendDepth c w nf -> IsSproutSpent c w nf = true)) /\
  (0 <= GetSaplingSpendDepth c w nf /\
   (0 < GetSaplingSpendDepth c w nf -> IsSaplingSpent c w nf = true)).
Proof. split; apply spend_depth_in_spec. Qed.

(** ** Folding a block in and taking it out again *)

Lemma GetDepthInMainChain_confirm c a b :
  m_confirm a = m_confirm b -> GetDepthInMainChain c a = GetDepthInMainChain c b.
Proof.
  intros H. unfold GetDepthInMainChain, GetDepthInMainChainINTERNAL,
    isUnconfirmed, isAbandoned, isConflicted. by rewrite H.
Qed.

Lemma spend_depth_in_confirm c (m m' : gmap N CWalletTx) range :
  (forall id, m_confirm <$> m' !! id = m_confirm <$> m !! id) ->
  spend_depth_in c m' range = spend_depth_in c m range.
Proof.
  intros Hm. induction range as [|id range IH]; simpl; [done|].
  specialize (Hm id).
  destruct (m' !! id) as [a|], (m !! id) as [b|]; simpl in Hm; try done.
  injection Hm as Hm. by rewrite (GetDepthInMainChain_confirm c a b Hm), IH.
Qed.

Section ExtendRewind.

Variable SIZE : nat.

Lemma append_front_cons cms front rest :
  append_front cms (front :: rest) = Some (foldl append front cms :: rest).
Proof. revert front. induction cms as [|cm cms IH]; intros front; simpl; [done|apply IH]. Qed.

Lemma IncrementTxWitnesses_confirm c w blk wtx wtx' :
  IncrementTxWitnesses SIZE c w blk wtx = Some wtx' -> m_confirm wtx' = m_confirm wtx.
Proof.
  unfold IncrementTxWitnesses. destruct (_ && _); [by intros [= <-]|].
  destruct (0 <? _); [|by intros [= <-]].
  destruct (map_traverse _ (mapSproutNoteData wtx)); simpl; [|done].
  destruct (map_traverse _ (mapSaplingNoteData wtx)); simpl; [|done].
  by intros [= <-].
Qed.

Lemma BuildWitnessCache_block_confirm c blk w w1 :
  BuildWitnessCache_block SIZE c blk w = Some w1 ->
  forall id, m_confirm <$> mapWallet w1 !! id = m_confirm <$> mapWallet w !! id.
Proof.
  unfold BuildWitnessCache_block.
  destruct (map_traverse _ (mapWallet w)) as [m|] eqn:Hm; simpl; [|done].
  intros [= <-] id. simpl. rewrite (map_traverse_Some _ _ _ Hm).
  destruct (mapWallet w !! id) as [wtx|] eqn:Hid; simpl; [|done].
  destruct (IncrementTxWitnesses SIZE c w blk wtx) as [wtx'|] eqn:Hw; simpl.
  - by rewrite (IncrementTxWitnesses_confirm _ _ _ _ _ Hw).
  - unfold map_traverse in Hm. case_decide as Hall; [|done].
    destruct (Hall id wtx Hid) as [? ?]. congruence.
Qed.

(** One note through the fold and the rewind of the same block. *)
Lemma note_extend_rewind sd sd' h cms nd nd1 nf :
  nullifier nd = Some nf -> witnessHeight nd = h - 1 ->
  within_cache SIZE (sd nf) = true -> sd' nf = sd nf ->
  (length (witnesses nd) < SIZE)%nat ->
  IncrementNoteWitness SIZE sd h cms nd = Some nd1 ->
  DecrementNoteWitness SIZE sd' h nd1 = nd.
Proof.
  intros Hnf Hh Hcache Hsd Hlen. unfold IncrementNoteWitness.
  rewrite Hnf, Hcache, Hh, Z.eqb_refl. simpl.
  destruct (witnesses nd) as [|front rest] eqn:Hws; [done|].
  simpl in Hlen.
  destruct (Nat.ltb_spec SIZE (S (length (front :: rest)))) as [Hlt|_]; [simpl in Hlt; lia|].
  rewrite append_front_cons. simpl. intros [= <-].
  unfold DecrementNoteWitness. simpl. rewrite Hnf, Hsd, Hcache.
  destruct (Z.leb_spec h h); [|lia]. simpl.
  destruct nd. simpl in *. by subst.
Qed.

(** X2: when BuildWitnessCache has folded a block into a note that had
    fewer than WITNESS_CACHE_SIZE witnesses, DecrementNoteWitnesses for
    the same block gives the note back exactly as it was (witnesses and
    witness height). *)
Theorem extend_then_rewind (c : Chain) (blk : CBlockIndex) (w w1 : CWallet)
    (id : uint256) (wtx : CWalletTx) :
  BuildWitnessCache_block SIZE c blk w = Some w1 ->
  mapWallet w !! id = Some wtx ->
  0 < GetDepthInMainChain c wtx ->
  exists wtx2,
    mapWallet (DecrementNoteWitnesses SIZE c (nHeight blk) w1) !! id = Some wtx2 /\
    (forall op nd nf,
       mapSproutNoteData wtx !! op = Some nd -> nullifier nd = Some nf ->
       witnessHeight nd = nHeight blk - 1 ->
       within_cache SIZE (GetSproutSpendDepth c w nf) = true ->
       (length (witnesses nd) < SIZE)%nat ->
       mapSproutNoteData wtx2 !! op = Some nd) /\
    (forall op nd nf,
       mapSaplingNoteData wtx !! op = Some nd -> nullifier nd = Some nf ->
       witnessHeight nd = nHeight blk - 1 ->
       within_cache SIZE (GetSaplingSpendDepth c w nf) = true ->
       (length (witnesses nd) < SIZE)%nat ->
       mapSaplingNoteData wtx2 !! op = Some nd).
Proof.
  intros Hrun Hid Hdepth.
  pose proof (BuildWitnessCache_block_confirm _ _ _ _ Hrun) as Hconf.
  unfold BuildWitnessCache_block in Hrun.
  destruct (map_traverse _ (mapWallet w)) as [m|] eqn:Hm; simpl in Hrun; [|done].
  injection Hrun as <-. simpl in Hconf.
  pose proof (map_traverse_Some _ _ _ Hm id) as Hlook. rewrite Hid in Hlook. simpl in Hlook.
  unfold DecrementNoteWitnesses. simpl. rewrite lookup_fmap.
  destruct (m !! id) as [wtx1|] eqn:Hm1.
  2:{ unfold map_traverse in Hm. case_decide as Hall; [|done].
      destruct (Hall id wtx Hid) as [? ?]. congruence. }
  simpl. eexists. split; [done|]. simpl.
  symmetry in Hlook. unfold IncrementTxWitnesses in Hlook.
  destruct (Z.ltb_spec 0 (GetDepthInMainChain c wtx)); [|lia].
  assert (Hsd : forall nf, GetSproutSpendDepth c (with_mapWallet m w) nf
                           = GetSproutSpendDepth c w nf)
    by (intros nf; by apply spend_depth_in_confirm).
  assert (Hsd' : forall nf, GetSaplingSpendDepth c (with_mapWallet m w) nf
                            = GetSaplingSpendDepth c w nf)
    by (intros nf; by apply spend_depth_in_confirm).
  split.
  - intros op nd nf Hop Hnf Hh Hcache Hlen.
    assert (mapSproutNoteData wtx <> ∅) as Hne by (intros He; by rewrite He in Hop).
    rewrite (bool_decide_eq_false_2 _ Hne) in Hlook. simpl in Hlook.
    destruct (map_traverse _ (mapSproutNoteData wtx)) as [sprout|] eqn:H1; simpl in Hlook; [|done].
    destruct (map_traverse _ (mapSaplingNoteData wtx)) as [sapling|] eqn:H2; simpl in Hlook; [|done].
    injection Hlook as <-. simpl. rewrite lookup_fmap.
    pose proof (map_traverse_Some _ _ _ H1 op) as Hnote. rewrite Hop in Hnote. simpl in Hnote.
    destruct (sprout !! op) as [nd1|] eqn:Hs.
    2:{ unfold map_traverse in H1. case_decide as Hall; [|done].
        destruct (Hall op nd Hop) as [? ?]. congruence. }
    simpl. f_equal. eapply note_extend_rewind; eauto.
  - intros op nd nf Hop Hnf Hh Hcache Hlen.
    assert (mapSaplingNoteData wtx <> ∅) as Hne by (intros He; by rewrite He in Hop).
    rewrite (bool_decide_eq_false_2 _ Hne), andb_false_r in Hlook.
    destruct (map_traverse _ (mapSproutNoteData wtx)) as [sprout|] eqn:H1; simpl in Hlook; [|done].
    destruct (map_traverse _ (mapSaplingNoteData wtx)) as [sapling|] eqn:H2; simpl in Hlook; [|done].
    injection Hlook as <-. simpl. rewrite lookup_fmap.
    pose proof (map_traverse_Some _ _ _ H2 op) as Hnote. rewrite Hop in Hnote. simpl in Hnote.
    destruct (sapling !! op) as [nd1|] eqn:Hs.
    2:{ unfold map_traverse in H2. case_decide as Hall; [|done].
        destruct (Hall op nd Hop) as [? ?]. congruence. }
    simpl. f_equal. eapply note_extend_rewind; eauto.
Qed.

End ExtendRewind.

Lemma extend_then_rewind_witness :
  BuildWitnessCache_block 100 Samples.chain Samples.block10 Samples.note_wallet
    = Some Samples.extended_wallet /\
  mapWallet Samples.note_wallet !! 1%N = Some Samples.note_tx /\
  0 < GetDepthInMainChain Samples.chain Samples.note_tx /\
  exists wtx2,
    mapWallet (DecrementNoteWitnesses 100 Samples.chain (nHeight Samples.block10)
                 Samples.extended_wallet) !! 1%N = Some wtx2 /\
    (forall op nd nf,
       mapSproutNoteData Samples.note_tx !! op = Some nd -> nullifier nd = Some nf ->
       witnessHeight nd = nHeight Samples.block10 - 1 ->
       within_cache 100 (GetSproutSpendDepth Samples.chain Samples.note_wallet nf) = true ->
       (length (witnesses nd) < 100)%nat ->
       mapSproutNoteData wtx2 !! op = Some nd) /\
    (forall op nd nf,
       mapSaplingNoteData Samples.note_tx !! op = Some nd -> nullifier nd = Some nf ->
       witnessHeight nd = nHeight Samples.block10 - 1 ->
       within_cache 100 (GetSaplingSpendDepth Samples.chain Samples.note_wallet nf) = true ->
       (length (witnesses nd) < 100)%nat ->
       mapSaplingNoteData wtx2 !! op = Some nd).
Proof.
  assert (H1 : BuildWitnessCache_block 100 Samples.chain Samples.block10 Samples.note_wallet
    = Some Samples.extended_wallet) by (vm_compute; reflexivity).
  assert (H2 : mapWallet Samples.note_wallet !! 1%N = Some Samples.note_tx) by reflexivity.
  assert (H3 : 0 < GetDepthInMainChain Samples.chain Samples.note_tx) by reflexivity.
  split; [exact H1|]. split; [exact H2|]. split; [exact H3|].
  exact (extend_then_rewind 100 Samples.chain Samples.block10 Samples.note_wallet
           Samples.extended_wallet 1%N Samples.note_tx H1 H2 H3).
Defined.

(** ** A cleared witness cache *)

Lemma map_traverse_id {K A} `{Countable K} (f : A -> option A) (m : gmap K A) :
  (forall k a, m !! k = Some a -> f a = Some a) -> map_traverse f m = Some m.
Proof.
  intros Hf. unfold map_traverse. case_decide as Hd.
  - f_equal. apply map_eq. intros k. rewrite lookup_omap.
    destruct (m !! k) as [a|] eqn:Hk; simpl; [eauto|done].
  - destruct Hd. intros k a Hk. rewrite (Hf k a Hk). eauto.
Qed.

Lemma fmap_id_on {K A} `{Countable K} (f : A -> A) (m : gmap K A) :
  (forall k a, m !! k = Some a -> f a = a) -> f <$> m = m.
Proof.
  intros Hf. apply map_eq. intros k. rewrite lookup_fmap.
  destruct (m !! k) as [a|] eqn:Hk; simpl; [|done]. by rewrite (Hf k a Hk).
Qed.

Lemma with_mapWallet_same w : with_mapWallet (mapWallet w) w = w.
Proof. by destruct w. Qed.

Lemma ClearNoteWitnessCache_empty w : cache_empty (ClearNoteWitnessCache w).
Proof.
  intros id wtx. unfold ClearNoteWitnessCache. simpl. rewrite lookup_fmap.
  destruct (mapWallet w !! id) as [wtx0|]; simpl; [|done]. intros [= <-]. simpl.
  split; intros op nd; rewrite lookup_fmap;
    (destruct (_ !! op); simpl; [|done]); by intros [= <-].
Qed.

Lemma cache_step_empty SIZE op w :
  cache_empty w -> above_genesis op -> cache_step SIZE op w = Some w.
Proof.
  intros Hw Hop. destruct op as [c blk|c h]; simpl in *.
  - unfold BuildWitnessCache_block. rewrite map_traverse_id.
    + simpl. by rewrite with_mapWallet_same.
    + intros id wtx Hid. destruct (Hw id wtx Hid) as [Hs Hp].
      unfold IncrementTxWitnesses. destruct (_ && _); [done|]. destruct (0 <? _); [|done].
      rewrite !map_traverse_id; simpl.
      * by rewrite with_notes_same.
      * intros op nd Hnd. destruct (Hs op nd Hnd) as [_ Hh].
        unfold IncrementNoteWitness. destruct (nullifier nd); [|done].
        rewrite Hh. by destruct (Z.eqb_spec (-1) (nHeight blk - 1)); [lia|].
      * intros op nd Hnd. destruct (Hp op nd Hnd) as [_ Hh].
        unfold IncrementNoteWitness. destruct (nullifier nd); [|done].
        rewrite Hh. by destruct (Z.eqb_spec (-1) (nHeight blk - 1)); [lia|].
  - f_equal. unfold DecrementNoteWitnesses. rewrite fmap_id_on.
    + apply with_mapWallet_same.
    + intros id wtx Hid. destruct (Hw id wtx Hid) as [Hs Hp].
      rewrite !fmap_id_on.
      * apply with_notes_same.
      * intros op nd Hnd. destruct (Hp op nd Hnd) as [Hws _].
        unfold DecrementNoteWitness. rewrite Hws. simpl.
        destruct (nullifier nd); [|done]. destruct (within_cache _ _); [|done].
        by destruct (_ <=? _).
      * intros op nd Hnd. destruct (Hs op nd Hnd) as [Hws _].
        unfold DecrementNoteWitness. rewrite Hws. simpl.
        destruct (nullifier nd); [|done]. destruct (within_cache _ _); [|done].
        by destruct (_ <=? _).
Qed.

(** X3: after ClearNoteWitnessCache every note has no witness and the
    witness height -1, and neither BuildWitnessCache for a block above
    height 0 nor DecrementNoteWitnesses changes the wallet again: the
    cleared cache stays empty under any run of the two. *)
Theorem cleared_cache_stays_empty (SIZE : nat) (ops : list CacheOp) (w : CWallet) :
  Forall above_genesis ops ->
  cache_empty (ClearNoteWitnessCache w) /\
  cache_run SIZE ops (ClearNoteWitnessCache w) = Some (ClearNoteWitnessCache w).
Proof.
  intros Hops. split; [apply ClearNoteWitnessCache_empty|].
  pose proof (ClearNoteWitnessCache_empty w) as Hw.
  induction Hops as [|op ops Hop Hops IH]; simpl; [done|].
  by rewrite (cache_step_empty SIZE op _ Hw Hop).
Qed.

Lemma cleared_cache_stays_empty_witness :
  Forall above_genesis Samples.cache_ops /\
  cache_empty (ClearNoteWitnessCache Samples.note_wallet) /\
  cache_run 100 Samples.cache_ops (ClearNoteWitnessCache Samples.note_wallet)
    = Some (ClearNoteWitnessCache Samples.note_wallet).
Proof.
  assert (H : Forall above_genesis Samples.cache_ops)
    by (repeat constructor; simpl; lia).
  split; [exact H|].
  exact (cleared_cache_stays_empty 100 Samples.cache_ops Samples.note_wallet H).
Defined.

(** ** Blocks to maturity *)

(** X4: GetBlocksToMaturity runs into its assertion exactly for a
    coinbase transaction of negative depth; otherwise its result is not
    negative, and it is positive (IsImmatureCoinBase) exactly for a
    coinbase transaction at most COINBASE_MATURITY deep, in which case
    result plus depth is COINBASE_MATURITY + 1. *)
Theorem blocks_to_maturity (COINBASE_MATURITY : Z) (IsCoinBase : CTransaction -> bool)
    (c : Chain) (wtx : CWalletTx) :
  (GetBlocksToMaturity COINBASE_MATURITY IsCoinBase c wtx = None <->
   IsCoinBase (tx wtx) = true /\ GetDepthInMainChain c wtx < 0) /\
  (forall n, GetBlocksToMaturity COINBASE_MATURITY IsCoinBase c wtx = Some n ->
     0 <= n /\
     IsImmatureCoinBase COINBASE_MATURITY IsCoinBase c wtx = Some (0 <? n) /\
     (0 < n <-> IsCoinBase (tx wtx) = true /\ GetDepthInMainChain c wtx <= COINBASE_MATURITY) /\
     (0 < n -> n + GetDepthInMainChain c wtx = COINBASE_MATURITY + 1)).
Proof.
  unfold IsImmatureCoinBase, GetBlocksToMaturity.
  destruct (IsCoinBase (tx wtx)); simpl.
  - destruct (Z.leb_spec 0 (GetDepthInMainChain c wtx)) as [Hd|Hd].
    + split; [split; [done|lia]|]. intros n [= <-]. simpl.
      split; [lia|]. split; [done|]. split; [split; [lia|]|]; lia.
    + split; [done|]. done.
  - split; [split; [done|intros [? _]; done]|]. intros n [= <-]. simpl.
    split; [lia|]. split; [done|]. split; [split; [lia|intros [? _]; done]|lia].
Qed.

(** ** The witnesses of a list of notes *)

Section NoteWitnessesSpec.

Context {K : Type}.
Variable root : IncrementalWitness -> uint256.
Variable find : K -> option NoteData.

Lemma note_witnesses_sound notes old rt ws rt' :
  note_witnesses root find notes old rt = Some (ws, rt') ->
  (forall r, rt = Some r -> rt' = Some r) /\
  (rt = None -> (forall i note, notes !! i = Some note -> note_front find note = None) ->
   rt' = None) /\
  length ws = length notes /\
  (forall i note, notes !! i = Some note ->
     match note_front find note with
     | Some front => ws !! i = Some (Some front) /\ rt' = Some (root front)
     | None => ws !! i = Some (default None (old !! i))
     end).
Proof.
  revert old rt ws rt'. induction notes as [|note rest IH]; intros old rt ws rt'; simpl.
  - intros [= <- <-]. repeat split; done.
  - fold (note_front find note).
    destruct (note_front find note) as [front|] eqn:Hfront.
    + destruct rt as [r|].
      * case_decide as Hr; [|done]. subst r.
        destruct (note_witnesses root find rest (tail old) (Some (root front)))
          as [[ws0 rt0]|] eqn:Hrec; simpl; [|done].
        intros [= <- <-]. destruct (IH _ _ _ _ Hrec) as (Hrt & _ & Hlen & Hall).
        split; [intros r [= <-]; by apply Hrt|]. split; [done|].
        split; [simpl; by rewrite Hlen|].
        intros [|i] n; simpl.
        -- intros [= <-]. rewrite Hfront. split; [done|by apply Hrt].
        -- intros Hn. specialize (Hall i n Hn). rewrite lookup_tail in Hall. done.
      * destruct (note_witnesses root find rest (tail old) (Some (root front)))
          as [[ws0 rt0]|] eqn:Hrec; simpl; [|done].
        intros [= <- <-]. destruct (IH _ _ _ _ Hrec) as (Hrt & _ & Hlen & Hall).
        split; [done|].
        split; [intros _ Hnone; specialize (Hnone 0%nat note eq_refl); congruence|].
        split; [simpl; by rewrite Hlen|].
        intros [|i] n; simpl.
        -- intros [= <-]. rewrite Hfront. split; [done|by apply Hrt].
        -- intros Hn. specialize (Hall i n Hn). rewrite lookup_tail in Hall. done.
    + destruct (note_witnesses root find rest (tail old) rt)
        as [[ws0 rt0]|] eqn:Hrec; simpl; [|done].
      intros [= <- <-]. destruct (IH _ _ _ _ Hrec) as (Hrt & Hnone & Hlen & Hall).
      split; [done|].
      split; [intros Hn Hall0; apply Hnone; [done|]; intros i n Hi; by apply (Hall0 (S i))|].
      split; [simpl; by rewrite Hlen|].
      intros [|i] n; simpl.
      -- intros [= <-]. rewrite Hfront. by rewrite head_lookup.
      -- intros Hn. specialize (Hall i n Hn). rewrite lookup_tail in Hall. done.
Qed.

Lemma note_witnesses_total notes old rt :
  same_anchor root find notes ->
  (forall r i n f, rt = Some r -> notes !! i = Some n -> note_front find n = Some f ->
     root f = r) ->
  is_Some (note_witnesses root find notes old rt).
Proof.
  revert old rt. induction notes as [|note rest IH]; intros old rt Hsame Hrt; simpl; [eauto|].
  assert (Hrest : same_anchor root find rest).
  { intros i j n1 n2 f1 f2 H1 H2. apply (Hsame (S i) (S j)); done. }
  fold (note_front find note).
  destruct (note_front find note) as [front|] eqn:Hfront.
  - assert (Hnext : is_Some (note_witnesses root find rest (tail old) (Some (root front)))).
    { apply IH; [done|]. intros r i n f [= <-] Hn Hf.
      apply (Hsame (S i) 0%nat n note f front); done. }
    destruct Hnext as [[ws0 rt0] Hrec].
    destruct rt as [r|].
    + rewrite <- (Hrt r 0%nat note front eq_refl eq_refl Hfront).
      rewrite decide_True by done. rewrite Hrec. simpl. eauto.
    + rewrite Hrec. simpl. eauto.
  - destruct (IH (tail old) rt Hrest) as [[ws0 rt0] Hrec].
    + intros r i n f Hr Hn Hf. apply (Hrt r (S i) n f); done.
    + rewrite Hrec. simpl. eauto.
Qed.

Lemma note_witnesses_anchor notes old rt ws rt' :
  note_witnesses root find notes old rt = Some (ws, rt') -> same_anchor root find notes.
Proof.
  intros Hrun i j n1 n2 f1 f2 H1 H2 Hf1 Hf2.
  destruct (note_witnesses_sound _ _ _ _ _ Hrun) as (_ & _ & _ & Hall).
  pose proof (Hall i n1 H1) as A1. pose proof (Hall j n2 H2) as A2.
  rewrite Hf1 in A1. rewrite Hf2 in A2. destruct A1 as [_ A1], A2 as [_ A2]. congruence.
Qed.

Lemma note_witnesses_result_intro notes witnesses_ final_anchor ws rt' :
  note_witnesses root find notes (resize (length notes) None witnesses_) None
    = Some (ws, rt') ->
  note_witnesses_result root find notes witnesses_ final_anchor ws
    (default final_anchor rt').
Proof.
  intros Hrun. destruct (note_witnesses_sound _ _ _ _ _ Hrun) as (_ & Hnone & Hlen & Hall).
  split; [done|]. split.
  - intros i note Hi. specialize (Hall i note Hi).
    destruct (note_front find note) as [front|].
    + destruct Hall as [-> ->]. done.
    + rewrite Hall.
      pose proof (lookup_lt_Some _ _ _ Hi) as Hlt.
      destruct (decide (i < length witnesses_)%nat).
      * by rewrite lookup_resize.
      * rewrite lookup_resize_new by lia. by rewrite lookup_ge_None_2 by lia.
  - intros Hall0. by rewrite (Hnone eq_refl Hall0).
Qed.

End NoteWitnessesSpec.

(** X5: GetSproutNoteWitnesses and GetSaplingNoteWitnesses pass their
    assertion exactly when the first cached witnesses of the notes found
    all have the same root.  They then return one entry per note: the
    first cached witness of a note the wallet has a witness for, the
    entry the caller's vector held (or none) otherwise; every witness
    found has the root left in final_anchor, and final_anchor is left
    alone when no witness is found. *)
Theorem note_witnesses_share_anchor (root : IncrementalWitness -> uint256) (w : CWallet)
    (witnesses_ : list (option IncrementalWitness)) (final_anchor : uint256) :
  (forall notes,
     (is_Some (GetSproutNoteWitnesses root w notes witnesses_ final_anchor) <->
      same_anchor root (find_sprout_note w) notes) /\
     (forall ws final_anchor',
        GetSproutNoteWitnesses root w notes witnesses_ final_anchor
          = Some (ws, final_anchor') ->
        note_witnesses_result root (find_sprout_note w) notes witnesses_ final_anchor
          ws final_anchor')) /\
  (forall notes,
     (is_Some (GetSaplingNoteWitnesses root w notes witnesses_ final_anchor) <->
      same_anchor root (find_sapling_note w) notes) /\
     (forall ws final_anchor',
        GetSaplingNoteWitnesses root w notes witnesses_ final_anchor
          = Some (ws, final_anchor') ->
        note_witnesses_result root (find_sapling_note w) notes witnesses_ final_anchor
          ws final_anchor')).
Proof.
  split; intros notes.
  - unfold GetSproutNoteWitnesses. split; [split|].
    + intros [r Hr].
      destruct (note_witnesses _ _ _ _ _) as [[ws rt]|] eqn:Hrun; [|done].
      by eapply note_witnesses_anchor.
    + intros Hsame.
      destruct (note_witnesses_total root (find_sprout_note w) notes
                  (resize (length notes) None witnesses_) None Hsame) as [[ws rt] ->];
        [done|simpl; eauto].
    + intros ws fa'.
      destruct (note_witnesses _ _ _ _ _) as [[ws0 rt]|] eqn:Hrun; simpl; [|done].
      intros [= <- <-]. by apply note_witnesses_result_intro.
  - unfold GetSaplingNoteWitnesses. split; [split|].
    + intros [r Hr].
      destruct (note_witnesses _ _ _ _ _) as [[ws rt]|] eqn:Hrun; [|done].
      by eapply note_witnesses_anchor.
    + intros Hsame.
      destruct (note_witnesses_total root (find_sapling_note w) notes
                  (resize (length notes) None witnesses_) None Hsame) as [[ws rt] ->];
        [done|simpl; eauto].
    + intros ws fa'.
      destruct (note_witnesses _ _ _ _ _) as [[ws0 rt]|] eqn:Hrun; simpl; [|done].
      intros [= <- <-]. by apply note_witnesses_result_intro.
Qed.

(** ** Conflicting transactions *)

Lemma elem_of_concat_fmap {A B} (f : A -> list B) (l : list A) (x : B) :
  x ∈ concat (f <$> l) <-> exists a, a ∈ l /\ x ∈ f a.
Proof.
  induction l as [|a l IH]; simpl.
  - split; [by intros ?%elem_of_nil|]. by intros (a & ?%elem_of_nil & _).
  - rewrite elem_of_app, IH. split.
    + intros [Hx|(b & Hb & Hx)]; [exists a|exists b]; split; try done; by constructor.
    + intros (b & Hb & Hx). apply elem_of_cons in Hb as [->|Hb]; [by left|right; eauto].
Qed.

Lemma two_elements_length {A} (x y : A) (l : list A) :
  x ∈ l -> y ∈ l -> x <> y -> (1 < length l)%nat.
Proof.
  destruct l as [|a [|b l]]; simpl; intros Hx Hy Hne; [|exfalso|lia].
  - by apply elem_of_nil in Hx.
  - apply list_elem_of_singleton in Hx, Hy. congruence.
Qed.

Lemma elem_of_conflicts_under {K} `{EqDecision K} (k : K) (m : list (K * uint256)) v :
  v ∈ conflicts_under k m <->
  (k, v) ∈ m /\ (1 < length (equal_range k m))%nat.
Proof.
  unfold conflicts_under. destruct (Nat.leb_spec (length (equal_range k m)) 1).
  - split; [by intros ?%elem_of_nil|]. lia.
  - rewrite elem_of_equal_range. split; [intros ?; split; [done|lia]|by intros [? _]].
Qed.

Lemma conflicts_under_registered {K} `{EqDecision K} (k : K) (m : list (K * uint256)) me v :
  (k, me) ∈ m -> v <> me -> (v ∈ conflicts_under k m <-> (k, v) ∈ m).
Proof.
  intros Hme Hne. rewrite elem_of_conflicts_under. split; [by intros [? _]|].
  intros Hv. split; [done|].
  apply (two_elements_length v me); [by apply elem_of_equal_range..|done].
Qed.

(** X6: CWalletTx::GetConflicts never names the transaction itself and is
    empty for a transaction bound to no wallet; for a transaction of
    the wallet whose inputs and nullifiers are in the spend index, it
    is exactly the set of the other transactions registered for one of
    those inputs or nullifiers. *)
Theorem conflicts_are_other_spenders (w : CWallet) (wtx : CWalletTx) (other : uint256) :
  mapWallet w !! GetHash wtx = Some wtx ->
  registered w wtx ->
  CWalletTx_GetConflicts None wtx = ∅ /\
  (GetHash wtx ∉ CWalletTx_GetConflicts (Some w) wtx) /\
  (other ∈ CWalletTx_GetConflicts (Some w) wtx <->
   other <> GetHash wtx /\ shares_input w wtx other).
Proof.
  intros Hw (Ht & Hs & Hp).
  rewrite Forall_forall in Ht. rewrite Forall_forall in Hs. rewrite Forall_forall in Hp.
  split; [done|]. split; [set_solver|].
  unfold CWalletTx_GetConflicts, GetConflicts. rewrite Hw.
  rewrite elem_of_difference, !elem_of_union, !elem_of_list_to_set, !elem_of_concat_fmap.
  rewrite elem_of_singleton. unfold shares_input. split.
  - intros [[[(txin & Hin & Hc)|(nf & Hin & Hc)]|(nf & Hin & Hc)] Hne]; (split; [done|]).
    + left. exists txin. split; [done|]. by apply elem_of_conflicts_under in Hc as [? _].
    + right; left. apply elem_of_concat_fmap in Hin as (js & Hjs & Hnf).
      exists js, nf. split; [done|]. split; [done|].
      by apply elem_of_conflicts_under in Hc as [? _].
    + right; right. exists nf. split; [done|].
      by apply elem_of_conflicts_under in Hc as [? _].
  - intros [Hne [(txin & Hin & Hc)|[(js & nf & Hjs & Hnf & Hc)|(nf & Hin & Hc)]]];
      (split; [|done]).
    + left; left. exists txin. split; [done|].
      apply (conflicts_under_registered _ _ (GetHash wtx)); auto.
    + left; right. exists nf. split; [apply elem_of_concat_fmap; eauto|].
      specialize (Hs js Hjs). rewrite Forall_forall in Hs.
      apply (conflicts_under_registered _ _ (GetHash wtx)); auto.
    + right. exists nf. split; [done|].
      apply (conflicts_under_registered _ _ (GetHash wtx)); auto.
Qed.

Lemma conflicts_are_other_spenders_witness :
  mapWallet MoreSamples.double_spend_wallet !! GetHash (MoreSamples.spender 2)
    = Some (MoreSamples.spender 2) /\
  registered MoreSamples.double_spend_wallet (MoreSamples.spender 2) /\
  CWalletTx_GetConflicts None (MoreSamples.spender 2) = ∅ /\
  (GetHash (MoreSamples.spender 2)
     ∉ CWalletTx_GetConflicts (Some MoreSamples.double_spend_wallet) (MoreSamples.spender 2)) /\
  (3%N ∈ CWalletTx_GetConflicts (Some MoreSamples.double_spend_wallet) (MoreSamples.spender 2) <->
   3%N <> GetHash (MoreSamples.spender 2) /\
   shares_input MoreSamples.double_spend_wallet (MoreSamples.spender 2) 3%N).
Proof.
  assert (H1 : mapWallet MoreSamples.double_spend_wallet !! GetHash (MoreSamples.spender 2)
    = Some (MoreSamples.spender 2)) by reflexivity.
  assert (H2 : registered MoreSamples.double_spend_wallet (MoreSamples.spender 2))
    by (unfold registered; apply (bool_decide_unpack _); vm_compute; exact I).
  split; [exact H1|]. split; [exact H2|].
  exact (conflicts_are_other_spenders MoreSamples.double_spend_wallet
           (MoreSamples.spender 2) 3%N H1 H2).
Defined.

(** ** What MarkConflicted and AbandonTransaction leave alone *)

Lemma same_but_confirm_refl a : same_but_confirm a a.
Proof. by destruct a. Qed.

Lemma same_but_confirm_trans a b d :
  same_but_confirm a b -> same_but_confirm b d -> same_but_confirm a d.
Proof.
  unfold same_but_confirm, with_confirm. intros <- <-. simpl. done.
Qed.

Lemma same_but_confirm_with_confirm cf a : same_but_confirm a (with_confirm cf a).
Proof. by destruct a. Qed.

Lemma set_begin_singleton (x : N) : set_begin {[x]} = Some x.
Proof.
  destruct (set_begin {[x]}) as [y|] eqn:Hb.
  - apply set_begin_Some in Hb as [Hy _]. apply elem_of_singleton in Hy. by subst.
  - apply set_begin_None in Hb. set_solver.
Qed.

Section WalkFrame.

Variable on_visit : CWalletTx -> visit.
Variable R : CWalletTx -> CWalletTx -> Prop.
Hypothesis R_refl : forall a, R a a.
Hypothesis R_trans : forall a b d, R a b -> R b d -> R a d.
Hypothesis R_visit : forall wtx wtx', on_visit wtx = Mark wtx' -> R wtx wtx'.

(** Every turn of the loop keeps the set of transactions and changes a
    transaction along [R] only; nothing but mapWallet and the database
    log is written. *)
Lemma walk_spends_frame fuel todo done w w' :
  walk_spends on_visit fuel todo done w = Finished w' ->
  (forall x, option_Forall2 R (mapWallet w !! x) (mapWallet w' !! x)) /\
  mapTxSpends w' = mapTxSpends w /\
  mapTxSproutNullifiers w' = mapTxSproutNullifiers w /\
  mapTxSaplingNullifiers w' = mapTxSaplingNullifiers w /\
  wtxOrdered w' = wtxOrdered w /\
  nOrderPosNext w' = nOrderPosNext w /\
  database w `prefix_of` database w'.
Proof.
  revert todo done w. induction fuel as [|fuel IH]; intros todo done w; simpl.
  - destruct (set_begin todo); [done|]. intros [= <-].
    split; [|done]. intros x. destruct (mapWallet w !! x); by constructor.
  - destruct (set_begin todo) as [now|].
    2:{ intros [= <-]. split; [|done]. intros x. destruct (mapWallet w !! x); by constructor. }
    destruct (mapWallet w !! now) as [wtx|] eqn:Hnow; [|done].
    destruct (on_visit wtx) as [wtx'| |] eqn:Hv; [|apply IH|done].
    intros Hrun. apply IH in Hrun as (Hm & Hs & Hsp & Hsa & Ho & Hn & Hd). simpl in *.
    split.
    + intros x. specialize (Hm x). destruct (decide (x = now)) as [->|Hne].
      * rewrite lookup_insert_eq in Hm. rewrite Hnow.
        inversion Hm as [a b Hab|]; subst. constructor.
        eapply R_trans; [by apply R_visit|done].
      * by rewrite lookup_insert_ne in Hm.
    + repeat split; try done. etrans; [|exact Hd]. by apply prefix_app_r.
Qed.

(** The first turn, on [root]. *)
Lemma walk_spends_root fuel root w w' :
  walk_spends on_visit (S fuel) {[root]} ∅ w = Finished w' ->
  exists wtx wtx', mapWallet w !! root = Some wtx /\ on_visit wtx <> AssertFail /\
    mapWallet w' !! root = Some wtx' /\ R (after_visit on_visit wtx) wtx'.
Proof.
  simpl. rewrite set_begin_singleton.
  destruct (mapWallet w !! root) as [wtx|] eqn:Hroot; [|done].
  unfold after_visit. destruct (on_visit wtx) as [wtx1| |] eqn:Hv; [| |done].
  - intros Hrun. apply walk_spends_frame in Hrun as [Hm _]. specialize (Hm root).
    simpl in Hm. rewrite lookup_insert_eq in Hm. inversion Hm as [a b Hab|]; subst.
    exists wtx, b. rewrite Hv. done.
  - intros Hrun. apply walk_spends_frame in Hrun as [Hm _]. specialize (Hm root).
    rewrite Hroot in Hm. inversion Hm as [a b Hab|]; subst.
    exists wtx, b. rewrite Hv. done.
Qed.

End WalkFrame.

(** A walk whose first transaction is skipped ends at once. *)
Lemma walk_spends_skip (on_visit : CWalletTx -> visit) fuel root w wtx :
  mapWallet w !! root = Some wtx -> on_visit wtx = Skip ->
  walk_spends on_visit (S fuel) {[root]} ∅ w = Finished w.
Proof.
  intros Hroot Hv. simpl. rewrite set_begin_singleton, Hroot, Hv.
  replace ({[root]} ∖ {[root]} : gset N) with (∅ : gset N) by set_solver.
  by destruct fuel.
Qed.

Lemma only_confirmations_change_refl w : only_confirmations_change w w.
Proof.
  split; [|done]. intros x. destruct (mapWallet w !! x); constructor.
  apply same_but_confirm_refl.
Qed.

Lemma MarkConflicted_frame c hb hashTx w w' :
  MarkConflicted c hb hashTx w = Finished w' -> only_confirmations_change w w'.
Proof.
  intros Hrun. unfold MarkConflicted in Hrun.
  destruct (0 <=? _); [injection Hrun as <-; apply only_confirmations_change_refl|].
  eapply (walk_spends_frame _ same_but_confirm); [| | |exact Hrun].
  - apply same_but_confirm_refl.
  - apply same_but_confirm_trans.
  - intros wtx wtx'. unfold MarkConflicted_visit. destruct (_ <? _); [|done].
    intros [= <-]. apply same_but_confirm_with_confirm.
Qed.

Lemma AbandonTransaction_frame c hashTx w w' ret :
  AbandonTransaction c hashTx w = Finished (ret, w') -> only_confirmations_change w w'.
Proof.
  intros Hrun. unfold AbandonTransaction in Hrun. destruct (mapWallet w !! hashTx); [|done].
  destruct (_ || _); [injection Hrun as <- <-; apply only_confirmations_change_refl|].
  destruct (walk_spends _ _ _ _ _) as [w1| |] eqn:Hwalk; [|done..].
  injection Hrun as <- <-.
  eapply (walk_spends_frame _ same_but_confirm); [| | |exact Hwalk].
  - apply same_but_confirm_refl.
  - apply same_but_confirm_trans.
  - intros wtx wtx'. unfold AbandonTransaction_visit. destruct (negb _); [done|].
    destruct (_ && _); [|done]. destruct (InMempool wtx); [done|].
    intros [= <-]. apply same_but_confirm_with_confirm.
Qed.

(** X7: MarkConflicted and AbandonTransaction, whenever they return,
    have changed nothing but confirmations: the wallet holds the same
    transactions, each with the same payload, notes, metadata, mempool
    flag, times and order position; the three spend indexes, the ordered
    list and the position counter are as before, and the database log
    has only grown. *)
Theorem retiring_changes_only_confirmations (c : Chain) (hashTx : uint256) (w w' : CWallet) :
  (exists hashBlock_, MarkConflicted c hashBlock_ hashTx w = Finished w') \/
  (exists ret, AbandonTransaction c hashTx w = Finished (ret, w')) ->
  only_confirmations_change w w'.
Proof.
  intros [[hb Hrun]|[ret Hrun]].
  - by eapply MarkConflicted_frame.
  - by eapply AbandonTransaction_frame.
Qed.

Lemma retiring_changes_only_confirmations_witness :
  ((exists hashBlock_,
      MarkConflicted Samples.chain hashBlock_ 1%N Samples.cycle_wallet
        = Finished MoreSamples.conflicted_cycle) \/
   (exists ret,
      AbandonTransaction Samples.chain 1%N Samples.cycle_wallet
        = Finished (ret, MoreSamples.conflicted_cycle))) /\
  only_confirmations_change Samples.cycle_wallet MoreSamples.conflicted_cycle.
Proof.
  assert (H : (exists hashBlock_,
      MarkConflicted Samples.chain hashBlock_ 1%N Samples.cycle_wallet
        = Finished MoreSamples.conflicted_cycle) \/
   (exists ret,
      AbandonTransaction Samples.chain 1%N Samples.cycle_wallet
        = Finished (ret, MoreSamples.conflicted_cycle)))
    by (left; exists 501%N; vm_compute; reflexivity).
  split; [exact H|].
  exact (retiring_changes_only_confirmations Samples.chain 1%N Samples.cycle_wallet
           MoreSamples.conflicted_cycle H).
Defined.

(** ** Retired transactions and the spent queries *)

Lemma depth_marked c hb st wtx :
  GetDepthInMainChain c
    (with_confirm (setConflicted {| status := st; hashBlock := hb; nIndex := 0 |}) wtx)
  = - getBlockDepth c hb.
Proof.
  unfold GetDepthInMainChain, GetDepthInMainChainINTERNAL,
    isUnconfirmed, isAbandoned, isConflicted. simpl. lia.
Qed.

Lemma depth_abandoned c wtx : isAbandoned wtx = true -> GetDepthInMainChain c wtx = 0.
Proof. unfold GetDepthInMainChain. intros ->. by rewrite orb_true_r. Qed.

Lemma changed_to_refl P a : changed_to P a a.
Proof. split; [apply same_but_confirm_refl|by left]. Qed.

Lemma changed_to_trans P a b d : changed_to P a b -> changed_to P b d -> changed_to P a d.
Proof.
  intros [Hab Hb] [Hbd [->|Hd]]; [done|].
  split; [by eapply same_but_confirm_trans|by right].
Qed.

Lemma changed_to_keeps (P : CWalletTx -> Prop) a b : changed_to P a b -> P a -> P b.
Proof. by intros [_ [->|?]]. Qed.

(** What a returned MarkConflicted (for a block of the main chain) or
    AbandonTransaction (returning true) has done: [P] holds of every
    transaction it changed and of [hashTx]. *)
Lemma MarkConflicted_changes c hb hashTx w w' :
  0 < getBlockDepth c hb ->
  MarkConflicted c hb hashTx w = Finished w' ->
  (forall x, option_Forall2
     (changed_to (fun b => GetDepthInMainChain c b <= - getBlockDepth c hb))
     (mapWallet w !! x) (mapWallet w' !! x)) /\
  exists wtx', mapWallet w' !! hashTx = Some wtx' /\
    GetDepthInMainChain c wtx' <= - getBlockDepth c hb.
Proof.
  intros Hd Hrun. unfold MarkConflicted in Hrun.
  destruct (Z.leb_spec 0 (- getBlockDepth c hb)); [lia|].
  set (P := fun b => GetDepthInMainChain c b <= - getBlockDepth c hb).
  assert (Hvisit : forall wtx wtx',
    MarkConflicted_visit c hb (- getBlockDepth c hb) wtx = Mark wtx' ->
    changed_to P wtx wtx').
  { intros wtx wtx'. unfold MarkConflicted_visit. destruct (_ <? _); [|done].
    intros [= <-]. split; [apply same_but_confirm_with_confirm|].
    right. unfold P. rewrite depth_marked. lia. }
  split.
  - eapply (walk_spends_frame _ (changed_to P)); [| | |exact Hrun];
      [apply changed_to_refl|apply changed_to_trans|exact Hvisit].
  - destruct (walk_spends_root _ (changed_to P) (changed_to_refl P) (changed_to_trans P)
                Hvisit _ _ _ _ Hrun) as (wtx & wtx' & Hw & _ & Hw' & HR).
    exists wtx'. split; [done|]. apply (changed_to_keeps _ _ _ HR).
    unfold after_visit, MarkConflicted_visit, P.
    destruct (Z.ltb_spec (- getBlockDepth c hb) (GetDepthInMainChain c wtx)); [|done].
    rewrite depth_marked. lia.
Qed.

Lemma AbandonTransaction_changes c hashTx w w' :
  AbandonTransaction c hashTx w = Finished (true, w') ->
  (forall x, option_Forall2 (changed_to (fun b => isAbandoned b = true))
     (mapWallet w !! x) (mapWallet w' !! x)) /\
  exists wtx', mapWallet w' !! hashTx = Some wtx' /\
    isAbandoned wtx' = true /\ InMempool wtx' = false.
Proof.
  intros Hrun. set (P := fun b => isAbandoned b = true).
  unfold AbandonTransaction in Hrun.
  destruct (mapWallet w !! hashTx) as [origtx|] eqn:Horig; [|done].
  destruct (Z.eqb_spec (GetDepthInMainChain c origtx) 0) as [Hd|]; [|done].
  destruct (InMempool origtx) eqn:Hmem; [done|].
  change (negb false || false) with false in Hrun. cbv iota in Hrun.
  destruct (walk_spends _ _ _ _ _) as [w1| |] eqn:Hwalk; [|done..].
  injection Hrun as <-.
  assert (Hvisit : forall wtx wtx',
    AbandonTransaction_visit c wtx = Mark wtx' -> changed_to P wtx wtx').
  { intros wtx wtx'. unfold AbandonTransaction_visit. destruct (negb _); [done|].
    destruct (_ && _); [|done]. destruct (InMempool wtx); [done|].
    intros [= <-]. split; [apply same_but_confirm_with_confirm|by right]. }
  split.
  - eapply (walk_spends_frame _ (changed_to P)); [| | |exact Hwalk];
      [apply changed_to_refl|apply changed_to_trans|exact Hvisit].
  - destruct (walk_spends_root _ (changed_to P) (changed_to_refl P) (changed_to_trans P)
                Hvisit _ _ _ _ Hwalk) as (wtx & wtx' & Hw & Hsafe & Hw' & HR).
    rewrite Horig in Hw. injection Hw as <-.
    exists wtx'. split; [done|]. split.
    + apply (changed_to_keeps _ _ _ HR).
      unfold after_visit. unfold AbandonTransaction_visit in *. rewrite Hd in *. simpl in *.
      destruct (isAbandoned origtx) eqn:Hab; simpl in *; [done|].
      rewrite Hmem in *. done.
    + destruct HR as [HR _]. unfold same_but_confirm in HR.
      assert (InMempool wtx' = InMempool (after_visit (AbandonTransaction_visit c) origtx))
        as -> by (rewrite <- HR; reflexivity).
      unfold after_visit, AbandonTransaction_visit. rewrite Hd. simpl.
      destruct (isAbandoned origtx); simpl; [done|]. by rewrite Hmem.
Qed.

Lemma spent_in_sole c (m : gmap N CWalletTx) range hashTx wtx' :
  m !! hashTx = Some wtx' -> ~ spends_now c wtx' ->
  (forall id, id ∈ range -> id = hashTx) -> spent_in c m range = false.
Proof.
  intros Hm Hnot Hsole. apply not_true_is_false. intros Hs.
  apply spent_in_iff in Hs as (id & wtx & Hin & Hid & Hnow).
  rewrite (Hsole id Hin) in Hid. congruence.
Qed.

Lemma spent_in_mono c (P : CWalletTx -> Prop) (m m' : gmap N CWalletTx) range :
  (forall b, P b -> ~ spends_now c b) ->
  (forall x, option_Forall2 (changed_to P) (m !! x) (m' !! x)) ->
  spent_in c m' range = true -> spent_in c m range = true.
Proof.
  intros HP Hm Hs. apply spent_in_iff in Hs as (id & wtx' & Hin & Hid & Hnow).
  apply spent_in_iff. specialize (Hm id). rewrite Hid in Hm.
  inversion Hm as [a b Hab Ha|]; subst. destruct Hab as [_ [->|Hb]].
  - exists id, a. done.
  - by destruct (HP wtx' Hb).
Qed.

(** X8: marking a transaction as conflicting with a block of the main
    chain, or abandoning it, never makes a coin or a note spent; and a
    coin or nullifier for which [hashTx] is the only registered spender
    is unspent afterwards (IsSpent, IsSproutSpent and IsSaplingSpent
    answer false). *)
Theorem retiring_frees_coins (c : Chain) (hashTx : uint256) (w w' : CWallet) :
  retired_by c hashTx w w' ->
  (forall hash n, IsSpent c w' hash n = true -> IsSpent c w hash n = true) /\
  (forall nf, IsSproutSpent c w' nf = true -> IsSproutSpent c w nf = true) /\
  (forall nf, IsSaplingSpent c w' nf = true -> IsSaplingSpent c w nf = true) /\
  (forall hash n,
     (forall id, (COutPoint.mk hash n, id) ∈ mapTxSpends w -> id = hashTx) ->
     IsSpent c w' hash n = false) /\
  (forall nf, (forall id, (nf, id) ∈ mapTxSproutNullifiers w -> id = hashTx) ->
     IsSproutSpent c w' nf = false) /\
  (forall nf, (forall id, (nf, id) ∈ mapTxSaplingNullifiers w -> id = hashTx) ->
     IsSaplingSpent c w' nf = false).
Proof.
  intros Hret.
  assert (Hframe : only_confirmations_change w w').
  { destruct Hret as [(hb & _ & Hrun)|Hrun];
      [by eapply MarkConflicted_frame|by eapply AbandonTransaction_frame]. }
  destruct Hframe as (_ & Hs & Hsp & Hsa & _).
  assert (exists P : CWalletTx -> Prop,
    (forall b, P b -> ~ spends_now c b) /\
    (forall x, option_Forall2 (changed_to P) (mapWallet w !! x) (mapWallet w' !! x)) /\
    exists wtx', mapWallet w' !! hashTx = Some wtx' /\ P wtx')
    as (P & HP & Hm & wtx' & Hw' & HPw).
  { destruct Hret as [(hb & Hd & Hrun)|Hrun].
    - destruct (MarkConflicted_changes c hb hashTx w w' Hd Hrun) as [Hm Hroot].
      eexists. split; [|split; [exact Hm|exact Hroot]].
      intros b Hb. unfold spends_now. simpl in Hb. lia.
    - destruct (AbandonTransaction_changes c hashTx w w' Hrun) as [Hm (wtx' & ? & ? & _)].
      eexists. split; [|split; [exact Hm|by exists wtx']].
      intros b Hb [Hpos|[_ Hab]]; simpl in Hb; [|congruence].
      rewrite (depth_abandoned c b Hb) in Hpos. lia. }
  unfold IsSpent, IsSproutSpent, IsSaplingSpent. rewrite Hs, Hsp, Hsa.
  split; [intros hash n; by apply (spent_in_mono c P)|].
  split; [intros nf; by apply (spent_in_mono c P)|].
  split; [intros nf; by apply (spent_in_mono c P)|].
  split; [|split].
  - intros hash n Hsole. apply (spent_in_sole c _ _ hashTx wtx'); [done|by apply HP|].
    intros id Hid. by apply Hsole, elem_of_equal_range.
  - intros nf Hsole. apply (spent_in_sole c _ _ hashTx wtx'); [done|by apply HP|].
    intros id Hid. by apply Hsole, elem_of_equal_range.
  - intros nf Hsole. apply (spent_in_sole c _ _ hashTx wtx'); [done|by apply HP|].
    intros id Hid. by apply Hsole, elem_of_equal_range.
Qed.

Lemma retiring_frees_coins_witness :
  retired_by Samples.chain 2%N Samples.spend_wallet MoreSamples.abandoned_spend /\
  (forall hash n, IsSpent Samples.chain MoreSamples.abandoned_spend hash n = true ->
                  IsSpent Samples.chain Samples.spend_wallet hash n = true) /\
  (forall nf, IsSproutSpent Samples.chain MoreSamples.abandoned_spend nf = true ->
              IsSproutSpent Samples.chain Samples.spend_wallet nf = true) /\
  (forall nf, IsSaplingSpent Samples.chain MoreSamples.abandoned_spend nf = true ->
              IsSaplingSpent Samples.chain Samples.spend_wallet nf = true) /\
  (forall hash n,
     (forall id, (COutPoint.mk hash n, id) ∈ mapTxSpends Samples.spend_wallet -> id = 2%N) ->
     IsSpent Samples.chain MoreSamples.abandoned_spend hash n = false) /\
  (forall nf,
     (forall id, (nf, id) ∈ mapTxSproutNullifiers Samples.spend_wallet -> id = 2%N) ->
     IsSproutSpent Samples.chain MoreSamples.abandoned_spend nf = false) /\
  (forall nf,
     (forall id, (nf, id) ∈ mapTxSaplingNullifiers Samples.spend_wallet -> id = 2%N) ->
     IsSaplingSpent Samples.chain MoreSamples.abandoned_spend nf = false).
Proof.
  assert (H : retired_by Samples.chain 2%N Samples.spend_wallet MoreSamples.abandoned_spend)
    by (right; vm_compute; reflexivity).
  split; [exact H|].
  exact (retiring_frees_coins Samples.chain 2%N Samples.spend_wallet
           MoreSamples.abandoned_spend H).
Defined.

(** X9: a transaction that was marked as conflicting with a block of the
    main chain, or abandoned, cannot be abandoned (TransactionCanBeAbandoned
    is false), and the same call again changes nothing more: MarkConflicted
    returns the wallet as it is, AbandonTransaction returns true and the
    wallet as it is. *)
Theorem retiring_twice (c : Chain) (hashTx : uint256) (w w' : CWallet) :
  retired_by c hashTx w w' ->
  TransactionCanBeAbandoned c w' hashTx = false /\
  (forall hashBlock_, 0 < getBlockDepth c hashBlock_ ->
     MarkConflicted c hashBlock_ hashTx w = Finished w' ->
     MarkConflicted c hashBlock_ hashTx w' = Finished w') /\
  (AbandonTransaction c hashTx w = Finished (true, w') ->
   AbandonTransaction c hashTx w' = Finished (true, w')).
Proof.
  intros Hret. split; [|split].
  - unfold TransactionCanBeAbandoned. destruct Hret as [(hb & Hd & Hrun)|Hrun].
    + destruct (MarkConflicted_changes c hb hashTx w w' Hd Hrun) as [_ (wtx' & -> & Hle)].
      destruct (Z.eqb_spec (GetDepthInMainChain c wtx') 0); [lia|].
      by rewrite andb_false_r.
    + destruct (AbandonTransaction_changes c hashTx w w' Hrun) as [_ (wtx' & -> & -> & _)].
      done.
  - intros hb Hd Hrun.
    destruct (MarkConflicted_changes c hb hashTx w w' Hd Hrun) as [_ (wtx' & Hw' & Hle)].
    unfold MarkConflicted. destruct (Z.leb_spec 0 (- getBlockDepth c hb)); [lia|].
    apply (walk_spends_skip _ _ _ _ wtx'); [done|].
    unfold MarkConflicted_visit.
    by destruct (Z.ltb_spec (- getBlockDepth c hb) (GetDepthInMainChain c wtx')); [lia|].
  - intros Hrun.
    destruct (AbandonTransaction_changes c hashTx w w' Hrun) as [_ (wtx' & Hw' & Hab & Hmem)].
    unfold AbandonTransaction. rewrite Hw', (depth_abandoned c wtx' Hab), Hmem.
    change (negb (0 =? 0) || false) with false. cbv iota. unfold walk_fuel.
    rewrite (walk_spends_skip _ _ _ _ wtx'); [done|done|].
    unfold AbandonTransaction_visit. rewrite (depth_abandoned c wtx' Hab), Hab. done.
Qed.

Lemma retiring_twice_witness :
  retired_by Samples.chain 1%N Samples.cycle_wallet MoreSamples.conflicted_cycle /\
  TransactionCanBeAbandoned Samples.chain MoreSamples.conflicted_cycle 1%N = false /\
  (forall hashBlock_, 0 < getBlockDepth Samples.chain hashBlock_ ->
     MarkConflicted Samples.chain hashBlock_ 1%N Samples.cycle_wallet
       = Finished MoreSamples.conflicted_cycle ->
     MarkConflicted Samples.chain hashBlock_ 1%N MoreSamples.conflicted_cycle
       = Finished MoreSamples.conflicted_cycle) /\
  (AbandonTransaction Samples.chain 1%N Samples.cycle_wallet
     = Finished (true, MoreSamples.conflicted_cycle) ->
   AbandonTransaction Samples.chain 1%N MoreSamples.conflicted_cycle
     = Finished (true, MoreSamples.conflicted_cycle)).
Proof.
  assert (H : retired_by Samples.chain 1%N Samples.cycle_wallet MoreSamples.conflicted_cycle)
    by (left; exists 501%N; split; [reflexivity|vm_compute; reflexivity]).
  split; [exact H|].
  exact (retiring_twice Samples.chain 1%N Samples.cycle_wallet MoreSamples.conflicted_cycle H).
Defined.

(** ** SyncMetaData *)

Lemma to_int_id z : - 2 ^ 31 <= z < 2 ^ 31 -> to_int z = z.
Proof. intros Hz. unfold to_int. rewrite Z.mod_small by lia. lia. Qed.

Lemma synced_idem from_id copyFrom id x :
  synced from_id copyFrom id (synced from_id copyFrom id x) = synced from_id copyFrom id x.
Proof.
  unfold synced. case_decide; [done|].
  destruct (IsEquivalentTo copyFrom x) eqn:He; [|by rewrite He].
  assert (IsEquivalentTo copyFrom (copy_metadata copyFrom x) = true) as -> by exact He.
  done.
Qed.

Lemma only_mapWallet_changes_refl w : only_mapWallet_changes w w.
Proof. by destruct w. Qed.

Lemma only_mapWallet_changes_step m w w' :
  only_mapWallet_changes (with_mapWallet m w) w' -> only_mapWallet_changes w w'.
Proof.
  unfold only_mapWallet_changes, with_mapWallet. destruct w, w'; simpl.
  intros [= -> -> -> -> -> ->]. done.
Qed.

Lemma copy_to_rest_spec from_id copyFrom range w w' :
  copy_to_rest from_id copyFrom range w = Returned tt w' ->
  only_mapWallet_changes w w' /\
  forall id, mapWallet w' !! id =
    if decide (id ∈ range) then synced from_id copyFrom id <$> mapWallet w !! id
    else mapWallet w !! id.
Proof.
  revert w. induction range as [|hash range IH]; intros w; cbn [copy_to_rest].
  - intros [= <-]. split; [apply only_mapWallet_changes_refl|]. intros id.
    by rewrite decide_False by apply not_elem_of_nil.
  - destruct (mapWallet w !! hash) as [copyTo|] eqn:Hto; [|done].
    assert (Hstep : copy_to_rest from_id copyFrom range
              (with_mapWallet (<[hash := synced from_id copyFrom hash copyTo]> (mapWallet w)) w)
              = Returned tt w' ->
            only_mapWallet_changes w w' /\
            forall id, mapWallet w' !! id =
              if decide (id ∈ hash :: range)
              then synced from_id copyFrom id <$> mapWallet w !! id
              else mapWallet w !! id).
    { intros Hr. apply IH in Hr as [Hf Hm]. split.
      - by eapply only_mapWallet_changes_step.
      - intros id. rewrite Hm. cbn [mapWallet with_mapWallet].
        destruct (decide (id = hash)) as [->|Hne].
        + rewrite lookup_insert_eq, Hto.
          rewrite (decide_True (P := hash ∈ hash :: range)) by left.
          destruct (decide (hash ∈ range)); simpl; [by rewrite synced_idem|done].
        + rewrite lookup_insert_ne by done.
          destruct (decide (id ∈ range)) as [Hin|Hin].
          * by rewrite (decide_True (P := id ∈ hash :: range)) by (by right).
          * rewrite (decide_False (P := id ∈ hash :: range)); [done|].
            by intros [?|?]%elem_of_cons. }
    unfold synced in Hstep. case_decide.
    + intros Hr. apply Hstep. rewrite insert_id by done. by rewrite with_mapWallet_same.
    + destruct (IsEquivalentTo copyFrom copyTo); simpl; [done|].
      intros Hr. apply Hstep. rewrite insert_id by done. by rewrite with_mapWallet_same.
Qed.

Lemma find_copyFrom_spec (m : gmap N CWalletTx) range nMin cf r :
  find_copyFrom m range nMin cf = Some r ->
  match cf with
  | Some from_id => exists wf, m !! from_id = Some wf /\ to_int (nOrderPos wf) = nMin
  | None => True
  end ->
  match r with
  | Some from_id =>
      exists wf, m !! from_id = Some wf /\ (from_id ∈ range \/ cf = Some from_id) /\
        ((forall id wtx, id ∈ range -> m !! id = Some wtx ->
            - 2 ^ 31 <= nOrderPos wtx < 2 ^ 31) ->
         (forall id wtx, cf = Some id -> m !! id = Some wtx ->
            - 2 ^ 31 <= nOrderPos wtx < 2 ^ 31) ->
         nOrderPos wf <= nMin /\
         forall id wtx, id ∈ range -> m !! id = Some wtx -> nOrderPos wf <= nOrderPos wtx)
  | None => cf = None /\
      forall id wtx, id ∈ range -> m !! id = Some wtx -> nMin <= nOrderPos wtx
  end.
Proof.
  revert nMin cf. induction range as [|wtxid range IH]; intros nMin cf; simpl.
  - intros [= <-] Hcf. destruct cf as [from_id|].
    + destruct Hcf as (wf & Hwf & Hpos). exists wf. split; [done|]. split; [by right|].
      intros _ Hint. split; [|by intros id wtx ?%elem_of_nil].
      rewrite to_int_id in Hpos by (by apply (Hint from_id)). lia.
    + split; [done|]. by intros id wtx ?%elem_of_nil.
  - destruct (m !! wtxid) as [wtx0|] eqn:H0; [|done].
    destruct (Z.ltb_spec (nOrderPos wtx0) nMin) as [Hlt|Hge]; intros Hr Hcf.
    + apply IH in Hr; [|by exists wtx0].
      destruct r as [from_id|]; [|by destruct Hr].
      destruct Hr as (wf & Hwf & Hin & Hmin). exists wf. split; [done|]. split.
      { destruct Hin as [?|[= <-]]; left; [by right|by left]. }
      intros Hint Hn.
      assert (- 2 ^ 31 <= nOrderPos wtx0 < 2 ^ 31) as H0r by (apply (Hint wtxid); [left|done]).
      rewrite (to_int_id _ H0r) in Hmin.
      destruct Hmin as [Hle Hall].
      { intros id wtx Hid. apply (Hint id). by right. }
      { intros id wtx [= <-] Hw. rewrite H0 in Hw. by injection Hw as <-. }
      split; [lia|]. intros id wtx [->|Hid]%elem_of_cons Hw.
      * rewrite H0 in Hw. injection Hw as <-. done.
      * by apply (Hall id).
    + apply IH in Hr; [|done].
      destruct r as [from_id|].
      * destruct Hr as (wf & Hwf & Hin & Hmin). exists wf. split; [done|]. split.
        { destruct Hin as [?|?]; [left; by right|by right]. }
        intros Hint Hn.
        destruct Hmin as [Hle Hall]; [intros id wtx Hid; apply (Hint id); by right|done|].
        split; [done|]. intros id wtx [->|Hid]%elem_of_cons Hw.
        -- rewrite H0 in Hw. injection Hw as <-. lia.
        -- by apply (Hall id).
      * destruct Hr as [-> Hall]. split; [done|].
        intros id wtx [->|Hid]%elem_of_cons Hw.
        -- rewrite H0 in Hw. injection Hw as <-. done.
        -- by apply (Hall id).
Qed.

(** X10: SyncMetaData writes nothing but mapWallet (it does not write
    to the database).  Either no transaction of the range has an order
    position below INT_MAX and the wallet is as before, or there is a
    transaction [copyFrom] in the range, itself left alone, and every
    transaction of the range equivalent to it (equal up to scriptSigs)
    ends with copyFrom's mapValue, vOrderForm, nTimeSmart and fFromMe,
    every other transaction being untouched; when the order positions
    fit an [int], copyFrom has the least one of the range. *)
Theorem SyncMetaData_copies (range : list uint256) (w w' : CWallet) :
  SyncMetaData range w = Returned tt w' ->
  only_mapWallet_changes w w' /\
  ((w' = w /\
    forall id wtx, id ∈ range -> mapWallet w !! id = Some wtx -> INT_MAX <= nOrderPos wtx) \/
   (exists from_id copyFrom,
      from_id ∈ range /\ mapWallet w !! from_id = Some copyFrom /\
      mapWallet w' !! from_id = Some copyFrom /\
      (forall id, mapWallet w' !! id =
         if decide (id ∈ range) then synced from_id copyFrom id <$> mapWallet w !! id
         else mapWallet w !! id) /\
      (int_positions w range ->
       forall id wtx, id ∈ range -> mapWallet w !! id = Some wtx ->
         nOrderPos copyFrom <= nOrderPos wtx))).
Proof.
  unfold SyncMetaData.
  destruct (find_copyFrom _ _ _ _) as [[from_id|]|] eqn:Hfind; [| |done].
  - apply find_copyFrom_spec in Hfind; [|done].
    destruct Hfind as (wf & Hwf & [Hin|?] & Hmin); [|done]. rewrite Hwf.
    intros Hrun. apply copy_to_rest_spec in Hrun as [Hfr Hm]. split; [done|].
    right. exists from_id, wf. split; [done|]. split; [done|]. split.
    + rewrite Hm, decide_True, Hwf by done. simpl. unfold synced.
      by rewrite decide_True.
    + split; [done|]. intros Hint. apply Hmin; [|done].
      intros id wtx Hid Hw. destruct (Hint id wtx Hid Hw). unfold INT_MAX in *. lia.
  - intros [= <-]. split; [apply only_mapWallet_changes_refl|]. left. split; [done|].
    apply find_copyFrom_spec in Hfind; [|done]. by destruct Hfind.
Qed.

Lemma SyncMetaData_copies_witness :
  SyncMetaData [5%N; 6%N] MoreSamples.malleated_wallet
    = Returned tt MoreSamples.synced_wallet /\
  only_mapWallet_changes MoreSamples.malleated_wallet MoreSamples.synced_wallet /\
  ((MoreSamples.synced_wallet = MoreSamples.malleated_wallet /\
    forall id wtx, id ∈ [5%N; 6%N] -> mapWallet MoreSamples.malleated_wallet !! id = Some wtx ->
      INT_MAX <= nOrderPos wtx) \/
   (exists from_id copyFrom,
      from_id ∈ [5%N; 6%N] /\ mapWallet MoreSamples.malleated_wallet !! from_id = Some copyFrom /\
      mapWallet MoreSamples.synced_wallet !! from_id = Some copyFrom /\
      (forall id, mapWallet MoreSamples.synced_wallet !! id =
         if decide (id ∈ [5%N; 6%N])
         then synced from_id copyFrom id <$> mapWallet MoreSamples.malleated_wallet !! id
         else mapWallet MoreSamples.malleated_wallet !! id) /\
      (int_positions MoreSamples.malleated_wallet [5%N; 6%N] ->
       forall id wtx, id ∈ [5%N; 6%N] ->
         mapWallet MoreSamples.malleated_wallet !! id = Some wtx ->
         nOrderPos copyFrom <= nOrderPos wtx))).
Proof.
  assert (H : SyncMetaData [5%N; 6%N] MoreSamples.malleated_wallet
    = Returned tt MoreSamples.synced_wallet) by (vm_compute; reflexivity).
  split; [exact H|].
  exact (SyncMetaData_copies [5%N; 6%N] MoreSamples.malleated_wallet
           MoreSamples.synced_wallet H).
Defined.

(** ** AddToSpends and the spend index *)

Lemma only_mapWallet_changes_index w w' :
  only_mapWallet_changes w w' -> index_grows [] [] [] w w'.
Proof.
  unfold only_mapWallet_changes, index_grows. intros <-. simpl.
  by rewrite !app_nil_r.
Qed.

Lemma index_grows_refl w : index_grows [] [] [] w w.
Proof. unfold index_grows. by rewrite !app_nil_r. Qed.

Lemma index_grows_trans a b d a' b' d' w w1 w2 :
  index_grows a b d w w1 -> index_grows a' b' d' w1 w2 ->
  index_grows (a ++ a') (b ++ b') (d ++ d') w w2.
Proof.
  intros (H1 & H2 & H3 & H4 & H5 & H6) (G1 & G2 & G3 & G4 & G5 & G6).
  unfold index_grows. rewrite G1, G2, G3, G4, G5, G6, H1, H2, H3, H4, H5, H6.
  by rewrite !app_assoc.
Qed.

Lemma SyncMetaData_index range w w' :
  SyncMetaData range w = Returned tt w' -> index_grows [] [] [] w w'.
Proof.
  unfold SyncMetaData. destruct (find_copyFrom _ _ _ _) as [[from_id|]|]; [| |done].
  - destruct (mapWallet w !! from_id); [|done]. intros Hr.
    apply copy_to_rest_spec in Hr as [Hr _]. by apply only_mapWallet_changes_index.
  - intros [= <-]. apply index_grows_refl.
Qed.

Lemma AddToTransparentSpends_index wtxid o w w' :
  AddToTransparentSpends wtxid o w = Returned tt w' -> index_grows [(o, wtxid)] [] [] w w'.
Proof.
  unfold AddToTransparentSpends. intros Hr. apply SyncMetaData_index in Hr.
  apply (index_grows_trans [(o, wtxid)] [] [] [] [] [] w _ w') in Hr; [done|].
  unfold index_grows, multimap_insert. simpl. by rewrite !app_nil_r.
Qed.

Lemma AddToSproutSpends_index wtxid nf w w' :
  AddToSproutSpends wtxid nf w = Returned tt w' -> index_grows [] [(nf, wtxid)] [] w w'.
Proof.
  unfold AddToSproutSpends. intros Hr. apply SyncMetaData_index in Hr.
  apply (index_grows_trans [] [(nf, wtxid)] [] [] [] [] w _ w') in Hr; [done|].
  unfold index_grows, multimap_insert. simpl. by rewrite !app_nil_r.
Qed.

Lemma AddToSaplingSpends_index wtxid nf w w' :
  AddToSaplingSpends wtxid nf w = Returned tt w' -> index_grows [] [] [(nf, wtxid)] w w'.
Proof.
  unfold AddToSaplingSpends. intros Hr. apply SyncMetaData_index in Hr.
  apply (index_grows_trans [] [] [(nf, wtxid)] [] [] [] w _ w') in Hr; [done|].
  unfold index_grows, multimap_insert. simpl. by rewrite !app_nil_r.
Qed.

Lemma for_each_index {A} (body : A -> CWallet -> call_result unit)
    (f : A -> list (COutPoint.t * uint256)) (g h : A -> list (uint256 * uint256)) l w w' :
  (forall x w1 w2, body x w1 = Returned tt w2 -> index_grows (f x) (g x) (h x) w1 w2) ->
  for_each body l w = Returned tt w' ->
  index_grows (concat (f <$> l)) (concat (g <$> l)) (concat (h <$> l)) w w'.
Proof.
  intros Hbody. revert w. induction l as [|x l IH]; intros w; simpl.
  - intros [= <-]. apply index_grows_refl.
  - destruct (body x w) as [[] w1| |] eqn:Hb; simpl; [|done|done].
    intros Hr. eapply index_grows_trans; [by eapply Hbody|by apply IH].
Qed.

Lemma concat_singletons {A B} (f : A -> B) (l : list A) :
  concat ((fun x => [f x]) <$> l) = f <$> l.
Proof. induction l as [|x l IH]; [done|]. rewrite !fmap_cons. cbn [concat app]. by f_equal. Qed.

Lemma concat_nils {A B} (l : list A) : concat ((fun _ => @nil B) <$> l) = [].
Proof. induction l as [|x l IH]; [done|]. rewrite fmap_cons. cbn [concat app]. done. Qed.

Lemma AddToSpends_index IsCoinBase wtxid w w' thisTx :
  mapWallet w !! wtxid = Some thisTx -> IsCoinBase (tx thisTx) = false ->
  AddToSpends IsCoinBase wtxid w = Returned tt w' ->
  index_grows ((fun txin => (prevout txin, wtxid)) <$> vin (tx thisTx))
              ((fun nf => (nf, wtxid)) <$> concat (nullifiers <$> vJoinSplit (tx thisTx)))
              ((fun nf => (nf, wtxid)) <$> vShieldedSpend (tx thisTx)) w w'.
Proof.
  intros Hw Hcb. unfold AddToSpends. rewrite Hw, Hcb.
  destruct (for_each (AddToTransparentSpends wtxid) _ w) as [[] w1| |] eqn:H1; simpl; [|done|done].
  destruct (for_each (AddToSproutSpends wtxid) _ w1) as [[] w2| |] eqn:H2; simpl; [|done|done].
  intros H3.
  apply (for_each_index _ (fun o => [(o, wtxid)]) (fun _ => []) (fun _ => [])) in H1;
    [|intros; by apply AddToTransparentSpends_index].
  apply (for_each_index _ (fun _ => []) (fun nf => [(nf, wtxid)]) (fun _ => [])) in H2;
    [|intros; by apply AddToSproutSpends_index].
  apply (for_each_index _ (fun _ => []) (fun _ => []) (fun nf => [(nf, wtxid)])) in H3;
    [|intros; by apply AddToSaplingSpends_index].
  rewrite concat_singletons, !concat_nils in H1.
  rewrite concat_singletons, !concat_nils in H2.
  rewrite concat_singletons, !concat_nils in H3.
  pose proof (index_grows_trans _ _ _ _ _ _ _ _ _ (index_grows_trans _ _ _ _ _ _ _ _ _ H1 H2) H3)
    as H.
  rewrite !app_nil_r in H. simpl in H. rewrite <- list_fmap_compose in H. exact H.
Qed.

(** X11: AddToSpends does nothing for a coinbase transaction; for any
    other transaction of the wallet it appends one entry per input to
    mapTxSpends and one per nullifier to the two nullifier indexes, in
    the order of the transaction, writes nothing to the database, and
    leaves the transaction registered for all its inputs. *)
Theorem AddToSpends_registers (IsCoinBase : CTransaction -> bool) (wtxid : uint256)
    (w w' : CWallet) (thisTx : CWalletTx) :
  mapWallet w !! wtxid = Some thisTx ->
  AddToSpends IsCoinBase wtxid w = Returned tt w' ->
  if IsCoinBase (tx thisTx) then w' = w
  else
    index_grows ((fun txin => (prevout txin, wtxid)) <$> vin (tx thisTx))
                ((fun nf => (nf, wtxid)) <$> concat (nullifiers <$> vJoinSplit (tx thisTx)))
                ((fun nf => (nf, wtxid)) <$> vShieldedSpend (tx thisTx)) w w' /\
    (GetHash thisTx = wtxid -> registered w' thisTx).
Proof.
  intros Hw Hrun. destruct (IsCoinBase (tx thisTx)) eqn:Hcb.
  - unfold AddToSpends in Hrun. rewrite Hw, Hcb in Hrun. by injection Hrun as <-.
  - pose proof (AddToSpends_index IsCoinBase wtxid w w' thisTx Hw Hcb Hrun) as Hidx.
    split; [done|]. intros Hhash. destruct Hidx as (H1 & H2 & H3 & _).
    unfold registered. rewrite H1, H2, H3, Hhash. split; [|split].
    + apply Forall_forall. intros txin Hin. apply elem_of_app. right.
      apply list_elem_of_fmap. by exists txin.
    + apply Forall_forall. intros js Hjs. apply Forall_forall. intros nf Hnf.
      apply elem_of_app. right. apply list_elem_of_fmap. exists nf. split; [done|].
      apply elem_of_concat_fmap. by exists js.
    + apply Forall_forall. intros nf Hnf. apply elem_of_app. right.
      apply list_elem_of_fmap. by exists nf.
Qed.

Lemma AddToSpends_registers_witness :
  mapWallet MoreSamples.unindexed_wallet !! 2%N = Some (MoreSamples.spender 2) /\
  AddToSpends Samples.is_coinbase 2%N MoreSamples.unindexed_wallet
    = Returned tt MoreSamples.indexed_wallet /\
  if Samples.is_coinbase (tx (MoreSamples.spender 2))
  then MoreSamples.indexed_wallet = MoreSamples.unindexed_wallet
  else
    index_grows ((fun txin => (prevout txin, 2%N)) <$> vin (tx (MoreSamples.spender 2)))
                ((fun nf => (nf, 2%N))
                   <$> concat (nullifiers <$> vJoinSplit (tx (MoreSamples.spender 2))))
                ((fun nf => (nf, 2%N)) <$> vShieldedSpend (tx (MoreSamples.spender 2)))
                MoreSamples.unindexed_wallet MoreSamples.indexed_wallet /\
    (GetHash (MoreSamples.spender 2) = 2%N ->
     registered MoreSamples.indexed_wallet (MoreSamples.spender 2)).
Proof.
  assert (H1 : mapWallet MoreSamples.unindexed_wallet !! 2%N = Some (MoreSamples.spender 2))
    by reflexivity.
  assert (H2 : AddToSpends Samples.is_coinbase 2%N MoreSamples.unindexed_wallet
    = Returned tt MoreSamples.indexed_wallet) by (vm_compute; reflexivity).
  split; [exact H1|]. split; [exact H2|].
  exact (AddToSpends_registers Samples.is_coinbase 2%N MoreSamples.unindexed_wallet
           MoreSamples.indexed_wallet (MoreSamples.spender 2) H1 H2).
Defined.

(** ** AddToWallet: the inputs of a new transaction, and the database *)

Section LedgerWrites.

Variable IsCoinBase : CTransaction -> bool.
Variable HasWitness : CTransaction -> bool.
Variable SproutNoteData_eq : NoteData -> NoteData -> bool.
Variable SaplingNoteData_eq : NoteData -> NoteData -> bool.

(** The insertion of a new transaction, step by step. *)
Lemma AddToWallet_new_steps c ok hash wtxIn w r w' :
  AddToWallet_new IsCoinBase c ok hash wtxIn w = Returned r w' ->
  exists stored w4,
    mapWallet w' !! hash = Some stored /\
    tx stored = tx wtxIn /\ m_confirm stored = m_confirm wtxIn /\
    r = {| ret := ok; fInsertedNew := true; fUpdated := false |} /\
    w' = db_write (DbWriteTx stored) w4 /\
    database w4 = database w ++ [DbWriteOrderPosNext (nOrderPosNext w + 1)] /\
    (IsCoinBase (tx wtxIn) = false ->
       mapTxSpends w4 = mapTxSpends w ++
         ((fun txin => (prevout txin, hash)) <$> vin (tx wtxIn)) /\
       mapTxSproutNullifiers w4 = mapTxSproutNullifiers w ++
         ((fun nf => (nf, hash)) <$> concat (nullifiers <$> vJoinSplit (tx wtxIn))) /\
       mapTxSaplingNullifiers w4 = mapTxSaplingNullifiers w ++
         ((fun nf => (nf, hash)) <$> vShieldedSpend (tx wtxIn))).
Proof.
  unfold AddToWallet_new, IncOrderPosNext. simpl.
  destruct (Z.ltb_spec (nOrderPosNext w) INT64_MAX) as [Hlt|]; [simpl|done].
  destruct (ComputeTimeSmart _ _ _ _) as [smart|]; [|done].
  match goal with |- call_bind (AddToSpends _ _ ?x) _ = _ -> _ => set (w3 := x) end.
  destruct (AddToSpends IsCoinBase hash w3) as [[] w4| |] eqn:Hsp; simpl; [|done|done].
  assert (Hw3 : mapWallet w3 !! hash
    = Some (with_receipt (to_unsigned_int (getAdjustedTime c)) smart (nOrderPosNext w) wtxIn)).
  { subst w3. unfold store. simpl. apply lookup_insert_eq. }
  pose proof (AddToSpends_frame _ _ _ _ Hsp) as [Hfr _].
  destruct (Hfr hash _ Hw3) as (stored & Hst & Hc).
  unfold AddToWallet_write. simpl. rewrite Hst. intros [= <- <-].
  exists stored, w4. split; [done|].
  destruct Hc as (Htx & Hcf & _). simpl in Htx, Hcf.
  split; [done|]. split; [done|]. split; [done|]. split; [done|]. split.
  - destruct (IsCoinBase (tx wtxIn)) eqn:Hcb.
    + unfold AddToSpends in Hsp. rewrite Hw3 in Hsp. simpl in Hsp. rewrite Hcb in Hsp.
      injection Hsp as <-. by subst w3.
    + apply (AddToSpends_index _ _ _ _ _ Hw3 Hcb) in Hsp as (_ & _ & _ & _ & _ & ->).
      by subst w3.
  - intros Hcb. apply (AddToSpends_index _ _ _ _ _ Hw3 Hcb) in Hsp as (H1 & H2 & H3 & _).
    rewrite H1, H2, H3. by subst w3.
Qed.


Lemma spends_now_confirm c a b : m_confirm a = m_confirm b -> spends_now c a -> spends_now c b.
Proof.
  intros Hc. unfold spends_now, isAbandoned.
  by rewrite (GetDepthInMainChain_confirm c a b Hc), Hc.
Qed.

(** X12: when AddToWallet has inserted a transaction that is not a
    coinbase and that counts as spending (positive depth, or depth 0 and
    not abandoned), every outpoint among its inputs and every nullifier
    it reveals is reported spent by IsSpent, IsSproutSpent and
    IsSaplingSpent. *)
Theorem inserted_inputs_are_spent (c : Chain) (WriteTx_ok : bool) (wtxIn : CWalletTx)
    (w w' : CWallet) (r : AddResult) :
  AddToWallet IsCoinBase HasWitness SproutNoteData_eq SaplingNoteData_eq c WriteTx_ok wtxIn w
    = Returned r w' ->
  fInsertedNew r = true ->
  IsCoinBase (tx wtxIn) = false ->
  spends_now c wtxIn ->
  (forall txin, txin ∈ vin (tx wtxIn) ->
     IsSpent c w' (COutPoint.hash (prevout txin)) (COutPoint.n (prevout txin)) = true) /\
  (forall js nf, js ∈ vJoinSplit (tx wtxIn) -> nf ∈ nullifiers js ->
     IsSproutSpent c w' nf = true) /\
  (forall nf, nf ∈ vShieldedSpend (tx wtxIn) -> IsSaplingSpent c w' nf = true).
Proof.
  unfold AddToWallet. intros Hrun Hnew Hcb Hnow.
  destruct (mapWallet w !! GetHash wtxIn) as [wtx|].
  { apply AddToWallet_update_spec in Hrun as [Hf _]. congruence. }
  apply AddToWallet_new_steps in Hrun
    as (stored & w4 & Hst & Htx & Hcf & _ & -> & _ & Hidx).
  destruct (Hidx Hcb) as (H1 & H2 & H3).
  assert (Hs : spends_now c stored) by (by apply (spends_now_confirm c wtxIn)).
  unfold IsSpent, IsSproutSpent, IsSaplingSpent. simpl in *. rewrite H1, H2, H3.
  split; [|split].
  - intros txin Hin. apply spent_in_iff. exists (GetHash wtxIn), stored.
    split; [|done]. apply elem_of_equal_range, elem_of_app. right.
    apply list_elem_of_fmap. exists txin. split; [|done]. by destruct (prevout txin).
  - intros js nf Hjs Hnf. apply spent_in_iff. exists (GetHash wtxIn), stored.
    split; [|done]. apply elem_of_equal_range, elem_of_app. right.
    apply list_elem_of_fmap. exists nf. split; [done|].
    apply elem_of_concat_fmap. by exists js.
  - intros nf Hnf. apply spent_in_iff. exists (GetHash wtxIn), stored.
    split; [|done]. apply elem_of_equal_range, elem_of_app. right.
    apply list_elem_of_fmap. by exists nf.
Qed.


End LedgerWrites.

Lemma inserted_inputs_are_spent_witness :
  Samples.add_to_wallet Samples.chain true Samples.tx2 Samples.empty_wallet
    = Returned MoreSamples.added_result MoreSamples.added_wallet /\
  fInsertedNew MoreSamples.added_result = true /\
  Samples.is_coinbase (tx Samples.tx2) = false /\
  spends_now Samples.chain Samples.tx2 /\
  (forall txin, txin ∈ vin (tx Samples.tx2) ->
     IsSpent Samples.chain MoreSamples.added_wallet
       (COutPoint.hash (prevout txin)) (COutPoint.n (prevout txin)) = true) /\
  (forall js nf, js ∈ vJoinSplit (tx Samples.tx2) -> nf ∈ nullifiers js ->
     IsSproutSpent Samples.chain MoreSamples.added_wallet nf = true) /\
  (forall nf, nf ∈ vShieldedSpend (tx Samples.tx2) ->
     IsSaplingSpent Samples.chain MoreSamples.added_wallet nf = true).
Proof.
  assert (H1 : Samples.add_to_wallet Samples.chain true Samples.tx2 Samples.empty_wallet
    = Returned MoreSamples.added_result MoreSamples.added_wallet) by (vm_compute; reflexivity).
  assert (H2 : fInsertedNew MoreSamples.added_result = true) by reflexivity.
  assert (H3 : Samples.is_coinbase (tx Samples.tx2) = false) by reflexivity.
  assert (H4 : spends_now Samples.chain Samples.tx2) by (right; split; reflexivity).
  split; [exact H1|]. split; [exact H2|]. split; [exact H3|]. split; [exact H4|].
  exact (inserted_inputs_are_spent Samples.is_coinbase Samples.has_witness
           Samples.note_eq Samples.note_eq Samples.chain true Samples.tx2
           Samples.empty_wallet MoreSamples.added_wallet MoreSamples.added_result
           H1 H2 H3 H4).
Defined.


(** ** The mempool flag and abandoning *)

Lemma with_fInMempool_same wtx : with_fInMempool (fInMempool wtx) wtx = wtx.
Proof. by destruct wtx. Qed.

(** X14: SubmitMemoryPoolAndRelay never clears the mempool flag and
    changes nothing else; when it fails the transaction is as before.
    When it succeeds on a wallet entry, the entry is flagged as in the
    mempool, TransactionCanBeAbandoned is false and AbandonTransaction
    returns false without touching the wallet, until
    TransactionRemovedFromMempool clears the flag: then the transaction
    can be abandoned. *)
Theorem mempool_gates_abandon (IsCoinBase : CTransaction -> bool) (c : Chain) (w : CWallet)
    (hashTx : uint256) (fBroadcastTransactions broadcast_ok ret_ : bool)
    (wtx wtx' : CWalletTx) :
  SubmitMemoryPoolAndRelay IsCoinBase c fBroadcastTransactions broadcast_ok wtx
    = (ret_, wtx') ->
  wtx' = with_fInMempool (InMempool wtx') wtx /\
  (InMempool wtx = true -> InMempool wtx' = true) /\
  (ret_ = false -> wtx' = wtx) /\
  (ret_ = true ->
   InMempool wtx' = true /\
   TransactionCanBeAbandoned c (store hashTx wtx' w) hashTx = false /\
   AbandonTransaction c hashTx (store hashTx wtx' w) = Finished (false, store hashTx wtx' w) /\
   TransactionCanBeAbandoned c
     (TransactionRemovedFromMempool hashTx (store hashTx wtx' w)) hashTx = true).
Proof.
  unfold SubmitMemoryPoolAndRelay, InMempool.
  destruct fBroadcastTransactions; simpl;
    [|intros [= <- <-]; by rewrite with_fInMempool_same].
  destruct (isAbandoned wtx) eqn:Hab; [intros [= <- <-]; by rewrite with_fInMempool_same|].
  destruct (IsCoinBase (tx wtx)); [intros [= <- <-]; by rewrite with_fInMempool_same|].
  destruct (Z.eqb_spec (GetDepthInMainChain c wtx) 0) as [Hd|Hd]; simpl;
    [|intros [= <- <-]; by rewrite with_fInMempool_same].
  intros [= <- <-]. simpl. split; [done|]. split; [by intros ->|]. split.
  - intros ->. rewrite orb_false_r. apply with_fInMempool_same.
  - intros ->. rewrite orb_true_r. split; [done|].
    assert (Hd' : GetDepthInMainChain c (with_fInMempool true wtx) = 0)
      by (by rewrite <- (GetDepthInMainChain_confirm c wtx)).
    unfold TransactionCanBeAbandoned, AbandonTransaction, TransactionRemovedFromMempool,
      store, InMempool. simpl. rewrite !lookup_insert_eq. simpl. rewrite !lookup_insert_eq.
    rewrite Hd'. simpl. split; [by rewrite andb_false_r|]. split; [done|].
    assert (GetDepthInMainChain c (with_fInMempool false (with_fInMempool true wtx)) = 0) as ->
      by (by rewrite <- (GetDepthInMainChain_confirm c wtx)).
    unfold isAbandoned in *. simpl. by rewrite Hab.
Qed.

Lemma mempool_gates_abandon_witness :
  SubmitMemoryPoolAndRelay Samples.is_coinbase Samples.chain true true (MoreSamples.spender 2)
    = (true, with_fInMempool true (MoreSamples.spender 2)) /\
  with_fInMempool true (MoreSamples.spender 2)
    = with_fInMempool (InMempool (with_fInMempool true (MoreSamples.spender 2)))
        (MoreSamples.spender 2) /\
  (InMempool (MoreSamples.spender 2) = true ->
   InMempool (with_fInMempool true (MoreSamples.spender 2)) = true) /\
  (true = false -> with_fInMempool true (MoreSamples.spender 2) = MoreSamples.spender 2) /\
  (true = true ->
   InMempool (with_fInMempool true (MoreSamples.spender 2)) = true /\
   TransactionCanBeAbandoned Samples.chain
     (store 2%N (with_fInMempool true (MoreSamples.spender 2)) MoreSamples.double_spend_wallet)
     2%N = false /\
   AbandonTransaction Samples.chain 2%N
     (store 2%N (with_fInMempool true (MoreSamples.spender 2)) MoreSamples.double_spend_wallet)
     = Finished (false, store 2%N (with_fInMempool true (MoreSamples.spender 2))
                          MoreSamples.double_spend_wallet) /\
   TransactionCanBeAbandoned Samples.chain
     (TransactionRemovedFromMempool 2%N
        (store 2%N (with_fInMempool true (MoreSamples.spender 2))
           MoreSamples.double_spend_wallet)) 2%N = true).
Proof.
  assert (H : SubmitMemoryPoolAndRelay Samples.is_coinbase Samples.chain true true
                (MoreSamples.spender 2)
              = (true, with_fInMempool true (MoreSamples.spender 2))) by reflexivity.
  split; [exact H|].
  exact (mempool_gates_abandon Samples.is_coinbase Samples.chain
           MoreSamples.double_spend_wallet 2%N true true true (MoreSamples.spender 2)
           (with_fInMempool true (MoreSamples.spender 2)) H).
Defined.

(** ** ComputeTimeSmart *)

Lemma latest_entry_spec (m : gmap N CWalletTx) self l latestNow latestTolerated le ln :
  latest_entry m self l latestNow latestTolerated = Some (le, ln) ->
  map_Forall (fun _ pwtx => 0 <= nTimeSmart pwtx /\ 0 <= nTimeReceived pwtx) m ->
  0 <= latestNow <= latestTolerated ->
  0 <= le <= ln /\ latestNow <= ln <= latestTolerated /\
  (Forall (fun e => e.2 = self) l -> le = 0 /\ ln = latestNow).
Proof.
  intros Hrun Hm Hnow. revert Hrun.
  induction l as [|[pos id] l IH]; simpl.
  - intros [= <- <-]. repeat split; try lia.
  - case_decide as Hid.
    + intros Hrun. destruct (IH Hrun) as (H1 & H2 & H3). split; [done|]. split; [done|].
      intros Hall. apply H3. by apply Forall_cons in Hall as [_ ?].
    + destruct (m !! id) as [pwtx|] eqn:Hp; [|done].
      destruct (Hm id pwtx Hp) as [Hs Hr].
      destruct (Z.leb_spec (if nTimeSmart pwtx =? 0 then nTimeReceived pwtx
                            else nTimeSmart pwtx) latestTolerated) as [Hle|Hgt].
      * intros [= <- <-].
        assert (0 <= (if nTimeSmart pwtx =? 0 then nTimeReceived pwtx else nTimeSmart pwtx))
          by (by destruct (_ =? _)).
        split; [|split].
        -- destruct (Z.ltb_spec latestNow
                       (if nTimeSmart pwtx =? 0 then nTimeReceived pwtx
                        else nTimeSmart pwtx)); lia.
        -- destruct (Z.ltb_spec latestNow
                       (if nTimeSmart pwtx =? 0 then nTimeReceived pwtx
                        else nTimeSmart pwtx)); lia.
        -- intros Hall. apply Forall_cons in Hall as [Hhd _]. simpl in Hhd. done.
      * intros Hrun. destruct (IH Hrun) as (H1 & H2 & H3). split; [done|]. split; [done|].
        intros Hall. apply Forall_cons in Hall as [Hhd _]. simpl in Hhd. done.
Qed.

(** X15: the smart time ComputeTimeSmart gives a transaction is its
    receive time when the transaction is unconfirmed or abandoned or its
    block is not known.  Otherwise it is never negative, never more than
    300 seconds after the receive time, never before the earlier of
    block time and receive time; and when the wallet has no other
    transaction in its ordered list, it is the earlier of block time and
    receive time (or 0 for a negative block time). *)
Theorem ComputeTimeSmart_bounds (c : Chain) (w : CWallet) (self : uint256) (wtx : CWalletTx)
    (smart : Z) :
  ComputeTimeSmart c w self wtx = Some smart ->
  times_valid w ->
  0 <= nTimeReceived wtx -> nTimeReceived wtx + 300 < 2 ^ 32 ->
  0 <= smart <= nTimeReceived wtx + 300 /\
  (isUnconfirmed wtx = true \/ isAbandoned wtx = true \/
   findBlock c (hashBlock (m_confirm wtx)) = None -> smart = nTimeReceived wtx) /\
  (forall blocktime,
     isUnconfirmed wtx = false -> isAbandoned wtx = false ->
     findBlock c (hashBlock (m_confirm wtx)) = Some blocktime ->
     Z.min blocktime (nTimeReceived wtx) <= smart /\
     (Forall (fun e => e.2 = self) (wtxOrdered w) ->
      smart = Z.max 0 (Z.min blocktime (nTimeReceived wtx)))).
Proof.
  unfold ComputeTimeSmart. intros Hrun Hm Hr0 Hr1.
  destruct (isUnconfirmed wtx) eqn:Hu; simpl in Hrun.
  { injection Hrun as <-. split; [lia|]. split; [done|]. by intros bt ?. }
  destruct (isAbandoned wtx) eqn:Ha; simpl in Hrun.
  { injection Hrun as <-. split; [lia|]. split; [done|]. by intros bt ? ?. }
  destruct (findBlock c (hashBlock (m_confirm wtx))) as [blocktime|] eqn:Hb.
  2:{ injection Hrun as <-. split; [lia|]. split; [done|]. by intros bt ? ? ?. }
  destruct (latest_entry _ _ _ _ _) as [[le ln]|] eqn:Hl; simpl in Hrun; [|done].
  injection Hrun as <-.
  destruct (latest_entry_spec _ _ _ _ _ _ _ Hl Hm ltac:(lia)) as (H1 & H2 & H3).
  assert (Hsmall : to_unsigned_int (Z.max le (Z.min blocktime ln))
                   = Z.max le (Z.min blocktime ln)).
  { unfold to_unsigned_int. apply Z.mod_small. lia. }
  rewrite Hsmall. split; [lia|]. split.
  - intros [?|[?|?]]; done.
  - intros bt _ _ [= <-]. split; [lia|]. intros Hall.
    destruct H3 as [-> ->]; [|done]. by apply Forall_rev.
Qed.

Lemma ComputeTimeSmart_bounds_witness :
  ComputeTimeSmart Samples.chain Samples.tx2_wallet 3%N MoreSamples.received_tx3 = Some 6000 /\
  times_valid Samples.tx2_wallet /\
  0 <= nTimeReceived MoreSamples.received_tx3 /\
  nTimeReceived MoreSamples.received_tx3 + 300 < 2 ^ 32 /\
  0 <= 6000 <= nTimeReceived MoreSamples.received_tx3 + 300 /\
  (isUnconfirmed MoreSamples.received_tx3 = true \/ isAbandoned MoreSamples.received_tx3 = true \/
   findBlock Samples.chain (hashBlock (m_confirm MoreSamples.received_tx3)) = None ->
   6000 = nTimeReceived MoreSamples.received_tx3) /\
  (forall blocktime,
     isUnconfirmed MoreSamples.received_tx3 = false ->
     isAbandoned MoreSamples.received_tx3 = false ->
     findBlock Samples.chain (hashBlock (m_confirm MoreSamples.received_tx3)) = Some blocktime ->
     Z.min blocktime (nTimeReceived MoreSamples.received_tx3) <= 6000 /\
     (Forall (fun e => e.2 = 3%N) (wtxOrdered Samples.tx2_wallet) ->
      6000 = Z.max 0 (Z.min blocktime (nTimeReceived MoreSamples.received_tx3)))).
Proof.
  assert (H1 : ComputeTimeSmart Samples.chain Samples.tx2_wallet 3%N MoreSamples.received_tx3
               = Some 6000) by (vm_compute; reflexivity).
  assert (H2 : times_valid Samples.tx2_wallet)
    by (unfold times_valid; apply (bool_decide_unpack _); vm_compute; exact I).
  assert (H3 : 0 <= nTimeReceived MoreSamples.received_tx3) by (simpl; lia).
  assert (H4 : nTimeReceived MoreSamples.received_tx3 + 300 < 2 ^ 32) by (simpl; lia).
  split; [exact H1|]. split; [exact H2|]. split; [exact H3|]. split; [exact H4|].
  exact (ComputeTimeSmart_bounds Samples.chain Samples.tx2_wallet 3%N
           MoreSamples.received_tx3 6000 H1 H2 H3 H4).
Defined.

(** ** CreateTransaction: amounts, outputs, change and fee *)

Lemma to_int64_id z : - 2 ^ 63 <= z < 2 ^ 63 -> to_int64 z = z.
Proof. intros Hz. unfold to_int64. rewrite Z.mod_small by lia. lia. Qed.

Lemma pay_fee_count_bounds l : 0 <= pay_fee_count l <= Z.of_nat (length l).
Proof.
  induction l as [|r l IH]; simpl; [lia|].
  destruct (CRecipient.fSubtractFeeFromAmount r); lia.
Qed.

Lemma total_amount_nonneg l :
  Forall (fun r => 0 <= CRecipient.nAmount r) l -> 0 <= total_amount l.
Proof. induction 1; simpl; lia. Qed.

Lemma sum_recipients_ok l v n :
  Forall (fun r => 0 <= CRecipient.nAmount r) l ->
  0 <= v -> v + total_amount l <= INT64_MAX ->
  0 <= n -> n + Z.of_nat (length l) < 2 ^ 32 ->
  sum_recipients l v n = inr (v + total_amount l, n + pay_fee_count l).
Proof.
  intros Hall. revert v n. induction Hall as [|r l Hr Hall IH]; intros v n Hv Hsum Hn Hlen.
  - simpl. by rewrite !Z.add_0_r.
  - cbn [sum_recipients]. cbn [total_amount foldr length] in Hsum, Hlen.
    fold (total_amount l) in Hsum.
    pose proof (total_amount_nonneg l Hall) as Ht.
    pose proof (pay_fee_count_bounds l) as Hc.
    destruct (Z.ltb_spec v 0); [lia|]. destruct (Z.ltb_spec (CRecipient.nAmount r) 0); [lia|].
    cbn [orb]. unfold INT64_MAX in Hsum.
    rewrite to_int64_id by lia. rewrite IH.
    + cbn [total_amount pay_fee_count foldr]. fold (total_amount l). fold (pay_fee_count l).
      destruct (CRecipient.fSubtractFeeFromAmount r).
      * unfold to_unsigned_int. rewrite Z.mod_small by lia. do 2 f_equal; lia.
      * do 2 f_equal; lia.
    + lia.
    + unfold INT64_MAX. lia.
    + destruct (CRecipient.fSubtractFeeFromAmount r); [|lia].
      unfold to_unsigned_int. rewrite Z.mod_small; lia.
    + destruct (CRecipient.fSubtractFeeFromAmount r); [|lia].
      unfold to_unsigned_int. rewrite Z.mod_small; lia.
Qed.

Lemma sum_recipients_negative pre r post v n :
  Forall (fun r => 0 <= CRecipient.nAmount r) pre ->
  0 <= v -> v + total_amount pre <= INT64_MAX ->
  CRecipient.nAmount r < 0 ->
  sum_recipients (pre ++ r :: post) v n = inl "Transaction amounts must not be negative".
Proof.
  intros Hall. revert v n. induction Hall as [|r0 l Hr Hall IH]; intros v n Hv Hsum Hneg.
  - cbn [app sum_recipients]. destruct (Z.ltb_spec (CRecipient.nAmount r) 0); [|lia].
    by rewrite orb_true_r.
  - cbn [app sum_recipients]. cbn [total_amount foldr] in Hsum. fold (total_amount l) in Hsum.
    pose proof (total_amount_nonneg l Hall) as Ht.
    destruct (Z.ltb_spec v 0); [lia|]. destruct (Z.ltb_spec (CRecipient.nAmount r0) 0); [lia|].
    cbn [orb]. unfold INT64_MAX in Hsum. rewrite to_int64_id by lia.
    apply IH; [lia|unfold INT64_MAX; lia|done].
Qed.

(** X16: the first loop of CreateTransaction.  For recipients with
    amounts that are not negative and whose sum fits an [int64_t], it
    fails with "Transaction must have at least one recipient" when there
    is none, and otherwise yields the sum of the amounts and the number
    of recipients that pay the fee; as soon as a recipient with a
    negative amount follows such a list, it fails with "Transaction
    amounts must not be negative". *)
Theorem amounts_are_checked (vecSend : list CRecipient.t) :
  Forall (fun r => 0 <= CRecipient.nAmount r) vecSend ->
  total_amount vecSend <= INT64_MAX ->
  Z.of_nat (length vecSend) < 2 ^ 32 ->
  CreateTransaction_amounts vecSend =
    (if decide (vecSend = [])
     then inl "Transaction must have at least one recipient"
     else inr (total_amount vecSend, pay_fee_count vecSend)) /\
  (forall r post, CRecipient.nAmount r < 0 ->
     CreateTransaction_amounts (vecSend ++ r :: post)
       = inl "Transaction amounts must not be negative").
Proof.
  intros Hall Hsum Hlen. unfold CreateTransaction_amounts. split.
  - rewrite (sum_recipients_ok vecSend 0 0 Hall) by lia.
    rewrite !Z.add_0_l. by destruct vecSend.
  - intros r post Hneg. by rewrite (sum_recipients_negative vecSend r post 0 0 Hall) by lia.
Qed.

Lemma amounts_are_checked_witness :
  Forall (fun r => 0 <= CRecipient.nAmount r) MoreSamples.recipients /\
  total_amount MoreSamples.recipients <= INT64_MAX /\
  Z.of_nat (length MoreSamples.recipients) < 2 ^ 32 /\
  CreateTransaction_amounts MoreSamples.recipients =
    (if decide (MoreSamples.recipients = [])
     then inl "Transaction must have at least one recipient"
     else inr (total_amount MoreSamples.recipients, pay_fee_count MoreSamples.recipients)) /\
  (forall r post, CRecipient.nAmount r < 0 ->
     CreateTransaction_amounts (MoreSamples.recipients ++ r :: post)
       = inl "Transaction amounts must not be negative").
Proof.
  assert (H1 : Forall (fun r => 0 <= CRecipient.nAmount r) MoreSamples.recipients)
    by (repeat constructor; simpl; lia).
  assert (H2 : total_amount MoreSamples.recipients <= INT64_MAX) by (vm_compute; discriminate).
  assert (H3 : Z.of_nat (length MoreSamples.recipients) < 2 ^ 32) by (vm_compute; reflexivity).
  split; [exact H1|]. split; [exact H2|]. split; [exact H3|].
  exact (amounts_are_checked MoreSamples.recipients H1 H2 H3).
Defined.

Lemma total_out_app a b : total_out (a ++ b) = total_out a + total_out b.
Proof. induction a as [|o a IH]; simpl; [done|]. unfold total_out in *. simpl. lia. Qed.

Lemma total_out_vector_insert pos x v :
  total_out (vector_insert pos x v) = total_out v + nValue x.
Proof.
  unfold vector_insert. rewrite total_out_app.
  rewrite <- (take_drop (Z.to_nat pos) v) at 3. rewrite total_out_app.
  unfold total_out at 2. simpl. fold (total_out (drop (Z.to_nat pos) v)). lia.
Qed.

Lemma total_out_insert i o o' v :
  v !! i = Some o -> total_out (<[i := o']> v) = total_out v - nValue o + nValue o'.
Proof.
  revert i. induction v as [|x v IH]; intros i; [done|].
  destruct i as [|i]; simpl.
  - intros [= ->]. unfold total_out. simpl. lia.
  - intros Hi. unfold total_out in *. simpl. rewrite (IH i Hi). lia.
Qed.

(** X17: the change step of CreateTransaction loses no value: what the
    inputs hold beyond the value to select ends either in the new change
    output or in the fee, so outputs plus fee grow by exactly that
    amount (by nothing when there is none), and at most one output is
    added. *)
Theorem change_conserves_value (IsDust : CTxOut -> Z -> bool) (GetRandInt : Z -> Z)
    (discard_rate : Z) (scriptChange : list N) (nValueIn nValueToSelect : Z) (bnb_used : bool)
    (vout_ vout' : list CTxOut) (nChangePosInOut nFeeRet pos' fee' : Z) :
  CreateTransaction_change IsDust GetRandInt discard_rate scriptChange
    nValueIn nValueToSelect bnb_used vout_ nChangePosInOut nFeeRet
    = ChangeDone vout' pos' fee' ->
  total_out vout' + fee' = total_out vout_ + nFeeRet + Z.max 0 (nValueIn - nValueToSelect) /\
  nFeeRet <= fee' /\
  (vout' = vout_ \/
   (fee' = nFeeRet /\
    vout' = vector_insert pos' {| nValue := nValueIn - nValueToSelect;
                                  scriptPubKey := scriptChange |} vout_)).
Proof.
  unfold CreateTransaction_change.
  destruct (Z.ltb_spec 0 (nValueIn - nValueToSelect)) as [Hpos|Hle].
  - destruct (_ || _).
    + intros [= <- <- <-]. split; [lia|]. split; [lia|]. by left.
    + destruct (nChangePosInOut =? -1).
      * intros [= <- <- <-]. rewrite total_out_vector_insert. simpl.
        split; [lia|]. split; [lia|]. by right.
      * destruct (_ <? _); [done|]. intros [= <- <- <-].
        rewrite total_out_vector_insert. simpl. split; [lia|]. split; [lia|]. by right.
  - intros [= <- <- <-]. split; [lia|]. split; [lia|]. by left.
Qed.

Lemma change_conserves_value_witness :
  CreateTransaction_change Samples.never_dust Samples.last_position 1000 [7%N]
    100 60 false [Samples.payment] (-1) 10
    = ChangeDone [Samples.payment; {| nValue := 40; scriptPubKey := [7%N] |}] 1 10 /\
  total_out [Samples.payment; {| nValue := 40; scriptPubKey := [7%N] |}] + 10
    = total_out [Samples.payment] + 10 + Z.max 0 (100 - 60) /\
  10 <= 10 /\
  ([Samples.payment; {| nValue := 40; scriptPubKey := [7%N] |}] = [Samples.payment] \/
   (10 = 10 /\
    [Samples.payment; {| nValue := 40; scriptPubKey := [7%N] |}]
      = vector_insert 1 {| nValue := 100 - 60; scriptPubKey := [7%N] |} [Samples.payment])).
Proof.
  assert (H : CreateTransaction_change Samples.never_dust Samples.last_position 1000 [7%N]
    100 60 false [Samples.payment] (-1) 10
    = ChangeDone [Samples.payment; {| nValue := 40; scriptPubKey := [7%N] |}] 1 10)
    by reflexivity.
  split; [exact H|].
  exact (change_conserves_value Samples.never_dust Samples.last_position 1000 [7%N]
           100 60 false [Samples.payment] _ (-1) 10 1 10 H).
Defined.

Section FeeProperties.

Variable IsDust : CTxOut -> Z -> bool.
Variable GetSerializeSize : CTxOut -> Z.
Variable MIN_FINAL_CHANGE : Z.

Lemma recipient_outputs_spec relayDustFee nFeeRet n l fFirst size acc :
  (n <> 0 \/ pay_fee_count l = 0) ->
  match recipient_outputs IsDust GetSerializeSize relayDustFee nFeeRet n l fFirst size acc with
  | OutputsAborted => False
  | OutputsFailed _ => True
  | OutputsDone vout' size' =>
      exists new, vout' = acc ++ new /\
        scriptPubKey <$> new = CRecipient.scriptPubKey <$> l /\
        Forall (fun o => IsDust o relayDustFee = false) new /\
        size' = size + foldr (fun o s => GetSerializeSize o + s) 0 new /\
        total_out new = total_amount l - pay_fee_count l * Z.quot nFeeRet n
                        - (if fFirst && (0 <? pay_fee_count l) then Z.rem nFeeRet n else 0)
  end.
Proof.
  revert fFirst size acc. induction l as [|r l IH]; intros fFirst size acc Hn.
  - simpl. exists []. rewrite app_nil_r, andb_false_r. simpl. repeat split; try done; lia.
  - cbn [recipient_outputs]. pose proof (pay_fee_count_bounds l) as Hc.
    destruct (CRecipient.fSubtractFeeFromAmount r) eqn:Hsub.
    + assert (n <> 0) as Hn0.
      { destruct Hn as [?|Hz]; [done|]. cbn [pay_fee_count foldr] in Hz.
        rewrite Hsub in Hz. fold (pay_fee_count l) in Hz. lia. }
      destruct (Z.eqb_spec n 0); [done|]. cbn [andb].
      destruct (IsDust _ relayDustFee) eqn:Hdust; [done|].
      specialize (IH false (size + GetSerializeSize
        {| nValue := CRecipient.nAmount r - Z.quot nFeeRet n
                     - (if fFirst then Z.rem nFeeRet n else 0);
           scriptPubKey := CRecipient.scriptPubKey r |})
        (acc ++ [{| nValue := CRecipient.nAmount r - Z.quot nFeeRet n
                              - (if fFirst then Z.rem nFeeRet n else 0);
                    scriptPubKey := CRecipient.scriptPubKey r |}]) (or_introl Hn0)).
      destruct (recipient_outputs _ _ _ _ _ _ _ _ _) as [| |vout' size']; [done|done|].
      destruct IH as (new & -> & Hscripts & Hdusts & -> & Htot).
      eexists (_ :: new). split; [by rewrite <- app_assoc|].
      split; [by rewrite !fmap_cons, Hscripts|]. split; [by constructor|].
      split; [simpl; lia|].
      cbn [total_amount pay_fee_count foldr]. rewrite Hsub.
      fold (total_amount l). fold (pay_fee_count l).
      unfold total_out in *. cbn [foldr nValue]. rewrite Htot. simpl.
      destruct (Z.ltb_spec 0 (1 + pay_fee_count l)); [|lia].
      rewrite andb_true_r. destruct fFirst; lia.
    + cbn [andb].
      assert (n <> 0 \/ pay_fee_count l = 0) as Hn'.
      { destruct Hn as [?|Hz]; [by left|right]. cbn [pay_fee_count foldr] in Hz.
        by rewrite Hsub in Hz. }
      destruct (IsDust _ relayDustFee) eqn:Hdust; [done|].
      specialize (IH fFirst (size + GetSerializeSize
        {| nValue := CRecipient.nAmount r; scriptPubKey := CRecipient.scriptPubKey r |})
        (acc ++ [{| nValue := CRecipient.nAmount r;
                    scriptPubKey := CRecipient.scriptPubKey r |}]) Hn').
      destruct (recipient_outputs _ _ _ _ _ _ _ _ _) as [| |vout' size']; [done|done|].
      destruct IH as (new & -> & Hscripts & Hdusts & -> & Htot).
      eexists (_ :: new). split; [by rewrite <- app_assoc|].
      split; [by rewrite !fmap_cons, Hscripts|]. split; [by constructor|].
      split; [simpl; lia|].
      cbn [total_amount pay_fee_count foldr]. rewrite Hsub.
      fold (total_amount l). fold (pay_fee_count l).
      unfold total_out in *. cbn [foldr nValue]. rewrite Htot. lia.
Qed.

(** X18: the loop that builds the outputs for the payees, run with the
    number of fee-paying recipients that the first loop counted, never
    fails its assertion.  When it ends, there is one output per
    recipient, in order and with the recipient's script, none of them
    dust; their values sum to the sum of the amounts, less the whole fee
    when some recipient pays the fee (the shares and the remainder add
    up to the fee exactly); and the size counted is 11 plus the sizes of
    the outputs. *)
Theorem outputs_pay_the_fee (relayDustFee nFeeRet : Z) (vecSend : list CRecipient.t) :
  match CreateTransaction_outputs IsDust GetSerializeSize relayDustFee nFeeRet
          (pay_fee_count vecSend) vecSend with
  | OutputsAborted => False
  | OutputsFailed _ => True
  | OutputsDone vout_ tx_noinputs_size =>
      scriptPubKey <$> vout_ = CRecipient.scriptPubKey <$> vecSend /\
      Forall (fun o => IsDust o relayDustFee = false) vout_ /\
      tx_noinputs_size = 11 + foldr (fun o s => GetSerializeSize o + s) 0 vout_ /\
      total_out vout_ =
        total_amount vecSend - (if pay_fee_count vecSend =? 0 then 0 else nFeeRet)
  end.
Proof.
  unfold CreateTransaction_outputs.
  pose proof (recipient_outputs_spec relayDustFee nFeeRet (pay_fee_count vecSend)
                vecSend true 11 []) as H.
  pose proof (pay_fee_count_bounds vecSend) as Hc.
  destruct (recipient_outputs _ _ _ _ _ _ _ _ _) as [| |vout_ size'].
  - done.
  - apply H. destruct (decide (pay_fee_count vecSend = 0)); [by right|by left].
  - destruct H as (new & -> & Hs & Hd & -> & Ht).
    { destruct (decide (pay_fee_count vecSend = 0)); [by right|by left]. }
    simpl. split; [done|]. split; [done|]. split; [done|]. rewrite Ht. simpl.
    destruct (Z.eqb_spec (pay_fee_count vecSend) 0) as [Hz|Hnz].
    + rewrite Hz. simpl. lia.
    + destruct (Z.ltb_spec 0 (pay_fee_count vecSend)); [|lia].
      pose proof (Z.quot_rem' nFeeRet (pay_fee_count vecSend)). lia.
Qed.

End FeeProperties.

Lemma add_to_output_spec pos delta v v' :
  add_to_output pos delta v = Some v' ->
  exists change,
    0 <= pos /\ v !! Z.to_nat pos = Some change /\
    v' = <[Z.to_nat pos := {| nValue := nValue change + delta;
                              scriptPubKey := scriptPubKey change |}]> v /\
    total_out v' = total_out v + delta /\
    scriptPubKey <$> v' = scriptPubKey <$> v.
Proof.
  unfold add_to_output. destruct (Z.ltb_spec pos 0); [done|].
  destruct (v !! Z.to_nat pos) as [change|] eqn:Hc; simpl; [|done].
  intros [= <-]. exists change. split; [done|]. split; [done|]. split; [done|]. split.
  - rewrite (total_out_insert _ change) by done. simpl. lia.
  - rewrite list_fmap_insert. simpl. apply list_insert_id. by rewrite list_lookup_fmap, Hc.
Qed.

(** X19: the end of a pass of CreateTransaction.  When it is done, the
    fee covers the fee needed, outputs plus fee are worth what they were
    worth before, and the scripts of the outputs are the same; with a
    change output and no recipient paying the fee, the fee is exactly
    the fee needed, the difference having gone into or come out of the
    change output, which after a reduction is still worth at least
    MIN_FINAL_CHANGE.  It asks for another pass only when new inputs
    could still be picked (so a pass that follows the retry without
    new inputs ends the loop), it fails only when the fee is short and
    no new inputs may be picked, and it leaves the vector only for a
    change position that is not in it. *)
Theorem fee_step_sound (MIN_FINAL_CHANGE nFeeNeeded fee_needed_with_change
    minimum_value_for_change nSubtractFeeFromAmount : Z) (pick_new_inputs use_bnb : bool)
    (vout_ : list CTxOut) (nChangePosInOut nFeeRet : Z) :
  match CreateTransaction_fee MIN_FINAL_CHANGE nFeeNeeded fee_needed_with_change
          minimum_value_for_change nSubtractFeeFromAmount pick_new_inputs use_bnb
          vout_ nChangePosInOut nFeeRet with
  | FeeDone vout' fee' =>
      nFeeNeeded <= fee' /\
      total_out vout' + fee' = total_out vout_ + nFeeRet /\
      scriptPubKey <$> vout' = scriptPubKey <$> vout_ /\
      (nChangePosInOut = -1 \/ nSubtractFeeFromAmount <> 0 -> vout' = vout_ /\ fee' = nFeeRet) /\
      (nChangePosInOut <> -1 -> nSubtractFeeFromAmount = 0 ->
       fee' = nFeeNeeded /\
       (nFeeRet < nFeeNeeded ->
        exists change, vout' !! Z.to_nat nChangePosInOut = Some change /\
                       MIN_FINAL_CHANGE <= nValue change))
  | FeeRetry fee' pick' use_bnb' =>
      pick_new_inputs = true /\
      ((nFeeRet < nFeeNeeded /\ fee' = nFeeNeeded /\ use_bnb' = false /\
        pick' = negb (0 <? nSubtractFeeFromAmount)) \/
       (nFeeNeeded <= nFeeRet /\ fee' = fee_needed_with_change /\ pick' = false /\
        use_bnb' = use_bnb /\ nChangePosInOut = -1 /\ nSubtractFeeFromAmount = 0 /\
        fee_needed_with_change + minimum_value_for_change <= nFeeRet))
  | FeeFailed _ => nFeeRet < nFeeNeeded /\ pick_new_inputs = false
  | FeeUndefined =>
      nChangePosInOut <> -1 /\ nSubtractFeeFromAmount = 0 /\ nFeeRet <> nFeeNeeded /\
      (nChangePosInOut < 0 \/ Z.of_nat (length vout_) <= nChangePosInOut)
  end.
Proof.
  assert (Hkeep : forall fee, nFeeNeeded <= fee ->
    (nChangePosInOut <> -1 -> nSubtractFeeFromAmount = 0 -> fee = nFeeNeeded) ->
    nFeeNeeded <= fee /\
    total_out vout_ + fee = total_out vout_ + fee /\
    scriptPubKey <$> vout_ = scriptPubKey <$> vout_ /\
    (nChangePosInOut = -1 \/ nSubtractFeeFromAmount <> 0 -> vout_ = vout_ /\ fee = fee) /\
    (nChangePosInOut <> -1 -> nSubtractFeeFromAmount = 0 ->
     fee = nFeeNeeded /\
     (fee < nFeeNeeded ->
      exists change, vout_ !! Z.to_nat nChangePosInOut = Some change /\
                     MIN_FINAL_CHANGE <= nValue change))).
  { intros fee Hfee Hexact. repeat split; try done.
    - by apply Hexact.
    - intros Hlt. lia. }
  assert (Hundef : forall delta, add_to_output nChangePosInOut delta vout_ = None ->
    nChangePosInOut < 0 \/ Z.of_nat (length vout_) <= nChangePosInOut).
  { intros delta. unfold add_to_output. destruct (Z.ltb_spec nChangePosInOut 0); [by left|].
    destruct (vout_ !! Z.to_nat nChangePosInOut) eqn:Hl; [done|].
    intros _. right. apply lookup_ge_None in Hl. lia. }
  unfold CreateTransaction_fee.
  destruct (Z.leb_spec nFeeNeeded nFeeRet) as [Hge|Hlt].
  - destruct (Z.eqb_spec nChangePosInOut (-1)) as [Hp|Hp];
      destruct (Z.eqb_spec nSubtractFeeFromAmount 0) as [Hs|Hs]; cbn [andb negb].
    + destruct pick_new_inputs; cbn [andb].
      * destruct (Z.leb_spec (fee_needed_with_change + minimum_value_for_change) nFeeRet).
        -- split; [done|]. right. done.
        -- rewrite andb_false_r. apply Hkeep; [done|done].
      * rewrite andb_false_r. apply Hkeep; [done|done].
    + rewrite !andb_false_r. apply Hkeep; [done|done].
    + rewrite andb_true_r. destruct (Z.ltb_spec nFeeNeeded nFeeRet).
      * destruct (add_to_output _ _ _) as [vout'|] eqn:Hadd.
        -- apply add_to_output_spec in Hadd as (change & Hpos0 & Hc & -> & Ht & Hsc).
           split; [lia|]. split; [lia|]. split; [done|]. split; [intros [?|?]; done|].
           intros _ _. split; [lia|]. intros ?. lia.
        -- split; [done|]. split; [done|]. split; [lia|]. by eapply Hundef.
      * apply Hkeep; [done|]. intros _ _. lia.
    + rewrite !andb_false_r. apply Hkeep; [done|done].
  - destruct pick_new_inputs; cbn [negb]; [|done].
    destruct (Z.eqb_spec nChangePosInOut (-1)) as [Hp|Hp];
      destruct (Z.eqb_spec nSubtractFeeFromAmount 0) as [Hs|Hs]; cbn [andb negb].
    + split; [done|]. left. repeat split; try done; rewrite ?Hs; done.
    + split; [done|]. left. repeat split; try done; by destruct (0 <? _).
    + destruct (Z.ltb_spec nChangePosInOut 0).
      { split; [done|]. split; [done|]. split; [lia|]. by left. }
      destruct (vout_ !! Z.to_nat nChangePosInOut) as [change|] eqn:Hl.
      2:{ split; [done|]. split; [done|]. split; [lia|]. right.
          apply lookup_ge_None in Hl. lia. }
      destruct (Z.leb_spec (MIN_FINAL_CHANGE + (nFeeNeeded - nFeeRet)) (nValue change)).
      * destruct (add_to_output _ _ _) as [vout'|] eqn:Hadd.
        -- apply add_to_output_spec in Hadd as (change' & Hpos0 & Hc & -> & Ht & Hsc).
           split; [lia|]. split; [lia|]. split; [done|]. split; [intros [?|?]; done|].
           intros _ _. split; [lia|]. intros _. rewrite Hl in Hc. injection Hc as <-.
           eexists. split; [apply list_lookup_insert_eq; by eapply lookup_lt_Some|].
           simpl. lia.
        -- apply Hundef in Hadd. apply lookup_lt_Some in Hl. lia.
      * split; [done|]. left. repeat split; try done; rewrite ?Hs; done.
    + split; [done|]. left. repeat split; try done; by destruct (0 <? _).
Qed.

(** ** Transactions nothing in the wallet spends from *)

Lemma walk_spends_leaf (on_visit : CWalletTx -> visit) fuel root w :
  spends_of root (mapTxSpends w) = [] ->
  walk_spends on_visit (S fuel) {[root]} ∅ w =
    match mapWallet w !! root with
    | None => AssertionFailed
    | Some wtx =>
        match on_visit wtx with
        | Mark wtx' =>
            Finished (db_write (DbWriteTx wtx')
                        (with_mapWallet (<[root := wtx']> (mapWallet w)) w))
        | Skip => Finished w
        | AssertFail => AssertionFailed
        end
    end.
Proof.
  intros Hleaf. simpl. rewrite set_begin_singleton.
  destruct (mapWallet w !! root) as [wtx|]; [|done].
  replace ({[root]} ∖ {[root]} : gset N) with (∅ : gset N) by set_solver.
  destruct (on_visit wtx) as [wtx'| |]; [|by destruct fuel|done].
  rewrite Hleaf. simpl. by destruct fuel.
Qed.

(** X20: when HasWalletSpend is false for hashTx (no entry of the spend
    index is for one of its outputs), MarkConflicted and
    AbandonTransaction, whenever they return, have left every other
    transaction of the wallet untouched and have written at most one
    record to the database. *)
Theorem unspent_from_is_retired_alone (c : Chain) (hashTx : uint256) (w w' : CWallet) :
  HasWalletSpend w hashTx = false ->
  (exists hashBlock_, MarkConflicted c hashBlock_ hashTx w = Finished w') \/
  (exists ret_, AbandonTransaction c hashTx w = Finished (ret_, w')) ->
  (forall x, x <> hashTx -> mapWallet w' !! x = mapWallet w !! x) /\
  (length (database w') <= S (length (database w)))%nat.
Proof.
  unfold HasWalletSpend. intros Hleaf%bool_decide_eq_false.
  assert (Hnil : spends_of hashTx (mapTxSpends w) = [])
    by (by destruct (spends_of hashTx (mapTxSpends w)); [|destruct Hleaf]).
  assert (Hwalk : forall on_visit w1,
    walk_spends on_visit (walk_fuel w) {[hashTx]} ∅ w = Finished w1 ->
    (forall x, x <> hashTx -> mapWallet w1 !! x = mapWallet w !! x) /\
    (length (database w1) <= S (length (database w)))%nat).
  { intros on_visit w1. unfold walk_fuel. rewrite (walk_spends_leaf _ _ _ _ Hnil).
    destruct (mapWallet w !! hashTx) as [wtx|]; [|done].
    destruct (on_visit wtx) as [wtx'| |]; [| |done]; intros [= <-].
    - split.
      + intros x Hx. simpl. by rewrite lookup_insert_ne.
      + simpl. rewrite length_app. simpl. lia.
    - split; [done|lia]. }
  intros [[hb Hrun]|[ret_ Hrun]].
  - unfold MarkConflicted in Hrun. destruct (0 <=? _).
    + injection Hrun as <-. split; [done|lia].
    + by eapply Hwalk.
  - unfold AbandonTransaction in Hrun. destruct (mapWallet w !! hashTx); [|done].
    destruct (_ || _).
    + injection Hrun as <- <-. split; [done|lia].
    + destruct (walk_spends _ _ _ _ _) as [w1| |] eqn:Hw; [|done..].
      injection Hrun as <- <-. by eapply Hwalk.
Qed.

Lemma unspent_from_is_retired_alone_witness :
  HasWalletSpend Samples.spend_wallet 2%N = false /\
  ((exists hashBlock_,
      MarkConflicted Samples.chain hashBlock_ 2%N Samples.spend_wallet
        = Finished MoreSamples.abandoned_spend) \/
   (exists ret_,
      AbandonTransaction Samples.chain 2%N Samples.spend_wallet
        = Finished (ret_, MoreSamples.abandoned_spend))) /\
  (forall x, x <> 2%N ->
     mapWallet MoreSamples.abandoned_spend !! x = mapWallet Samples.spend_wallet !! x) /\
  (length (database MoreSamples.abandoned_spend)
   <= S (length (database Samples.spend_wallet)))%nat.
Proof.
  assert (H1 : HasWalletSpend Samples.spend_wallet 2%N = false) by reflexivity.
  assert (H2 : (exists hashBlock_,
      MarkConflicted Samples.chain hashBlock_ 2%N Samples.spend_wallet
        = Finished MoreSamples.abandoned_spend) \/
   (exists ret_,
      AbandonTransaction Samples.chain 2%N Samples.spend_wallet
        = Finished (ret_, MoreSamples.abandoned_spend)))
    by (right; exists true; vm_compute; reflexivity).
  split; [exact H1|]. split; [exact H2|].
  exact (unspent_from_is_retired_alone Samples.chain 2%N Samples.spend_wallet
           MoreSamples.abandoned_spend H1 H2).
Defined.

(** ** ReorderTransactions *)

Lemma ordered_insert_perm pos id l : ordered_insert pos id l ≡ₚ (pos, id) :: l.
Proof.
  induction l as [|[pos' id'] l IH]; simpl; [done|].
  destruct (pos <? pos'); [done|]. rewrite IH. apply Permutation_swap.
Qed.

Lemma txByTime_ids (m : gmap N CWalletTx) : (txByTime m).*2 ≡ₚ elements (dom m).
Proof.
  unfold txByTime.
  assert (Hfold : forall ids acc,
    (forall id, id ∈ ids -> is_Some (m !! id)) ->
    (foldl (fun acc id =>
              match m !! id with
              | Some wtx => ordered_insert (nTimeReceived wtx) id acc
              | None => acc
              end) acc ids).*2 ≡ₚ ids ++ acc.*2).
  { induction ids as [|id ids IH]; intros acc Hin; simpl; [done|].
    destruct (Hin id ltac:(left)) as [wtx Hw]. rewrite Hw.
    rewrite IH by (intros; apply Hin; by right).
    rewrite ordered_insert_perm. simpl. by rewrite Permutation_middle. }
  rewrite Hfold.
  - simpl. rewrite app_nil_r. apply merge_sort_Permutation.
  - intros id Hid. rewrite merge_sort_Permutation in Hid.
    by apply elem_of_elements, elem_of_dom in Hid.
Qed.

Lemma same_but_position_refl a : same_but_position a a.
Proof. by destruct a. Qed.

Lemma same_but_position_trans a b d :
  same_but_position a b -> same_but_position b d -> same_but_position a d.
Proof. unfold same_but_position, with_nOrderPos. intros <- <-. simpl. done. Qed.

Lemma only_positions_change_refl w : only_positions_change w w.
Proof.
  split; [|done]. intros id. destruct (mapWallet w !! id); constructor.
  apply same_but_position_refl.
Qed.

Lemma only_positions_change_trans w1 w2 w3 :
  only_positions_change w1 w2 -> only_positions_change w2 w3 -> only_positions_change w1 w3.
Proof.
  intros (H1 & H2 & H3 & H4 & H5 & H6) (G1 & G2 & G3 & G4 & G5 & G6).
  split; [|by rewrite G2, G3, G4, G5, H2, H3, H4, H5; repeat split; try done; etrans].
  intros id. specialize (H1 id). specialize (G1 id).
  destruct (mapWallet w1 !! id), (mapWallet w2 !! id), (mapWallet w3 !! id);
    inversion H1; inversion G1; subst; constructor.
  by eapply same_but_position_trans.
Qed.

Lemma count_offsets_nonneg pos offs : 0 <= count_offsets pos offs.
Proof. unfold count_offsets. lia. Qed.

Lemma reorder_loop_spec ok items offs w w' :
  reorder_loop ok items offs w = LOAD_OK w' ->
  NoDup items.*2 ->
  only_positions_change w w' /\ nOrderPosNext w <= nOrderPosNext w' /\
  (forall id, id ∉ items.*2 -> mapWallet w' !! id = mapWallet w !! id) /\
  (forall id wtx, id ∈ items.*2 -> mapWallet w !! id = Some wtx ->
     exists wtx', mapWallet w' !! id = Some wtx' /\
       nOrderPos wtx' < nOrderPosNext w' /\
       (nOrderPos wtx = -1 -> nOrderPosNext w <= nOrderPos wtx') /\
       (nOrderPos wtx <> -1 -> nOrderPos wtx <= nOrderPos wtx')).
Proof.
  revert offs w. induction items as [|[t id] items IH]; intros offs w; simpl.
  - intros [= <-] _. split; [|split; [simpl; lia|split; [done|]]].
    + split; [|split; [done|]; split; [done|]; split; [done|]; split; [done|]].
      * intros id. cbn [mapWallet db_write].
        destruct (mapWallet w !! id); constructor. apply same_but_position_refl.
      * simpl. by apply prefix_app_r.
    + intros id wtx Hin. by apply elem_of_nil in Hin.
  - destruct (mapWallet w !! id) as [pwtx|] eqn:Hid; [|done].
    intros Hrun Hnd. apply NoDup_cons in Hnd as [Hnotin Hnd].
    assert (Hstep : forall offs1 w1 pwtx',
      reorder_loop ok items offs1 w1 = LOAD_OK w' ->
      mapWallet w1 = <[id := pwtx']> (mapWallet w) ->
      same_but_position pwtx pwtx' ->
      mapTxSpends w1 = mapTxSpends w ->
      mapTxSproutNullifiers w1 = mapTxSproutNullifiers w ->
      mapTxSaplingNullifiers w1 = mapTxSaplingNullifiers w ->
      wtxOrdered w1 = wtxOrdered w ->
      database w `prefix_of` database w1 ->
      nOrderPosNext w <= nOrderPosNext w1 ->
      nOrderPos pwtx' < nOrderPosNext w1 ->
      (nOrderPos pwtx = -1 -> nOrderPosNext w <= nOrderPos pwtx') ->
      (nOrderPos pwtx <> -1 -> nOrderPos pwtx <= nOrderPos pwtx') ->
      only_positions_change w w' /\ nOrderPosNext w <= nOrderPosNext w' /\
      (forall id0, id0 ∉ id :: items.*2 -> mapWallet w' !! id0 = mapWallet w !! id0) /\
      (forall id0 wtx, id0 ∈ id :: items.*2 -> mapWallet w !! id0 = Some wtx ->
         exists wtx', mapWallet w' !! id0 = Some wtx' /\
           nOrderPos wtx' < nOrderPosNext w' /\
           (nOrderPos wtx = -1 -> nOrderPosNext w <= nOrderPos wtx') /\
           (nOrderPos wtx <> -1 -> nOrderPos wtx <= nOrderPos wtx'))).
    { intros offs1 w1 pwtx' Hrec Hm Hsame Hs Hsp Hsa Ho Hdb Hnext Hlt Hneg Hpos.
      destruct (IH _ _ Hrec Hnd) as (Hfr & Hmono & Hout & Hin).
      split; [|split; [lia|split]].
      - eapply only_positions_change_trans; [|exact Hfr].
        split; [|done]. intros id0. rewrite Hm.
        destruct (decide (id0 = id)) as [->|Hne].
        + rewrite lookup_insert_eq, Hid. by constructor.
        + rewrite lookup_insert_ne by done.
          destruct (mapWallet w !! id0); constructor. apply same_but_position_refl.
      - intros id0 Hid0. rewrite Hout by (intros ?; apply Hid0; by right).
        rewrite Hm, lookup_insert_ne; [done|]. intros ->. apply Hid0. by left.
      - intros id0 wtx [->|Hid0]%elem_of_cons Hw.
        + rewrite Hid in Hw. injection Hw as <-.
          exists pwtx'. rewrite (Hout id Hnotin), Hm, lookup_insert_eq.
          split; [done|]. split; [lia|]. split; [intros ?; by apply Hneg|done].
        + assert (id0 <> id) as Hne by (intros ->; done).
          destruct (Hin id0 wtx Hid0) as (wtx' & Hw' & Hlt' & Hneg' & Hpos').
          { by rewrite Hm, lookup_insert_ne. }
          exists wtx'. split; [done|]. split; [done|]. split; [|done].
          intros Hm1. specialize (Hneg' Hm1). lia. }
    revert Hrun. destruct (Z.eqb_spec (nOrderPos pwtx) (-1)) as [Hm1|Hm1].
    + destruct (Z.ltb_spec (nOrderPosNext w) INT64_MAX); [|done].
      destruct (ok _); [|done]. intros Hrun.
      eapply (Hstep _ _ (with_nOrderPos (nOrderPosNext w) pwtx) Hrun);
        unfold with_nOrderPos; cbn; try done; try lia;
        try (by destruct pwtx); by apply prefix_app_r.
    + pose proof (count_offsets_nonneg (nOrderPos pwtx) offs) as Hoff.
      destruct (Z.ltb_spec (nOrderPos pwtx + count_offsets (nOrderPos pwtx) offs) INT64_MAX);
        [|done].
      destruct (Z.eqb_spec (count_offsets (nOrderPos pwtx) offs) 0).
      * intros Hrun.
        eapply (Hstep _ _ (with_nOrderPos
                  (nOrderPos pwtx + count_offsets (nOrderPos pwtx) offs) pwtx) Hrun);
          unfold with_nOrderPos; cbn; try done; try lia; by destruct pwtx.
      * destruct (ok _); [|done]. intros Hrun.
        eapply (Hstep _ _ (with_nOrderPos
                  (nOrderPos pwtx + count_offsets (nOrderPos pwtx) offs) pwtx) Hrun);
          unfold with_nOrderPos; cbn; try done; try lia;
          try (by destruct pwtx); by apply prefix_app_r.
Qed.

Lemma reorder_loop_last ok items offs w w' :
  reorder_loop ok items offs w = LOAD_OK w' ->
  last (database w') = Some (DbWriteOrderPosNext (nOrderPosNext w')).
Proof.
  revert offs w. induction items as [|[t id] items IH]; intros offs w; simpl.
  - intros [= <-]. simpl. apply last_snoc.
  - destruct (mapWallet w !! id) as [pwtx|]; [|done].
    destruct (_ =? -1).
    + destruct (_ <? _); [|done]. destruct (ok _); [apply IH|done].
    + destruct (_ <? _); [|done]. destruct (_ =? 0); [apply IH|].
      destruct (ok _); [apply IH|done].
Qed.

(** X21: when ReorderTransactions returns LOAD_OK on a wallet whose
    order positions are all at least -1, every transaction has a
    position that is not negative and below nOrderPosNext, a
    transaction that had a position has not moved down, nothing but
    order positions (and the counter) has changed in the wallet --
    wtxOrdered is not rebuilt -- and the last record written to the
    database is the new counter. *)
Theorem ReorderTransactions_positions (WriteTx_ok : CWalletTx -> bool) (w w' : CWallet) :
  ReorderTransactions WriteTx_ok w = LOAD_OK w' ->
  map_Forall (fun _ wtx => -1 <= nOrderPos wtx) (mapWallet w) ->
  only_positions_change w w' /\
  (forall id wtx', mapWallet w' !! id = Some wtx' ->
     0 <= nOrderPos wtx' < nOrderPosNext w') /\
  (forall id wtx wtx', mapWallet w !! id = Some wtx -> mapWallet w' !! id = Some wtx' ->
     0 <= nOrderPos wtx -> nOrderPos wtx <= nOrderPos wtx') /\
  last (database w') = Some (DbWriteOrderPosNext (nOrderPosNext w')).
Proof.
  unfold ReorderTransactions. intros Hrun Hpos.
  pose proof (reorder_loop_last _ _ _ _ _ Hrun) as Hlast.
  apply reorder_loop_spec in Hrun as (Hfr & Hnext & Hout & Hin).
  2:{ rewrite txByTime_ids. apply NoDup_elements. }
  simpl in Hnext, Hin.
  assert (Hall : forall id wtx, mapWallet w !! id = Some wtx -> id ∈ (txByTime (mapWallet w)).*2).
  { intros id wtx Hw. rewrite txByTime_ids. apply elem_of_elements, elem_of_dom. eauto. }
  split; [|split; [|split; [|done]]].
  - destruct Hfr as (H1 & H2 & H3 & H4 & H5 & H6). by repeat split.
  - intros id wtx' Hw'. destruct Hfr as (H1 & _). specialize (H1 id). simpl in H1.
    rewrite Hw' in H1. inversion H1 as [wtx b Hsame Hw|]; subst. symmetry in Hw.
    destruct (Hin id wtx (Hall id wtx Hw) Hw) as (wtx2 & Hw2 & Hlt & Hneg & Hnn).
    rewrite Hw' in Hw2. injection Hw2 as <-. split; [|done].
    pose proof (Hpos id wtx Hw) as Hge. simpl in Hge.
    destruct (decide (nOrderPos wtx = -1)) as [Hm1|Hm1]; [specialize (Hneg Hm1)|
      specialize (Hnn Hm1)]; lia.
  - intros id wtx wtx' Hw Hw' Hge.
    destruct (Hin id wtx (Hall id wtx Hw) Hw) as (wtx2 & Hw2 & Hlt & Hneg & Hnn).
    rewrite Hw' in Hw2. injection Hw2 as <-. apply Hnn. lia.
Qed.

Lemma ReorderTransactions_positions_witness :
  ReorderTransactions (fun _ => true) MoreSamples.unordered_wallet
    = LOAD_OK MoreSamples.reordered_wallet /\
  map_Forall (fun _ wtx => -1 <= nOrderPos wtx) (mapWallet MoreSamples.unordered_wallet) /\
  only_positions_change MoreSamples.unordered_wallet MoreSamples.reordered_wallet /\
  (forall id wtx', mapWallet MoreSamples.reordered_wallet !! id = Some wtx' ->
     0 <= nOrderPos wtx' < nOrderPosNext MoreSamples.reordered_wallet) /\
  (forall id wtx wtx', mapWallet MoreSamples.unordered_wallet !! id = Some wtx ->
     mapWallet MoreSamples.reordered_wallet !! id = Some wtx' ->
     0 <= nOrderPos wtx -> nOrderPos wtx <= nOrderPos wtx') /\
  last (database MoreSamples.reordered_wallet)
    = Some (DbWriteOrderPosNext (nOrderPosNext MoreSamples.reordered_wallet)).
Proof.
  assert (H1 : ReorderTransactions (fun _ => true) MoreSamples.unordered_wallet
               = LOAD_OK MoreSamples.reordered_wallet) by (vm_compute; reflexivity).
  assert (H2 : map_Forall (fun _ wtx => -1 <= nOrderPos wtx)
                 (mapWallet MoreSamples.unordered_wallet))
    by (apply (bool_decide_unpack _); vm_compute; exact I).
  split; [exact H1|]. split; [exact H2|].
  exact (ReorderTransactions_positions (fun _ => true) MoreSamples.unordered_wallet
           MoreSamples.reordered_wallet H1 H2).
Defined.

Lemma with_nOrderPos_same wtx : with_nOrderPos (nOrderPos wtx + 0) wtx = wtx.
Proof. rewrite Z.add_0_r. by destruct wtx. Qed.

Lemma reorder_loop_ordered ok items w :
  (forall id, id ∈ items.*2 ->
     exists wtx, mapWallet w !! id = Some wtx /\ 0 <= nOrderPos wtx < INT64_MAX) ->
  exists n,
    reorder_loop ok items [] w
      = LOAD_OK (db_write (DbWriteOrderPosNext n) (with_nOrderPosNext n w)) /\
    nOrderPosNext w <= n /\
    (forall id wtx, id ∈ items.*2 -> mapWallet w !! id = Some wtx -> nOrderPos wtx < n) /\
    (n = nOrderPosNext w \/
     exists id wtx, mapWallet w !! id = Some wtx /\ n = nOrderPos wtx + 1).
Proof.
  revert w. induction items as [|[t id] items IH]; intros w Hall.
  - exists (nOrderPosNext w). simpl. split; [by destruct w|]. split; [lia|].
    split; [|by left]. intros id wtx Hin. by apply elem_of_nil in Hin.
  - destruct (Hall id ltac:(left)) as (pwtx & Hid & Hpos).
    cbn [reorder_loop]. rewrite Hid.
    destruct (Z.eqb_spec (nOrderPos pwtx) (-1)) as [?|Hne]; [lia|].
    change (count_offsets (nOrderPos pwtx) []) with 0.
    destruct (Z.ltb_spec (nOrderPos pwtx + 0) INT64_MAX) as [Hfit|?]; [|lia].
    cbn [Z.eqb]. rewrite with_nOrderPos_same, insert_id, with_mapWallet_same by done.
    destruct (IH (with_nOrderPosNext (Z.max (nOrderPosNext w) (nOrderPos pwtx + 1)) w))
      as (n & Hrun & Hn & Hlt & Hmax).
    { intros id0 Hid0. apply (Hall id0). by right. }
    exists n. split; [exact Hrun|]. simpl in Hn, Hlt, Hmax. split; [lia|]. split.
    + intros id0 wtx [Heq|Hid0]%elem_of_cons Hw.
      * simpl in Heq. rewrite Heq, Hid in Hw. injection Hw as <-. lia.
      * by apply (Hlt id0).
    + destruct Hmax as [->|Hex]; [|by right].
      destruct (Z.max_spec (nOrderPosNext w) (nOrderPos pwtx + 1)) as [[_ ->]|[_ ->]];
        [right; eauto|by left].
Qed.

(** X22: on a wallet in which every transaction already has an order
    position (not negative, below the largest [int64_t]),
    ReorderTransactions returns LOAD_OK whatever the database answers,
    changes no transaction, and writes a single record: the counter
    nOrderPosNext, which it sets to one more than the largest position
    (0 for an empty wallet). *)
Theorem ReorderTransactions_ordered (WriteTx_ok : CWalletTx -> bool) (w : CWallet) :
  map_Forall (fun _ wtx => 0 <= nOrderPos wtx < INT64_MAX) (mapWallet w) ->
  exists n,
    ReorderTransactions WriteTx_ok w
      = LOAD_OK (db_write (DbWriteOrderPosNext n) (with_nOrderPosNext n w)) /\
    (forall id wtx, mapWallet w !! id = Some wtx -> nOrderPos wtx < n) /\
    (n = 0 \/ exists id wtx, mapWallet w !! id = Some wtx /\ n = nOrderPos wtx + 1).
Proof.
  intros Hpos. unfold ReorderTransactions.
  destruct (reorder_loop_ordered WriteTx_ok (txByTime (mapWallet w)) (with_nOrderPosNext 0 w))
    as (n & Hrun & _ & Hlt & Hmax).
  { intros id Hid. rewrite txByTime_ids in Hid.
    apply elem_of_elements, elem_of_dom in Hid as [wtx Hw]. exists wtx. split; [done|].
    by apply (Hpos id). }
  exists n. split; [exact Hrun|]. split; [|done].
  intros id wtx Hw. apply (Hlt id); [|done].
  rewrite txByTime_ids. apply elem_of_elements, elem_of_dom. eauto.
Qed.

Lemma ReorderTransactions_ordered_witness :
  map_Forall (fun _ wtx => 0 <= nOrderPos wtx < INT64_MAX) (mapWallet Samples.tx2_wallet) /\
  exists n,
    ReorderTransactions (fun _ => false) Samples.tx2_wallet
      = LOAD_OK (db_write (DbWriteOrderPosNext n) (with_nOrderPosNext n Samples.tx2_wallet)) /\
    (forall id wtx, mapWallet Samples.tx2_wallet !! id = Some wtx -> nOrderPos wtx < n) /\
    (n = 0 \/ exists id wtx, mapWallet Samples.tx2_wallet !! id = Some wtx /\
                             n = nOrderPos wtx + 1).
Proof.
  assert (H : map_Forall (fun _ wtx => 0 <= nOrderPos wtx < INT64_MAX)
                (mapWallet Samples.tx2_wallet))
    by (apply (bool_decide_unpack _); vm_compute; exact I).
  split; [exact H|].
  exact (ReorderTransactions_ordered (fun _ => false) Samples.tx2_wallet H).
Defined.

(** ** A whole pass of CreateTransaction *)

Lemma change_total (IsDust : CTxOut -> Z -> bool) (GetRandInt : Z -> Z) discard_rate
    scriptChange nValueIn nValueToSelect bnb_used vout_ nChangePosInOut nFeeRet
    vout' pos' fee' :
  CreateTransaction_change IsDust GetRandInt discard_rate scriptChange
    nValueIn nValueToSelect bnb_used vout_ nChangePosInOut nFeeRet
    = ChangeDone vout' pos' fee' ->
  total_out vout' + fee' = total_out vout_ + nFeeRet + Z.max 0 (nValueIn - nValueToSelect).
Proof.
  unfold CreateTransaction_change.
  destruct (Z.ltb_spec 0 (nValueIn - nValueToSelect)); [|intros [= <- <- <-]; lia].
  destruct (_ || _); [intros [= <- <- <-]; lia|].
  destruct (nChangePosInOut =? -1).
  - intros [= <- <- <-]. rewrite total_out_vector_insert. simpl. lia.
  - destruct (_ <? _); [done|]. intros [= <- <- <-].
    rewrite total_out_vector_insert. simpl. lia.
Qed.

Lemma fee_done_total MIN_FINAL_CHANGE nFeeNeeded fee_needed_with_change
    minimum_value_for_change nSubtractFeeFromAmount pick_new_inputs use_bnb
    vout_ nChangePosInOut nFeeRet vout' fee' :
  CreateTransaction_fee MIN_FINAL_CHANGE nFeeNeeded fee_needed_with_change
    minimum_value_for_change nSubtractFeeFromAmount pick_new_inputs use_bnb
    vout_ nChangePosInOut nFeeRet = FeeDone vout' fee' ->
  total_out vout' + fee' = total_out vout_ + nFeeRet /\ nFeeNeeded <= fee'.
Proof.
  unfold CreateTransaction_fee.
  destruct (Z.leb_spec nFeeNeeded nFeeRet).
  - destruct (_ && _ && _ && _); [done|].
    destruct (_ && _ && _).
    + destruct (add_to_output _ _ _) as [v|] eqn:Hadd; [|done].
      intros [= <- <-]. apply add_to_output_spec in Hadd as (? & _ & _ & _ & Ht & _). lia.
    + intros [= <- <-]. lia.
  - destruct (negb pick_new_inputs); [done|].
    destruct (_ && _); [|done].
    destruct (_ <? 0); [done|].
    destruct (vout_ !! _) as [change|]; [|done].
    destruct (_ <=? _); [|done].
    destruct (add_to_output _ _ _) as [v|] eqn:Hadd; [|done].
    intros [= <- <-]. apply add_to_output_spec in Hadd as (? & _ & _ & _ & Ht & _). lia.
Qed.

(** X23: a pass of CreateTransaction that ends the loop builds a
    transaction that pays exactly the fee it reports.  With the outputs
    built for the payees, inputs worth nValueIn that cover the value to
    select, the change step and the fee step done: the values of the
    outputs plus nFeeRet equal nValueIn, and nFeeRet is at least the fee
    needed -- whether the fee is paid on top of the amounts or taken from
    the payees, and whether or not a change output is made. *)
Theorem pass_pays_the_fee (IsDust : CTxOut -> Z -> bool) (GetSerializeSize : CTxOut -> Z)
    (GetRandInt : Z -> Z) (MIN_FINAL_CHANGE relayDustFee discard_rate : Z)
    (scriptChange : list N) (vecSend : list CRecipient.t)
    (nFeeRet nValueIn nChangePosRequest : Z) (bnb_used pick_new_inputs use_bnb : bool)
    (nFeeNeeded fee_needed_with_change minimum_value_for_change : Z)
    (vout0 vout1 vout2 : list CTxOut) (size pos1 fee1 fee2 : Z) :
  CreateTransaction_outputs IsDust GetSerializeSize relayDustFee nFeeRet
    (pay_fee_count vecSend) vecSend = OutputsDone vout0 size ->
  CreateTransaction_nValueToSelect (total_amount vecSend) (pay_fee_count vecSend) nFeeRet
    <= nValueIn ->
  CreateTransaction_change IsDust GetRandInt discard_rate scriptChange nValueIn
    (CreateTransaction_nValueToSelect (total_amount vecSend) (pay_fee_count vecSend) nFeeRet)
    bnb_used vout0 nChangePosRequest nFeeRet
    = ChangeDone vout1 pos1 fee1 ->
  CreateTransaction_fee MIN_FINAL_CHANGE nFeeNeeded fee_needed_with_change
    minimum_value_for_change (pay_fee_count vecSend) pick_new_inputs use_bnb
    vout1 pos1 fee1 = FeeDone vout2 fee2 ->
  total_out vout2 + fee2 = nValueIn /\ nFeeNeeded <= fee2.
Proof.
  set (nSub := pay_fee_count vecSend).
  set (nSel := CreateTransaction_nValueToSelect (total_amount vecSend) nSub nFeeRet).
  intros Hout Hcover Hchange Hfee.
  apply change_total in Hchange. apply fee_done_total in Hfee as [Hfee Hneeded].
  split; [|done].
  unfold CreateTransaction_outputs in Hout.
  pose proof (recipient_outputs_spec IsDust GetSerializeSize relayDustFee nFeeRet nSub
                vecSend true 11 []) as Hspec.
  rewrite Hout in Hspec. destruct Hspec as (new & Hnew & _ & _ & _ & Htot).
  { subst nSub. destruct (decide (pay_fee_count vecSend = 0)); [by right|by left]. }
  simpl in Hnew. subst new.
  pose proof (pay_fee_count_bounds vecSend) as Hc.
  assert (total_out vout0 = total_amount vecSend - (if nSub =? 0 then 0 else nFeeRet)) as Hv0.
  { rewrite Htot. subst nSub. simpl.
    destruct (Z.eqb_spec (pay_fee_count vecSend) 0) as [Hz|Hnz].
    - rewrite Hz. simpl. lia.
    - destruct (Z.ltb_spec 0 (pay_fee_count vecSend)); [|lia].
      pose proof (Z.quot_rem' nFeeRet (pay_fee_count vecSend)). lia. }
  subst nSel. unfold CreateTransaction_nValueToSelect in *.
  destruct (nSub =? 0); lia.
Qed.

Lemma pass_pays_the_fee_witness :
  CreateTransaction_outputs Samples.never_dust MoreSamples.output_size 1000 10
    (pay_fee_count MoreSamples.recipients) MoreSamples.recipients
    = OutputsDone MoreSamples.paid 79 /\
  CreateTransaction_nValueToSelect (total_amount MoreSamples.recipients)
    (pay_fee_count MoreSamples.recipients) 10 <= 130 /\
  CreateTransaction_change Samples.never_dust Samples.last_position 1000 [7%N] 130
    (CreateTransaction_nValueToSelect (total_amount MoreSamples.recipients)
       (pay_fee_count MoreSamples.recipients) 10)
    false MoreSamples.paid (-1) 10
    = ChangeDone MoreSamples.paid_with_change 2 10 /\
  CreateTransaction_fee 500 8 9 1 (pay_fee_count MoreSamples.recipients) true false
    MoreSamples.paid_with_change 2 10 = FeeDone MoreSamples.paid_with_change 10 /\
  total_out MoreSamples.paid_with_change + 10 = 130 /\ 8 <= 10.
Proof.
  assert (H1 : CreateTransaction_outputs Samples.never_dust MoreSamples.output_size 1000 10
    (pay_fee_count MoreSamples.recipients) MoreSamples.recipients
    = OutputsDone MoreSamples.paid 79) by reflexivity.
  assert (H2 : CreateTransaction_nValueToSelect (total_amount MoreSamples.recipients)
    (pay_fee_count MoreSamples.recipients) 10 <= 130) by (vm_compute; discriminate).
  assert (H3 : CreateTransaction_change Samples.never_dust Samples.last_position 1000 [7%N] 130
    (CreateTransaction_nValueToSelect (total_amount MoreSamples.recipients)
       (pay_fee_count MoreSamples.recipients) 10)
    false MoreSamples.paid (-1) 10
    = ChangeDone MoreSamples.paid_with_change 2 10) by reflexivity.
  assert (H4 : CreateTransaction_fee 500 8 9 1 (pay_fee_count MoreSamples.recipients) true false
    MoreSamples.paid_with_change 2 10 = FeeDone MoreSamples.paid_with_change 10)
    by reflexivity.
  split; [exact H1|]. split; [exact H2|]. split; [exact H3|]. split; [exact H4|].
  exact (pass_pays_the_fee Samples.never_dust MoreSamples.output_size Samples.last_position
           500 1000 1000 [7%N] MoreSamples.recipients 10 130 (-1) false true false 8 9 1
           MoreSamples.paid MoreSamples.paid_with_change MoreSamples.paid_with_change
           79 2 10 10 H1 H2 H3 H4).
Defined.

(** ** AddToWallet on a known transaction *)

Section KnownTransaction.

Variable IsCoinBase : CTransaction -> bool.
Variable HasWitness : CTransaction -> bool.
Variable SproutNoteData_eq : NoteData -> NoteData -> bool.
Variable SaplingNoteData_eq : NoteData -> NoteData -> bool.

Lemma UpdatedNoteData_confirm wtxIn wtx changed wtx2 :
  UpdatedNoteData SproutNoteData_eq SaplingNoteData_eq wtxIn wtx = Merged changed wtx2 ->
  m_confirm wtx2 = m_confirm wtx /\ fInMempool wtx2 = fInMempool wtx /\
  nOrderPos wtx2 = nOrderPos wtx.
Proof.
  unfold UpdatedNoteData.
  destruct (if _ || _ then _ else patch_note_data (mapSproutNoteData wtxIn) _) as [sprout|];
    [|done].
  destruct (if _ || _ then _ else patch_note_data (mapSaplingNoteData wtxIn) _) as [sapling|];
    [|done].
  by intros [= _ <-].
Qed.

Lemma AddToWallet_update_confirm ok hash wtxIn wtx w r w' :
  AddToWallet_update HasWitness SproutNoteData_eq SaplingNoteData_eq ok hash wtxIn wtx w
    = Returned r w' ->
  exists stored,
    mapWallet w' = <[hash := stored]> (mapWallet w) /\
    m_confirm stored = m_confirm wtxIn /\
    fInMempool stored = fInMempool wtx /\ nOrderPos stored = nOrderPos wtx /\
    (status (m_confirm wtxIn) <> status (m_confirm wtx) -> fUpdated r = true).
Proof.
  unfold AddToWallet_update.
  destruct (bool_decide (status (m_confirm wtxIn) <> status (m_confirm wtx))) eqn:Hst.
  - apply bool_decide_eq_true in Hst.
    destruct (UpdatedNoteData _ _ _ _) as [changed wtx2|wtx2] eqn:Hnote; [|done].
    apply UpdatedNoteData_confirm in Hnote as (Hc & Hm & Hp). simpl in Hc, Hm, Hp.
    destruct (fFromMe wtxIn && _); destruct (HasWitness (tx wtxIn) && _);
      unfold AddToWallet_write, store; simpl; rewrite lookup_insert_eq;
      intros [= <- <-]; eexists; simpl; (split; [reflexivity|]); simpl; done.
  - apply bool_decide_eq_false in Hst. apply dec_stable in Hst.
    destruct (bool_decide (nIndex (m_confirm wtx) = nIndex (m_confirm wtxIn))) eqn:Hi;
      [|done].
    destruct (bool_decide (hashBlock (m_confirm wtx) = hashBlock (m_confirm wtxIn))) eqn:Hh;
      [|done].
    apply bool_decide_eq_true in Hi, Hh. cbn [andb].
    assert (Hsame : m_confirm wtx = m_confirm wtxIn).
    { destruct (m_confirm wtx), (m_confirm wtxIn). simpl in *. congruence. }
    destruct (UpdatedNoteData _ _ _ _) as [changed wtx2|wtx2] eqn:Hnote; [|done].
    apply UpdatedNoteData_confirm in Hnote as (Hc & Hm & Hp).
    destruct (fFromMe wtxIn && _); destruct (HasWitness (tx wtxIn) && _);
      unfold AddToWallet_write, store; simpl; rewrite ?lookup_insert_eq;
      [| | |destruct changed];
      intros [= <- <-]; eexists; simpl; (split; [reflexivity|]); simpl;
      (split; [congruence|]); done.
Qed.

(** X24: AddToWallet on a transaction the wallet knows.  When the
    incoming status is the stored one but block hash or index differ,
    the call fails an assertion.  When the call returns, the stored
    transaction carries the incoming confirmation (an abandoned or
    conflicted transaction seen again in a block is confirmed again),
    keeps its mempool flag and order position, is reported updated when
    the status differed, and no other transaction has changed; if the
    transaction was registered in mapTxSpends and the incoming
    confirmation counts as spending, the outpoints of its inputs are
    reported spent. *)
Theorem known_tx_takes_confirmation (c : Chain) (WriteTx_ok : bool) (wtxIn wtx : CWalletTx)
    (w : CWallet) :
  mapWallet w !! GetHash wtxIn = Some wtx ->
  (status (m_confirm wtxIn) = status (m_confirm wtx) ->
   nIndex (m_confirm wtx) <> nIndex (m_confirm wtxIn) \/
   hashBlock (m_confirm wtx) <> hashBlock (m_confirm wtxIn) ->
   AddToWallet IsCoinBase HasWitness SproutNoteData_eq SaplingNoteData_eq
     c WriteTx_ok wtxIn w = Aborted) /\
  (forall r w',
     AddToWallet IsCoinBase HasWitness SproutNoteData_eq SaplingNoteData_eq
       c WriteTx_ok wtxIn w = Returned r w' ->
     exists stored,
       mapWallet w' = <[GetHash wtxIn := stored]> (mapWallet w) /\
       m_confirm stored = m_confirm wtxIn /\
       fInMempool stored = fInMempool wtx /\ nOrderPos stored = nOrderPos wtx /\
       (status (m_confirm wtxIn) <> status (m_confirm wtx) -> fUpdated r = true) /\
       (spends_now c wtxIn ->
        forall txin, (prevout txin, GetHash wtxIn) ∈ mapTxSpends w ->
          IsSpent c w' (COutPoint.hash (prevout txin)) (COutPoint.n (prevout txin)) = true)).
Proof.
  intros Hw. unfold AddToWallet. rewrite Hw. split.
  - intros Hst Hdiff. unfold AddToWallet_update.
    rewrite bool_decide_eq_false_2 by (intros ?; congruence).
    destruct Hdiff as [Hd|Hd]; rewrite (bool_decide_eq_false_2 _ Hd);
      [done|by rewrite andb_false_r].
  - intros r w' Hrun.
    pose proof (AddToWallet_update_spec _ _ _ _ _ _ _ _ _ _ Hrun) as (_ & _ & Hs & _).
    apply AddToWallet_update_confirm in Hrun as (stored & Hm & Hc & Hmem & Hpos & Hupd).
    exists stored. split; [done|]. split; [done|]. split; [done|]. split; [done|].
    split; [done|]. intros Hnow txin Hin. unfold IsSpent. rewrite Hs, Hm.
    apply spent_in_iff. exists (GetHash wtxIn), stored. split.
    + apply elem_of_equal_range. by destruct (prevout txin).
    + split; [apply lookup_insert_eq|]. by apply (spends_now_confirm c wtxIn).
Qed.

End KnownTransaction.

Lemma known_tx_takes_confirmation_witness :
  mapWallet Samples.spend_wallet !! GetHash MoreSamples.confirmed_spender
    = Some (MoreSamples.spender 2) /\
  (status (m_confirm MoreSamples.confirmed_spender) = status (m_confirm (MoreSamples.spender 2)) ->
   nIndex (m_confirm (MoreSamples.spender 2)) <> nIndex (m_confirm MoreSamples.confirmed_spender) \/
   hashBlock (m_confirm (MoreSamples.spender 2))
     <> hashBlock (m_confirm MoreSamples.confirmed_spender) ->
   Samples.add_to_wallet Samples.chain true MoreSamples.confirmed_spender Samples.spend_wallet
     = Aborted) /\
  (forall r w',
     Samples.add_to_wallet Samples.chain true MoreSamples.confirmed_spender Samples.spend_wallet
       = Returned r w' ->
     exists stored,
       mapWallet w' = <[GetHash MoreSamples.confirmed_spender := stored]>
                        (mapWallet Samples.spend_wallet) /\
       m_confirm stored = m_confirm MoreSamples.confirmed_spender /\
       fInMempool stored = fInMempool (MoreSamples.spender 2) /\
       nOrderPos stored = nOrderPos (MoreSamples.spender 2) /\
       (status (m_confirm MoreSamples.confirmed_spender)
          <> status (m_confirm (MoreSamples.spender 2)) -> fUpdated r = true) /\
       (spends_now Samples.chain MoreSamples.confirmed_spender ->
        forall txin,
          (prevout txin, GetHash MoreSamples.confirmed_spender)
            ∈ mapTxSpends Samples.spend_wallet ->
          IsSpent Samples.chain w'
            (COutPoint.hash (prevout txin)) (COutPoint.n (prevout txin)) = true)).
Proof.
  assert (H : mapWallet Samples.spend_wallet !! GetHash MoreSamples.confirmed_spender
              = Some (MoreSamples.spender 2)) by reflexivity.
  split; [exact H|].
  exact (known_tx_takes_confirmation Samples.is_coinbase Samples.has_witness
           Samples.note_eq Samples.note_eq Samples.chain true
           MoreSamples.confirmed_spender (MoreSamples.spender 2) Samples.spend_wallet H).
Defined.
